(** * Zomatooo: the food-ordering chatbot, embedded and verified

    A shallow embedding of

    - [mockZomatoService.js]: the mock backend (restaurant search, menus,
      carts, orders, order tracking);
    - [gemini-food-ordering.js]: the MCP-style tool registry with its six
      default tools, the bounded function-call loop of [POST /chat], the
      session history update, and the mock service class that the file
      declares for itself;
    - [server.js]: [handleFunctionCall] and the client wrappers, the
      second [POST /chat] loop with its history update, and the session
      endpoints [GET] and [DELETE /session/:sessionId].

    Conventions of the embedding.

    - JavaScript strings are [string]s over ASCII: [toLowerCase] folds the
      letters [A]-[Z], and the regular expression class [\s] is read on its
      ASCII members.  The statements about all strings are statements
      about all ASCII strings.
    - The numbers that the code computes with (prices, quantities,
      subtotals, totals) are IEEE 754 binary64 values, with the operations
      of [SpecFloat]; a quantity is any such value, as the code checks
      none.  Clock readings are integers.  Ratings, which are only stored,
      are kept in tenths.
    - A [Map] used as a store (carts, orders) is a [gmap]; the registry's
      [Map], whose iteration order is observable, is an insertion-ordered
      association list.  An object literal used as a table is read as the
      code reads it: on its own keys and, for the other keys, on the
      properties inherited from [Object.prototype].
    - A thrown error is an outcome of its own, beside the two result
      objects.  A message built by a template literal is kept as the
      template's text and substituted values.
    - The arguments of the service operations have the types that the
      tool schemas declare (strings, a number); the tool handlers pass
      on what the model sent, so there an argument may also be undefined.
    - An in-place update of an object held in a [Map] is an update of the
      map at that key.
    - The clock ([Date.now()], [new Date()]) is an explicit argument.
    - The language model is an arbitrary function from the messages sent
      in a chat to a response or a thrown error; it is taken not to touch
      the history array it is started from.
    - The tool handlers of [gemini-food-ordering.js] call the object
      [mockService] of that file, an instance of the class that the file
      declares for itself; it is embedded in the module [Inline].  The
      class of [mockZomatoService.js] is embedded at top level; the files
      embedded here do not instantiate it. *)

From stdpp Require Import gmap strings list pretty.
From Stdlib Require Import ZArith SpecFloat.
From Stdlib Require QArith.

Local Open Scope string_scope.

(** ** JavaScript primitives *)

Module JS.

  (** *** Strings *)

  (** One character of [String.prototype.toLowerCase]. *)
Definition lower_char (c : Ascii.ascii) : Ascii.ascii :=
    let n := Ascii.nat_of_ascii c in
    if (65 <=? n)%nat && (n <=? 90)%nat then Ascii.ascii_of_nat (n + 32) else c.

Fixpoint toLowerCase (s : string) : string :=
    match s with
    | EmptyString => EmptyString
    | String c s' => String (lower_char c) (toLowerCase s')
    end.

  (** The ASCII members of the class [\s]: tab, line feed, vertical tab,
      form feed, carriage return and space. *)
Definition is_whitespace (c : Ascii.ascii) : bool :=
    let n := Ascii.nat_of_ascii c in
    ((9 <=? n)%nat && (n <=? 13)%nat) || (n =? 32)%nat.

  (** [s.replace(/\s+/g, '')]: every maximal run of whitespace is replaced
      by the empty string, that is, every whitespace character is removed. *)
Fixpoint stripWhitespace (s : string) : string :=
    match s with
    | EmptyString => EmptyString
    | String c s' =>
        if is_whitespace c then stripWhitespace s'
        else String c (stripWhitespace s')
    end.

  (** The strings of the embedding: every character is an ASCII
      character. *)
Definition isAscii (s : string) : bool :=
    forallb (λ c, (Ascii.nat_of_ascii c <? 128)%nat)
      (String.list_ascii_of_string s).

  (** [s.includes(sub)] *)
Fixpoint includes (s sub : string) : bool :=
    String.prefix sub s ||
    match s with
    | EmptyString => false
    | String _ s' => includes s' sub
    end.

  (** Truthiness of an optional string argument: [undefined], [null] and
      the empty string are falsy. *)
Definition truthy (o : option string) : bool :=
    match o with
    | Some s => negb (String.eqb s "")
    | None => false
    end.

  (** [xs.indexOf(x)] on an array of strings. *)
Fixpoint indexOf_from (i : Z) (xs : list string) (x : string) : Z :=
    match xs with
    | [] => (-1)%Z
    | y :: ys => if String.eqb y x then i else indexOf_from (i + 1)%Z ys x
    end.

Definition indexOf (xs : list string) (x : string) : Z := indexOf_from 0 xs x.

  (** [xs.slice(-n)]: the last [n] elements, the whole array when it is
      shorter. *)
Definition slice_last {A} (n : nat) (xs : list A) : list A :=
    drop (length xs - n) xs.

  (** *** Numbers

      A number is an IEEE 754 binary64 value: a zero of either sign, an
      infinity of either sign, NaN, or a finite [(-1)^s * m * 2^e].  The
      operations are those of [SpecFloat] at precision 53 and maximal
      exponent 1024, with rounding to nearest, ties to even. *)
Definition number : Type := spec_float.

Definition prec : Z := 53.
Definition emax : Z := 1024.

  (** The number that an integer literal denotes. *)
Definition num (z : Z) : number := binary_normalize prec emax z 0 false.

Definition zero : number := S754_zero false.
Definition NaN : number := S754_nan.

  (** [x + y], [x * y] and [x / y] on numbers. *)
Definition add (x y : number) : number := SFadd prec emax x y.
Definition mul (x y : number) : number := SFmul prec emax x y.
Definition div (x y : number) : number := SFdiv prec emax x y.

  (** [ToNumber] on a number that may be undefined: [undefined] gives NaN. *)
Definition toNumber (x : option number) : number := default NaN x.

  (** The integer a number stands for, when it is a finite whole number. *)
Definition exactZ (x : number) : option Z :=
    match x with
    | S754_zero _ => Some 0%Z
    | S754_finite s m e =>
        let n := cond_Zopp s (Z.pos m) in
        if (0 <=? e)%Z then Some (n * 2 ^ e)%Z
        else if (n mod 2 ^ (- e) =? 0)%Z then Some (n / 2 ^ (- e))%Z
        else None
    | _ => None
    end.

  (** *** Object literals used as tables

      [table[key]] on an object literal finds the literal's own
      properties and, for the other keys, the properties that every object
      inherits from [Object.prototype].  The inherited values are
      functions, and the prototype object itself under [__proto__]; all of
      them are truthy, and none is an array or has the properties of a
      record of the tables.  Each name is listed with [.length] of the
      value it gives: the arity of the function, nothing for the prototype
      object. *)
Definition Object_prototype : list (string * option nat) :=
    [ ("constructor", Some 1%nat);
      ("__defineGetter__", Some 2%nat);
      ("__defineSetter__", Some 2%nat);
      ("hasOwnProperty", Some 1%nat);
      ("__lookupGetter__", Some 1%nat);
      ("__lookupSetter__", Some 1%nat);
      ("isPrototypeOf", Some 1%nat);
      ("propertyIsEnumerable", Some 1%nat);
      ("toString", Some 0%nat);
      ("valueOf", Some 0%nat);
      ("__proto__", None);
      ("toLocaleString", Some 0%nat) ].

  (** What [table[key]] gives when it is not undefined: a value of the
      table, or the inherited property of that name. *)
Inductive Held (V : Type) : Type :=
    | Own (value : V)
    | Inherited (key : string).
  Arguments Own {V} value.
  Arguments Inherited {V} key.

Definition inherited (key : string) : bool :=
    existsb (String.eqb key) Object_prototype.*1.

  (** [table[key]]; [None] is [undefined]. *)
Definition get {V} (table : gmap string V) (key : string) : option (Held V) :=
    match table !! key with
    | Some value => Some (Own value)
    | None => if inherited key then Some (Inherited key) else None
    end.

  (** [.length] of an inherited property; [None] is [undefined]. *)
Definition lengthOf (key : string) : option nat :=
    match List.find (λ entry, String.eqb entry.1 key) Object_prototype with
    | Some (_, n) => n
    | None => None
    end.

  (** The property key that an optional string argument is used as:
      [undefined] is converted to the string ["undefined"]. *)
Definition keyOf (o : option string) : string := default "undefined" o.

End JS.

#[global] Instance number_eq_dec : EqDecision JS.number.
Proof. solve_decision. Defined.

(* Numbers are computed by [vm_compute], never unfolded by [simpl]. *)
Arguments JS.num : simpl never.
Arguments JS.add : simpl never.
Arguments JS.mul : simpl never.
Arguments JS.div : simpl never.

(** A value passed around as a property of an object: undefined, a string
    or a number. *)
Inductive JsVal :=
  | Undefined
  | Str (s : string)
  | Num (x : JS.number).

Definition ofStr (o : option string) : JsVal :=
  match o with Some s => Str s | None => Undefined end.

Definition ofNum (o : option JS.number) : JsVal :=
  match o with Some x => Num x | None => Undefined end.

(** A template literal: its text and the values substituted into it, in
    order.  The rendering of a number as a string is left to the reader of
    the message. *)
Inductive Piece :=
  | Lit (s : string)
  | Subst (v : JsVal).

Definition Template : Type := list Piece.

(** ** mockZomatoService.js *)

(** The outcome of a call of the service: one of the result objects
    [{ success: true, ... }] and [{ success: false, error }], or a thrown
    error. *)
Inductive Result (A : Type) : Type :=
  | Success (payload : A)
  | Failure (error : string)
  | Thrown (message : string).
Arguments Success {A} payload.
Arguments Failure {A} error.
Arguments Thrown {A} message.

Definition is_success {A} (r : Result A) : bool :=
  match r with Success _ => true | _ => false end.

(** The error messages of the backend. *)
Definition RestaurantNotFoundError : string := "Restaurant not found".
Definition ItemNotFoundError : string := "Item not found".
Definition EmptyCartError : string := "Cart is empty".
Definition OrderNotFoundError : string := "Order not found".

(** The messages of the [TypeError]s that the engine throws (in the
    wording of V8): iterating over [menu.categories] when it is undefined,
    calling [filter] on a value that does not have it, and reading a
    property of [undefined]. *)
Definition NotIterableError : string :=
  "menu.categories is not iterable".
Definition NotAFunctionError (variable : string) : string :=
  variable +:+ ".filter is not a function".
Definition UndefinedError (property : string) : string :=
  "Cannot read properties of undefined (reading '" +:+ property +:+ "')".

Record Restaurant := {
  rest_id : string;
  rest_name : string;
  rest_cuisine : string;
  rest_rating : Z;            (* in tenths *)
  rest_priceRange : string;
  rest_location : string;
  rest_deliveryTime : string;
  rest_image : string
}.

Record MenuItem := {
  mi_id : string;
  mi_name : string;
  mi_description : string;
  mi_price : JS.number;
  mi_veg : bool;
  mi_rating : Z               (* in tenths *)
}.

Record Category := {
  cat_name : string;
  cat_items : list MenuItem
}.

Record Menu := {
  menu_restaurantId : string;
  menu_restaurantName : string;
  menu_categories : list Category
}.

Record CartItem := {
  ci_itemId : string;
  ci_name : string;
  ci_price : JS.number;
  ci_quantity : JS.number;
  ci_customizations : option string;
  ci_subtotal : JS.number
}.

Record Cart := {
  cart_restaurantId : string;
  cart_items : list CartItem;
  cart_total : JS.number
}.

Record Order := {
  ord_orderId : string;
  ord_items : list CartItem;
  ord_total : JS.number;
  ord_deliveryAddress : string;
  ord_paymentMethod : string;
  ord_status : string;
  ord_estimatedDelivery : string;
  ord_placedAt : string
}.

#[global] Instance Restaurant_eq_dec : EqDecision Restaurant.
Proof. solve_decision. Defined.
#[global] Instance CartItem_eq_dec : EqDecision CartItem.
Proof. solve_decision. Defined.
#[global] Instance Cart_eq_dec : EqDecision Cart.
Proof. solve_decision. Defined.
#[global] Instance Order_eq_dec : EqDecision Order.
Proof. solve_decision. Defined.

(** The service object: [this.restaurants], [this.carts], [this.orders]. *)
Record MockZomatoService := {
  restaurants : gmap string (list Restaurant);
  carts : gmap string Cart;
  orders : gmap string Order
}.

Definition generateMockRestaurants : gmap string (list Restaurant) :=
  list_to_map [
    ("vadodara", [
      {| rest_id := "rest_001"; rest_name := "Sev Usal House";
         rest_cuisine := "Gujarati"; rest_rating := 45;
         rest_priceRange := "budget"; rest_location := "Alkapuri, Vadodara";
         rest_deliveryTime := "25-30 mins"; rest_image := "🍛" |};
      {| rest_id := "rest_002"; rest_name := "Mandap Restaurant";
         rest_cuisine := "North Indian, Gujarati"; rest_rating := 43;
         rest_priceRange := "mid-range";
         rest_location := "RC Dutt Road, Vadodara";
         rest_deliveryTime := "30-35 mins"; rest_image := "🍽️" |};
      {| rest_id := "rest_003"; rest_name := "Jassi De Parathe";
         rest_cuisine := "North Indian, Punjabi"; rest_rating := 46;
         rest_priceRange := "budget"; rest_location := "Sayajigunj, Vadodara";
         rest_deliveryTime := "20-25 mins"; rest_image := "🥘" |};
      {| rest_id := "rest_004"; rest_name := "The Barbeque Nation";
         rest_cuisine := "BBQ, North Indian"; rest_rating := 44;
         rest_priceRange := "premium"; rest_location := "Alkapuri, Vadodara";
         rest_deliveryTime := "35-40 mins"; rest_image := "🍖" |} ]);
    ("mumbai", [
      {| rest_id := "rest_101"; rest_name := "Pizza Express";
         rest_cuisine := "Italian, Pizza"; rest_rating := 42;
         rest_priceRange := "mid-range"; rest_location := "Bandra, Mumbai";
         rest_deliveryTime := "30-35 mins"; rest_image := "🍕" |};
      {| rest_id := "rest_102"; rest_name := "Pasta Lovers";
         rest_cuisine := "Italian"; rest_rating := 45;
         rest_priceRange := "mid-range"; rest_location := "Andheri, Mumbai";
         rest_deliveryTime := "25-30 mins"; rest_image := "🍝" |} ]);
    ("delhi", [
      {| rest_id := "rest_201"; rest_name := "Biryani Blues";
         rest_cuisine := "Biryani, Indian"; rest_rating := 47;
         rest_priceRange := "budget";
         rest_location := "Connaught Place, Delhi";
         rest_deliveryTime := "30-35 mins"; rest_image := "🍚" |} ])
  ].

Definition mkItem (id name description : string) (price : Z) (veg : bool)
    (rating : Z) : MenuItem :=
  {| mi_id := id; mi_name := name; mi_description := description;
     mi_price := JS.num price; mi_veg := veg; mi_rating := rating |}.

Definition getMenus : gmap string Menu :=
  list_to_map [
    ("rest_001",
      {| menu_restaurantId := "rest_001";
         menu_restaurantName := "Sev Usal House";
         menu_categories := [
           {| cat_name := "Breakfast Specials";
              cat_items := [
                mkItem "item_001" "Sev Usal"
                  "Traditional Gujarati breakfast with crispy sev and spicy usal"
                  80 true 46;
                mkItem "item_002" "Dabeli"
                  "Famous Gujarati street food with peanuts and pomegranate"
                  40 true 45;
                mkItem "item_003" "Khaman Dhokla"
                  "Steamed savory cake made from gram flour"
                  60 true 44 ] |};
           {| cat_name := "Main Course";
              cat_items := [
                mkItem "item_004" "Gujarati Thali"
                  "Complete meal with dal, kadhi, vegetables, roti, rice"
                  200 true 47;
                mkItem "item_005" "Undhiyu"
                  "Mixed vegetable curry - Gujarati specialty"
                  150 true 45 ] |} ] |});
    ("rest_002",
      {| menu_restaurantId := "rest_002";
         menu_restaurantName := "Mandap Restaurant";
         menu_categories := [
           {| cat_name := "North Indian";
              cat_items := [
                mkItem "item_101" "Butter Chicken"
                  "Creamy tomato-based chicken curry" 280 false 46;
                mkItem "item_102" "Paneer Butter Masala"
                  "Cottage cheese in rich creamy gravy" 220 true 45 ] |} ] |});
    ("rest_003",
      {| menu_restaurantId := "rest_003";
         menu_restaurantName := "Jassi De Parathe";
         menu_categories := [
           {| cat_name := "Parathas";
              cat_items := [
                mkItem "item_201" "Aloo Paratha"
                  "Stuffed with spiced potato filling" 60 true 47;
                mkItem "item_202" "Paneer Paratha"
                  "Stuffed with cottage cheese" 80 true 46;
                mkItem "item_203" "Mix Veg Paratha"
                  "Stuffed with mixed vegetables" 70 true 45 ] |} ] |});
    ("rest_101",
      {| menu_restaurantId := "rest_101";
         menu_restaurantName := "Pizza Express";
         menu_categories := [
           {| cat_name := "Pizzas";
              cat_items := [
                mkItem "item_301" "Margherita Pizza"
                  "Classic pizza with mozzarella and basil" 299 true 44;
                mkItem "item_302" "Pepperoni Pizza"
                  "Loaded with pepperoni and cheese" 399 false 45 ] |} ] |})
  ].

(** [new MockZomatoService()] *)
Definition new_MockZomatoService : MockZomatoService :=
  {| restaurants := generateMockRestaurants; carts := ∅; orders := ∅ |}.

(** *** searchRestaurants *)

(** The answer of a search.  [restaurants] is what the lookup by location
    gave, filtered: an array of the table or, for a location that names an
    inherited property, that property; [count] is its [.length]. *)
Record SearchPayload := {
  sp_location : string;
  sp_count : option nat;
  sp_restaurants : JS.Held (list Restaurant)
}.

(** [this.restaurants[locationKey] || this.restaurants.vadodara]; every
    value found is truthy, so the fallback is taken exactly when the lookup
    gives undefined.  [None] is [undefined]: the fallback is missing too. *)
Definition restaurantsAt (this : MockZomatoService) (locationKey : string)
    : option (JS.Held (list Restaurant)) :=
  match JS.get (restaurants this) locationKey with
  | Some found => Some found
  | None => JS.get (restaurants this) "vadodara"
  end.

Definition filterByCuisine (cuisine : option string) (rs : list Restaurant)
    : list Restaurant :=
  match cuisine with
  | Some c =>
      if JS.truthy (Some c) then
        let cuisineLower := JS.toLowerCase c in
        List.filter
          (λ r, JS.includes (JS.toLowerCase (rest_cuisine r)) cuisineLower) rs
      else rs
  | None => rs
  end.

Definition filterByPriceRange (priceRange : option string)
    (rs : list Restaurant) : list Restaurant :=
  match priceRange with
  | Some p =>
      if JS.truthy (Some p) then
        List.filter (λ r, String.eqb (rest_priceRange r) p) rs
      else rs
  | None => rs
  end.

Definition searchRestaurants (this : MockZomatoService) (location : string)
    (cuisine priceRange : option string) : Result SearchPayload :=
  let locationKey := JS.stripWhitespace (JS.toLowerCase location) in
  match restaurantsAt this locationKey with
  | Some (JS.Own rs) =>
      let rs := filterByCuisine cuisine rs in
      let rs := filterByPriceRange priceRange rs in
      Success {| sp_location := location;
                 sp_count := Some (length rs);
                 sp_restaurants := JS.Own rs |}
  | Some (JS.Inherited key) =>
      (* restaurants.filter is undefined on a function or on the prototype *)
      if JS.truthy cuisine || JS.truthy priceRange then
        Thrown (NotAFunctionError "restaurants")
      else
        Success {| sp_location := location;
                   sp_count := JS.lengthOf key;
                   sp_restaurants := JS.Inherited key |}
  | None =>
      if JS.truthy cuisine || JS.truthy priceRange then
        Thrown (UndefinedError "filter")
      else Thrown (UndefinedError "length")
  end.

(** *** getMenu *)

(** [menus[restaurantId]]: the menu of the table, or an inherited
    property, which is truthy and is returned as the menu. *)
Definition getMenu (restaurantId : string) : Result (JS.Held Menu) :=
  match JS.get getMenus restaurantId with
  | None => Failure RestaurantNotFoundError
  | Some menu => Success menu
  end.

(** *** addToCart *)

Record AddToCartPayload := {
  atc_message : Template;
  atc_cart : Cart
}.

(** The loop over [menu.categories] that stops at the first category
    holding an item with the wanted id. *)
Fixpoint findItem (categories : list Category) (itemId : string)
    : option MenuItem :=
  match categories with
  | [] => None
  | category :: rest =>
      match List.find (λ i, String.eqb (mi_id i) itemId) (cat_items category) with
      | Some item => Some item
      | None => findItem rest itemId
      end
  end.

(** [cart.items.reduce((sum, item) => sum + item.subtotal, 0)] *)
Definition sumSubtotals (items : list CartItem) : JS.number :=
  fold_left (λ sum item, JS.add sum (ci_subtotal item)) items JS.zero.

Definition emptyCart (restaurantId : string) : Cart :=
  {| cart_restaurantId := restaurantId; cart_items := [];
     cart_total := JS.zero |}.

(** [`Added ${quantity}x ${foundItem.name} to cart`] *)
Definition addedMessage (quantity : JS.number) (itemName : string) : Template :=
  [Lit "Added "; Subst (Num quantity); Lit "x "; Subst (Str itemName);
   Lit " to cart"].

Definition addToCart (this : MockZomatoService)
    (sessionId restaurantId itemId : string) (quantity : JS.number)
    (customizations : option string)
    : MockZomatoService * Result AddToCartPayload :=
  (* if (!this.carts.has(sessionId)) this.carts.set(sessionId, {...}) *)
  let carts1 :=
    match carts this !! sessionId with
    | Some _ => carts this
    | None => <[sessionId := emptyCart restaurantId]> (carts this)
    end in
  (* const cart = this.carts.get(sessionId) *)
  let cart := default (emptyCart restaurantId) (carts this !! sessionId) in
  let this1 := {| restaurants := restaurants this; carts := carts1;
                  orders := orders this |} in
  match JS.get getMenus restaurantId with
  | None => (this1, Failure RestaurantNotFoundError)
  | Some (JS.Inherited _) =>
      (* for (const category of menu.categories): categories is undefined *)
      (this1, Thrown NotIterableError)
  | Some (JS.Own menu) =>
      match findItem (menu_categories menu) itemId with
      | None => (this1, Failure ItemNotFoundError)
      | Some foundItem =>
          let cartItem :=
            {| ci_itemId := itemId;
               ci_name := mi_name foundItem;
               ci_price := mi_price foundItem;
               ci_quantity := quantity;
               ci_customizations := customizations;
               ci_subtotal := JS.mul (mi_price foundItem) quantity |} in
          (* cart.items.push(cartItem); cart.total = cart.items.reduce(...) *)
          let items' := (cart_items cart ++ [cartItem])%list in
          let cart' :=
            {| cart_restaurantId := cart_restaurantId cart;
               cart_items := items';
               cart_total := sumSubtotals items' |} in
          ({| restaurants := restaurants this;
              carts := <[sessionId := cart']> carts1;
              orders := orders this |},
           Success {| atc_message := addedMessage quantity (mi_name foundItem);
                      atc_cart := cart' |})
      end
  end.

(** *** viewCart *)

(** The cart object of a [viewCart] answer: the stored cart, or the
    literal [{ items: [], total: 0 }], which has no [restaurantId]. *)
Record CartView := {
  cv_restaurantId : option string;
  cv_items : list CartItem;
  cv_total : JS.number
}.

Record ViewCartPayload := {
  vc_message : option string;
  vc_cart : CartView
}.

Definition emptyCartView : CartView :=
  {| cv_restaurantId := None; cv_items := []; cv_total := JS.zero |}.

Definition viewOf (cart : Cart) : CartView :=
  {| cv_restaurantId := Some (cart_restaurantId cart);
     cv_items := cart_items cart;
     cv_total := cart_total cart |}.

Definition viewCart (this : MockZomatoService) (sessionId : string)
    : Result ViewCartPayload :=
  match carts this !! sessionId with
  | Some cart =>
      if (length (cart_items cart) =? 0)%nat then
        Success {| vc_message := Some "Your cart is empty";
                   vc_cart := emptyCartView |}
      else Success {| vc_message := None; vc_cart := viewOf cart |}
  | None =>
      Success {| vc_message := Some "Your cart is empty";
                 vc_cart := emptyCartView |}
  end.

(** *** placeOrder *)

Record PlaceOrderPayload := {
  po_message : string;
  po_order : Order
}.

(** [`ORD${Date.now()}`] *)
Definition makeOrderId (now : Z) : string := "ORD" +:+ pretty now.

(** [now] is the reading of [Date.now()], [isoNow] the rendering of
    [new Date().toISOString()]. *)
Definition placeOrder (this : MockZomatoService)
    (sessionId deliveryAddress paymentMethod : string)
    (now : Z) (isoNow : string)
    : MockZomatoService * Result PlaceOrderPayload :=
  match carts this !! sessionId with
  | None => (this, Failure EmptyCartError)
  | Some cart =>
      if (length (cart_items cart) =? 0)%nat then (this, Failure EmptyCartError)
      else
        let orderId := makeOrderId now in
        let order :=
          {| ord_orderId := orderId;
             ord_items := cart_items cart;
             ord_total := cart_total cart;
             ord_deliveryAddress := deliveryAddress;
             ord_paymentMethod := paymentMethod;
             ord_status := "confirmed";
             ord_estimatedDelivery := "30-35 mins";
             ord_placedAt := isoNow |} in
        ({| restaurants := restaurants this;
            carts := delete sessionId (carts this);
            orders := <[orderId := order]> (orders this) |},
         Success {| po_message := "Order placed successfully!";
                    po_order := order |})
  end.

(** *** trackOrder *)

Record TrackPayload := {
  tp_orderId : string;
  tp_status : string;
  tp_estimatedDelivery : string;
  tp_deliveryAddress : string;
  tp_total : JS.number
}.

Definition statuses : list string :=
  ["confirmed"; "preparing"; "out_for_delivery"; "delivered"].

(** The status after one [trackOrder] call:
    [if (i < statuses.length - 1) order.status = statuses[i + 1]]
    with [i = statuses.indexOf(order.status)]. *)
Definition advance (status : string) : string :=
  let currentStatusIndex := JS.indexOf statuses status in
  if (currentStatusIndex <? Z.of_nat (length statuses) - 1)%Z then
    default "undefined" (statuses !! Z.to_nat (currentStatusIndex + 1))
  else status.

Definition trackOrder (this : MockZomatoService) (orderId : string)
    : MockZomatoService * Result TrackPayload :=
  match orders this !! orderId with
  | None => (this, Failure OrderNotFoundError)
  | Some order =>
      let order' :=
        {| ord_orderId := ord_orderId order;
           ord_items := ord_items order;
           ord_total := ord_total order;
           ord_deliveryAddress := ord_deliveryAddress order;
           ord_paymentMethod := ord_paymentMethod order;
           ord_status := advance (ord_status order);
           ord_estimatedDelivery := ord_estimatedDelivery order;
           ord_placedAt := ord_placedAt order |} in
      ({| restaurants := restaurants this;
          carts := carts this;
          orders := <[orderId := order']> (orders this) |},
       Success {| tp_orderId := ord_orderId order';
                  tp_status := ord_status order';
                  tp_estimatedDelivery := ord_estimatedDelivery order';
                  tp_deliveryAddress := ord_deliveryAddress order';
                  tp_total := ord_total order' |})
  end.

(** *** Histories of calls on one service object *)

Inductive Call :=
  | CallSearch (location : string) (cuisine priceRange : option string)
  | CallGetMenu (restaurantId : string)
  | CallAddToCart (sessionId restaurantId itemId : string)
      (quantity : JS.number)
      (customizations : option string)
  | CallViewCart (sessionId : string)
  | CallPlaceOrder (sessionId deliveryAddress paymentMethod : string)
      (now : Z) (isoNow : string)
  | CallTrackOrder (orderId : string).

(** The service object after a call. *)
Definition after (this : MockZomatoService) (c : Call) : MockZomatoService :=
  match c with
  | CallSearch _ _ _ | CallGetMenu _ | CallViewCart _ => this
  | CallAddToCart s r i q cu => (addToCart this s r i q cu).1
  | CallPlaceOrder s a p now iso => (placeOrder this s a p now iso).1
  | CallTrackOrder o => (trackOrder this o).1
  end.

(** The states a service object can be in: freshly constructed, then any
    sequence of calls. *)
Inductive reachable : MockZomatoService → Prop :=
  | reachable_new : reachable new_MockZomatoService
  | reachable_after this c : reachable this → reachable (after this c).

Definition after_all (this : MockZomatoService) (cs : list Call)
    : MockZomatoService :=
  fold_left after cs this.

(* The operations are unfolded by name in the proofs, never by [simpl]. *)
Arguments addedMessage : simpl never.
Arguments getMenus : simpl never.
Arguments generateMockRestaurants : simpl never.
Arguments searchRestaurants : simpl never.
Arguments addToCart : simpl never.
Arguments placeOrder : simpl never.
Arguments trackOrder : simpl never.
(** ** Exceptions and insertion-ordered maps *)

(** A computation that returns a value or throws. *)
Inductive Exc (A : Type) : Type :=
  | Return (value : A)
  | Throw (message : string).
Arguments Return {A} value.
Arguments Throw {A} message.

(** A JavaScript [Map] with string keys, in insertion order: [set] on a
    present key replaces the value in place, on an absent key appends. *)
Module JsMap.
  Section JsMap.
    Context {V : Type}.

Definition t := list (string * V).

Definition empty : t := [].

Fixpoint get (m : t) (k : string) : option V :=
      match m with
      | [] => None
      | (k', v) :: m' => if String.eqb k' k then Some v else get m' k
      end.

Definition has (m : t) (k : string) : bool :=
      match get m k with Some _ => true | None => false end.

Fixpoint set (m : t) (k : string) (v : V) : t :=
      match m with
      | [] => [(k, v)]
      | (k', v') :: m' =>
          if String.eqb k' k then (k', v) :: m' else (k', v') :: set m' k v
      end.

Definition keys (m : t) : list string := m.*1.

Definition size (m : t) : nat := length m.
  End JsMap.
  Arguments t : clear implicits.
End JsMap.

(** ** gemini-food-ordering.js: the tool registry *)

Record PropertySchema := {
  ps_type : string;
  ps_description : string;
  ps_enum : option (list string);
  ps_minimum : option Z
}.

Record Schema := {
  sch_type : string;
  sch_properties : list (string * PropertySchema);
  sch_required : list string
}.

(** What the handlers receive as [ctx]; the service objects it refers to
    ([ctx.mockService], [ctx.zomatoClient]) are part of the world the
    handlers act on. *)
Record Context := {
  ctx_sessionId : string
}.

Section ToolRegistry.
  Context {Args ToolResult World : Type}.

Record ToolDefinition := {
    name : string;
    description : string;
    inputSchema : Schema;
    handler : Args → Context → World → World * Exc ToolResult
  }.

  (** [this.tools] *)
Definition ToolRegistry := JsMap.t ToolDefinition.

Definition registerTool (tools : ToolRegistry) (definition : ToolDefinition)
      : ToolRegistry :=
    JsMap.set tools (name definition) definition.

Record FunctionDeclaration := {
    fd_name : string;
    fd_description : string;
    fd_parameters : Schema
  }.

Definition getGeminiTools (tools : ToolRegistry) : list FunctionDeclaration :=
    map (λ entry : string * ToolDefinition,
           {| fd_name := name entry.2;
              fd_description := description entry.2;
              fd_parameters := inputSchema entry.2 |}) tools.

Definition executeTool (tools : ToolRegistry) (toolName : string)
      (args : Args) (context : Context) (world : World)
      : World * Exc ToolResult :=
    match JsMap.get tools toolName with
    | None => (world, Throw ("Tool not found: " +:+ toolName))
    | Some tool => handler tool args context world
    end.

End ToolRegistry.
Arguments ToolDefinition : clear implicits.
Arguments ToolRegistry : clear implicits.

(** ** The language-model capability *)

Section Chat.
  Context {Args ToolResult World : Type}.

Record FunctionCall := {
    fc_name : string;
    fc_args : Args
  }.

  (** A response of the model: [response.functionCalls], which may be
      undefined, and [response.text()], which may throw. *)
Record Response := {
    functionCalls : option (list FunctionCall);
    text : Exc string
  }.

  (** What [chat.sendMessage] is given: the user's text, or the
      [functionResponse] of a tool. *)
Inductive Part :=
    | UserText (message : string)
    | FunctionResponse (toolName : string) (result : ToolResult).

Inductive Role := user | model.

Record Content := {
    role : Role;
    parts_text : string
  }.

  (** The capability, held fixed during a turn: the answer to the
      messages sent so far in a chat started from a history, or a thrown
      transport error. *)
Definition GenerativeModel := list Content → list Part → Exc Response.

  (** [response.functionCalls?.length > 0], with [functionCalls[0]]. *)
Definition firstFunctionCall (response : Response) : option FunctionCall :=
    match functionCalls response with
    | Some (functionCall :: _) => Some functionCall
    | _ => None
    end.

  (** *** The function-call loop of [POST /chat] *)

  (** The variables of the loop; [executed] is a ghost log of the calls
      that were run. *)
Record LoopState := {
    response : Response;
    callCount : nat;
    sent : list Part;
    world : World;
    executed : list FunctionCall
  }.

Inductive LoopExit :=
    | Exited (st : LoopState)
    | Raised (message : string) (st : LoopState)
    | OutOfFuel.

  Section Loop.
    (** How a requested call is run: [toolRegistry.executeTool] in
        gemini-food-ordering.js, [handleFunctionCall] in server.js. *)
    Variable execute : string → Args → Context → World → World * Exc ToolResult.
    (** The cap on the counter: [maxCalls], [maxFunctionCalls]. *)
    Variable cap : nat.
    Variable genAI : GenerativeModel.
    Variable history : list Content.
    Variable context : Context.

    (** One pass through the body of the [while]. *)
Definition loopBody (st : LoopState) (functionCall : FunctionCall)
        : LoopState + string * LoopState :=
      let '(world', toolResult) :=
        execute (fc_name functionCall) (fc_args functionCall)
          context (world st) in
      let ran := (executed st ++ [functionCall])%list in
      match toolResult with
      | Throw message =>
          inr (message,
               {| response := response st; callCount := callCount st;
                  sent := sent st; world := world'; executed := ran |})
      | Return toolResult =>
          let sent' :=
            (sent st ++ [FunctionResponse (fc_name functionCall) toolResult])%list in
          match genAI history sent' with
          | Throw message =>
              inr (message,
                   {| response := response st; callCount := callCount st;
                      sent := sent'; world := world'; executed := ran |})
          | Return response' =>
              inl {| response := response'; callCount := S (callCount st);
                     sent := sent'; world := world'; executed := ran |}
          end
      end.

    (** [while (response.functionCalls?.length > 0 && callCount < cap)] *)
Fixpoint functionCallLoop (fuel : nat) (st : LoopState) : LoopExit :=
      match fuel with
      | 0 => OutOfFuel
      | S fuel' =>
          match firstFunctionCall (response st) with
          | Some functionCall =>
              if (callCount st <? cap)%nat then
                match loopBody st functionCall with
                | inl st' => functionCallLoop fuel' st'
                | inr (message, st') => Raised message st'
                end
              else Exited st
          | None => Exited st
          end
      end.

    (** The final text: [response.text()], or a summary when it throws. *)
Definition finalText (st : LoopState) : string :=
      match text (response st) with
      | Return t => t
      | Throw _ =>
          if (0 <? callCount st)%nat then
            "I've processed your request. Please let me know if you need any clarification or would like to proceed with your order."
          else
            "I'm here to help you order food! Try asking me to search for restaurants, view menus, or place an order."
      end.

  End Loop.

  (** *** The session store and the history update *)

Record Session := {
    history : list Content;
    createdAt : Z
  }.

Definition historyCap : nat := 40.

  (** [session.history.push(user, model)], then
      [if (session.history.length > 40) session.history = session.history.slice(-40)] *)
Definition updateHistory (h : list Content) (message finalResponse : string)
      : list Content :=
    let h' := (h ++ [ {| role := user; parts_text := message |};
                      {| role := model; parts_text := finalResponse |} ])%list in
    if (historyCap <? length h')%nat then JS.slice_last historyCap h' else h'.

  (** *** POST /chat of gemini-food-ordering.js *)

Definition maxCalls : nat := 10.

Record ChatRequest := {
    req_message : option string;
    req_sessionId : option string
  }.

Inductive HttpResponse :=
    | Json200 (finalResponse : string) (sessionId : string) (toolsUsed : nat)
    | Json400 (error : string)
    | Json500 (error : string) (details : string).

  (** The server's state, with the ghost log of the last turn. *)
Record Outcome := {
    out_sessions : gmap string Session;
    out_world : World;
    out_executed : list FunctionCall;
    out_response : HttpResponse
  }.

  (** [now] is the reading of the clock when the request arrives; it names
      the session when the request gives no id and dates a new session. *)
Definition chat (tools : ToolRegistry Args ToolResult World)
      (genAI : GenerativeModel) (fuel : nat)
      (sessions : gmap string Session) (w : World)
      (req : ChatRequest) (now : Z) : option Outcome :=
    let sessionId := default ("session_" +:+ pretty now) (req_sessionId req) in
    if negb (JS.truthy (req_message req)) then
      Some {| out_sessions := sessions; out_world := w; out_executed := [];
              out_response := Json400 "Message required" |}
    else
      let message := default "" (req_message req) in
      let session :=
        default {| history := []; createdAt := now |} (sessions !! sessionId) in
      let sessions1 := <[sessionId := session]> sessions in
      match genAI (history session) [UserText message] with
      | Throw details =>
          Some {| out_sessions := sessions1; out_world := w;
                  out_executed := [];
                  out_response := Json500 "Request failed" details |}
      | Return response0 =>
          let st0 := {| response := response0; callCount := 0;
                        sent := [UserText message]; world := w;
                        executed := [] |} in
          match functionCallLoop (executeTool tools) maxCalls genAI (history session)
                  {| ctx_sessionId := sessionId |} fuel st0 with
          | OutOfFuel => None
          | Raised details st =>
              Some {| out_sessions := sessions1; out_world := world st;
                      out_executed := executed st;
                      out_response := Json500 "Request failed" details |}
          | Exited st =>
              let finalResponse := finalText st in
              let session' :=
                {| history := updateHistory (history session) message finalResponse;
                   createdAt := createdAt session |} in
              Some {| out_sessions := <[sessionId := session']> sessions1;
                      out_world := world st;
                      out_executed := executed st;
                      out_response :=
                        Json200 finalResponse sessionId (callCount st) |}
          end
      end.

End Chat.
Arguments FunctionCall : clear implicits.
Arguments Response : clear implicits.
Arguments Part : clear implicits.
Arguments GenerativeModel : clear implicits.
Arguments LoopState : clear implicits.
Arguments LoopExit : clear implicits.
Arguments Outcome : clear implicits.

(** ** gemini-food-ordering.js: the mock service

    The class [MockZomatoService] that gemini-food-ordering.js declares for
    itself and instantiates as [mockService].  It has the six operations of
    mockZomatoService.js over smaller tables, and differs from it in
    [addToCart], which looks nothing up, and in [trackOrder], which only
    reads.  The tool handlers pass it the properties of
    [functionCall.args] as they are, so each argument other than the
    session id may be undefined. *)

Module Inline.

Record CartItem := {
  ci_itemId : option string;
  ci_name : string;
  ci_price : JS.number;
  ci_quantity : option JS.number;
  ci_customizations : option string
}.

Record Cart := {
  cart_restaurantId : option string;
  cart_items : list CartItem;
  cart_total : JS.number
}.

Record Order := {
  ord_orderId : string;
  ord_items : list CartItem;
  ord_total : JS.number;
  ord_deliveryAddress : option string;
  ord_paymentMethod : option string;
  ord_status : string;
  ord_estimatedDelivery : string
}.

(** The service object: [this.carts], [this.orders]. *)
Record MockZomatoService := {
  carts : gmap string Cart;
  orders : gmap string Order
}.

(** [new MockZomatoService()] *)
Definition new_MockZomatoService : MockZomatoService :=
  {| carts := ∅; orders := ∅ |}.

(** The table [restaurants] of [searchRestaurants]. *)
Definition restaurants : gmap string (list Restaurant) :=
  list_to_map [
    ("vadodara", [
      {| rest_id := "rest_001"; rest_name := "Sev Usal House";
         rest_cuisine := "Gujarati"; rest_rating := 45;
         rest_priceRange := "budget"; rest_location := "Alkapuri, Vadodara";
         rest_deliveryTime := "25-30 mins"; rest_image := "🍛" |};
      {| rest_id := "rest_002"; rest_name := "Mandap Restaurant";
         rest_cuisine := "North Indian, Gujarati"; rest_rating := 43;
         rest_priceRange := "mid-range";
         rest_location := "RC Dutt Road, Vadodara";
         rest_deliveryTime := "30-35 mins"; rest_image := "🍽️" |} ])
  ].

Record SearchPayload := {
  sp_count : option nat;
  sp_restaurants : JS.Held (list Restaurant)
}.

Definition searchRestaurants (location cuisine priceRange : option string)
    : Result SearchPayload :=
  match location with
  | None =>
      (* location.toLowerCase() on undefined *)
      Thrown (UndefinedError "toLowerCase")
  | Some location =>
      let key := JS.stripWhitespace (JS.toLowerCase location) in
      (* restaurants[key] || restaurants.vadodara *)
      let results :=
        match JS.get restaurants key with
        | Some found => Some found
        | None => JS.get restaurants "vadodara"
        end in
      match results with
      | Some (JS.Own results) =>
          let results := filterByCuisine cuisine results in
          let results := filterByPriceRange priceRange results in
          Success {| sp_count := Some (length results);
                     sp_restaurants := JS.Own results |}
      | Some (JS.Inherited inheritedKey) =>
          if JS.truthy cuisine || JS.truthy priceRange then
            Thrown (NotAFunctionError "results")
          else
            Success {| sp_count := JS.lengthOf inheritedKey;
                       sp_restaurants := JS.Inherited inheritedKey |}
      | None =>
          if JS.truthy cuisine || JS.truthy priceRange then
            Thrown (UndefinedError "filter")
          else Thrown (UndefinedError "length")
      end
  end.

(** The table [menus] of [getMenu]. *)
Definition menus : gmap string Menu :=
  list_to_map [
    ("rest_001",
      {| menu_restaurantId := "rest_001";
         menu_restaurantName := "Sev Usal House";
         menu_categories := [
           {| cat_name := "Breakfast Specials";
              cat_items := [
                mkItem "item_001" "Sev Usal" "Traditional Gujarati breakfast"
                  80 true 46;
                mkItem "item_002" "Dabeli" "Famous Gujarati street food"
                  40 true 45 ] |} ] |})
  ].

(** [menus[restaurantId]], where an undefined id is the key
    ["undefined"]. *)
Definition getMenu (restaurantId : option string) : Result (JS.Held Menu) :=
  match JS.get menus (JS.keyOf restaurantId) with
  | Some menu => Success menu
  | None => Failure "Restaurant not found"
  end.

Record AddToCartPayload := {
  atc_message : Template;
  atc_cart : Cart
}.

Definition addToCart (this : MockZomatoService) (sessionId : string)
    (restaurantId itemId : option string) (quantity : option JS.number)
    (customizations : option string)
    : MockZomatoService * Result AddToCartPayload :=
  (* if (!this.carts.has(sessionId)) this.carts.set(sessionId, {...}) *)
  let cart :=
    default {| cart_restaurantId := restaurantId; cart_items := [];
               cart_total := JS.zero |} (carts this !! sessionId) in
  let item :=
    {| ci_itemId := itemId; ci_name := "Sev Usal"; ci_price := JS.num 80;
       ci_quantity := quantity; ci_customizations := customizations |} in
  (* cart.items.push(item); cart.total += item.price * quantity *)
  let cart' :=
    {| cart_restaurantId := cart_restaurantId cart;
       cart_items := (cart_items cart ++ [item])%list;
       cart_total :=
         JS.add (cart_total cart)
           (JS.mul (ci_price item) (JS.toNumber quantity)) |} in
  ({| carts := <[sessionId := cart']> (carts this); orders := orders this |},
   Success {| atc_message :=
                [Lit "Added "; Subst (ofNum quantity); Lit "x to cart"];
              atc_cart := cart' |}).

(** The cart of a [viewCart] answer: the stored cart, or the literal
    [{ items: [], total: 0 }]. *)
Record CartView := {
  cv_restaurantId : option string;
  cv_items : list CartItem;
  cv_total : JS.number
}.

Record ViewCartPayload := {
  vc_message : option string;
  vc_cart : CartView
}.

Definition viewCart (this : MockZomatoService) (sessionId : string)
    : Result ViewCartPayload :=
  match carts this !! sessionId with
  | Some cart =>
      if (0 <? length (cart_items cart))%nat then
        Success {| vc_message := None;
                   vc_cart :=
                     {| cv_restaurantId := cart_restaurantId cart;
                        cv_items := cart_items cart;
                        cv_total := cart_total cart |} |}
      else
        Success {| vc_message := Some "Cart is empty";
                   vc_cart := {| cv_restaurantId := None; cv_items := [];
                                 cv_total := JS.zero |} |}
  | None =>
      Success {| vc_message := Some "Cart is empty";
                 vc_cart := {| cv_restaurantId := None; cv_items := [];
                               cv_total := JS.zero |} |}
  end.

Record PlaceOrderPayload := {
  po_message : string;
  po_order : Order
}.

(** [now] is the reading of [Date.now()]. *)
Definition placeOrder (this : MockZomatoService) (sessionId : string)
    (deliveryAddress paymentMethod : option string) (now : Z)
    : MockZomatoService * Result PlaceOrderPayload :=
  match carts this !! sessionId with
  | None => (this, Failure "Cart is empty")
  | Some cart =>
      if (length (cart_items cart) =? 0)%nat then
        (this, Failure "Cart is empty")
      else
        let orderId := "ORD" +:+ pretty now in
        let order :=
          {| ord_orderId := orderId;
             ord_items := cart_items cart;
             ord_total := cart_total cart;
             ord_deliveryAddress := deliveryAddress;
             ord_paymentMethod := paymentMethod;
             ord_status := "confirmed";
             ord_estimatedDelivery := "30-35 mins" |} in
        ({| carts := delete sessionId (carts this);
            orders := <[orderId := order]> (orders this) |},
         Success {| po_message := "Order placed!"; po_order := order |})
  end.

(** [trackOrder] answers with the stored order and writes nothing; an
    undefined id is the key of no order. *)
Definition trackOrder (this : MockZomatoService) (orderId : option string)
    : Result Order :=
  match orderId with
  | None => Failure "Order not found"
  | Some orderId =>
      match orders this !! orderId with
      | Some order => Success order
      | None => Failure "Order not found"
      end
  end.

(** The calls that change the service object, and the states it can be
    in: freshly constructed, then any sequence of calls. *)
Inductive Call :=
  | CallAddToCart (sessionId : string) (restaurantId itemId : option string)
      (quantity : option JS.number) (customizations : option string)
  | CallPlaceOrder (sessionId : string)
      (deliveryAddress paymentMethod : option string) (now : Z).

Definition after (this : MockZomatoService) (c : Call) : MockZomatoService :=
  match c with
  | CallAddToCart s r i q cu => (addToCart this s r i q cu).1
  | CallPlaceOrder s a p now => (placeOrder this s a p now).1
  end.

Inductive reachable : MockZomatoService → Prop :=
  | reachable_new : reachable new_MockZomatoService
  | reachable_after this c : reachable this → reachable (after this c).

(** The session whose cart a call changes. *)
Definition cartSession (c : Call) : string :=
  match c with
  | CallAddToCart sessionId _ _ _ _ => sessionId
  | CallPlaceOrder sessionId _ _ _ => sessionId
  end.

(** What [cart.total += item.price * quantity] has made of the total
    after the lines of a cart were added one by one. *)
Definition runningTotal (items : list CartItem) : JS.number :=
  fold_left (λ total line,
               JS.add total
                 (JS.mul (ci_price line) (JS.toNumber (ci_quantity line))))
    items JS.zero.

End Inline.

(** ** The default tools of gemini-food-ordering.js *)

(** [functionCall.args], read at the properties the six schemas declare;
    a property that the model left out is undefined. *)
Record Args := {
  arg_location : option string;
  arg_cuisine : option string;
  arg_priceRange : option string;
  arg_restaurantId : option string;
  arg_itemId : option string;
  arg_quantity : option JS.number;
  arg_customizations : option string;
  arg_deliveryAddress : option string;
  arg_paymentMethod : option string;
  arg_orderId : option string
}.

Definition noArgs : Args :=
  {| arg_location := None; arg_cuisine := None; arg_priceRange := None;
     arg_restaurantId := None; arg_itemId := None; arg_quantity := None;
     arg_customizations := None; arg_deliveryAddress := None;
     arg_paymentMethod := None; arg_orderId := None |}.

(** What a tool returns: a result object of the mock service, the answer
    of the remote service, or the error payload of server.js. *)
Inductive ToolResult :=
  | SearchResult (r : Result Inline.SearchPayload)
  | MenuResult (r : Result (JS.Held Menu))
  | AddToCartResult (r : Result Inline.AddToCartPayload)
  | ViewCartResult (r : Result Inline.ViewCartPayload)
  | PlaceOrderResult (r : Result Inline.PlaceOrderPayload)
  | TrackOrderResult (r : Result Inline.Order)
  | RemoteResult (json : string)
  | ErrorResult (message : string).

(** The world the tools act on: the object [mockService] and the clock,
    read as a sequence of readings ([Date.now()] with its ISO rendering). *)
Record World := {
  mockService : Inline.MockZomatoService;
  clock : nat → Z * string;
  ticks : nat
}.

Definition withService (w : World) (s : Inline.MockZomatoService) : World :=
  {| mockService := s; clock := clock w; ticks := ticks w |}.

Definition tick (w : World) : World :=
  {| mockService := mockService w; clock := clock w; ticks := S (ticks w) |}.

(** What a handler makes of the outcome of a service call: the result
    object is returned, an error is thrown on. *)
Definition returned {A} (wrap : Result A → ToolResult) (w : World)
    (r : Result A) : World * Exc ToolResult :=
  match r with
  | Thrown message => (w, Throw message)
  | _ => (w, Return (wrap r))
  end.

Definition prop (type description : string) : PropertySchema :=
  {| ps_type := type; ps_description := description;
     ps_enum := None; ps_minimum := None |}.

Section DefaultTools.
  (** [USE_MOCK], and the remote client [ctx.zomatoClient.callMCP]. *)
  Variable USE_MOCK : bool.
  Variable callMCP :
    string → list (string * JsVal) → World → World * Exc ToolResult.

Definition search_restaurants : ToolDefinition Args ToolResult World :=
    {| name := "search_restaurants";
       description := "Search for restaurants based on location, cuisine, and price range. Returns list with ratings, delivery times, and addresses.";
       inputSchema :=
         {| sch_type := "object";
            sch_properties := [
              ("location", prop "string" "City or area (e.g., 'Vadodara', 'Mumbai')");
              ("cuisine", prop "string" "Cuisine type (e.g., 'Gujarati', 'Italian', 'Chinese')");
              ("priceRange",
                {| ps_type := "string"; ps_description := "Price range filter";
                   ps_enum := Some ["budget"; "mid-range"; "premium"];
                   ps_minimum := None |}) ];
            sch_required := ["location"] |};
       handler := λ args ctx w,
         if USE_MOCK then
           returned SearchResult w
             (Inline.searchRestaurants (arg_location args) (arg_cuisine args)
                (arg_priceRange args))
         else
           callMCP "search_restaurants"
             [("location", ofStr (arg_location args));
              ("cuisine", ofStr (arg_cuisine args));
              ("priceRange", ofStr (arg_priceRange args))] w |}.

Definition get_menu : ToolDefinition Args ToolResult World :=
    {| name := "get_menu";
       description := "Get complete restaurant menu with items, prices, descriptions, and dietary info.";
       inputSchema :=
         {| sch_type := "object";
            sch_properties := [("restaurantId", prop "string" "Restaurant ID")];
            sch_required := ["restaurantId"] |};
       handler := λ args ctx w,
         if USE_MOCK then
           returned MenuResult w (Inline.getMenu (arg_restaurantId args))
         else
           callMCP "get_menu"
             [("restaurant_id", ofStr (arg_restaurantId args))] w |}.

Definition add_to_cart : ToolDefinition Args ToolResult World :=
    {| name := "add_to_cart";
       description := "Add food item to cart with quantity and optional customizations.";
       inputSchema :=
         {| sch_type := "object";
            sch_properties := [
              ("restaurantId", prop "string" "Restaurant ID");
              ("itemId", prop "string" "Menu item ID");
              ("quantity",
                {| ps_type := "number"; ps_description := "Quantity to add";
                   ps_enum := None; ps_minimum := Some 1%Z |});
              ("customizations", prop "string" "Special instructions") ];
            sch_required := ["restaurantId"; "itemId"; "quantity"] |};
       handler := λ args ctx w,
         if USE_MOCK then
           let '(s, r) :=
             Inline.addToCart (mockService w) (ctx_sessionId ctx)
               (arg_restaurantId args) (arg_itemId args) (arg_quantity args)
               (arg_customizations args) in
           returned AddToCartResult (withService w s) r
         else
           callMCP "add_to_cart"
             [("session_id", Str (ctx_sessionId ctx));
              ("restaurant_id", ofStr (arg_restaurantId args));
              ("item_id", ofStr (arg_itemId args));
              ("quantity", ofNum (arg_quantity args));
              ("customizations", ofStr (arg_customizations args))] w |}.

Definition view_cart : ToolDefinition Args ToolResult World :=
    {| name := "view_cart";
       description := "View all items in cart with quantities, prices, and total amount.";
       inputSchema :=
         {| sch_type := "object"; sch_properties := []; sch_required := [] |};
       handler := λ args ctx w,
         if USE_MOCK then
           returned ViewCartResult w
             (Inline.viewCart (mockService w) (ctx_sessionId ctx))
         else
           callMCP "view_cart" [("session_id", Str (ctx_sessionId ctx))] w |}.

Definition place_order : ToolDefinition Args ToolResult World :=
    {| name := "place_order";
       description := "Place order with delivery address and payment method. Returns order ID.";
       inputSchema :=
         {| sch_type := "object";
            sch_properties := [
              ("deliveryAddress", prop "string" "Full delivery address");
              ("paymentMethod",
                {| ps_type := "string"; ps_description := "Payment method";
                   ps_enum := Some ["cash"; "card"; "upi"];
                   ps_minimum := None |}) ];
            sch_required := ["deliveryAddress"; "paymentMethod"] |};
       handler := λ args ctx w,
         if USE_MOCK then
           let '(s, r) :=
             Inline.placeOrder (mockService w) (ctx_sessionId ctx)
               (arg_deliveryAddress args) (arg_paymentMethod args)
               (clock w (ticks w)).1 in
           (* Date.now() is read when the order is made *)
           returned PlaceOrderResult
             (if is_success r then tick (withService w s) else w) r
         else
           callMCP "place_order"
             [("session_id", Str (ctx_sessionId ctx));
              ("delivery_address", ofStr (arg_deliveryAddress args));
              ("payment_method", ofStr (arg_paymentMethod args))] w |}.

Definition track_order : ToolDefinition Args ToolResult World :=
    {| name := "track_order";
       description := "Track order status with order ID. Shows status, ETA, and delivery details.";
       inputSchema :=
         {| sch_type := "object";
            sch_properties := [("orderId", prop "string" "Order ID to track")];
            sch_required := ["orderId"] |};
       handler := λ args ctx w,
         if USE_MOCK then
           returned TrackOrderResult w
             (Inline.trackOrder (mockService w) (arg_orderId args))
         else
           callMCP "track_order" [("order_id", ofStr (arg_orderId args))] w |}.

  (** [registerDefaultTools()], run by the constructor on an empty map. *)
Definition registerDefaultTools (tools : ToolRegistry Args ToolResult World)
      : ToolRegistry Args ToolResult World :=
    let tools := registerTool tools search_restaurants in
    let tools := registerTool tools get_menu in
    let tools := registerTool tools add_to_cart in
    let tools := registerTool tools view_cart in
    let tools := registerTool tools place_order in
    registerTool tools track_order.

  (** [new ToolRegistry()] *)
Definition new_ToolRegistry : ToolRegistry Args ToolResult World :=
    registerDefaultTools JsMap.empty.

End DefaultTools.

(** ** server.js *)

Section Server.
  (** The remote Zomato service and [ZomatoMCPClient.callTool], which
      posts a [tools/call] request and throws when it fails. *)
  Context {Remote : Type}.
  Variable callTool :
    string → list (string * JsVal) → Remote → Remote * Exc ToolResult.

  (** [...(v && { key: v })] *)
Definition optionalParam (key : string) (v : option string)
      : list (string * JsVal) :=
    if JS.truthy v then [(key, ofStr v)] else [].

Definition client_searchRestaurants (location cuisine priceRange : option string) :=
    callTool "search_restaurants"
      ([("location", ofStr location)] ++ optionalParam "cuisine" cuisine
         ++ optionalParam "price_range" priceRange)%list.

Definition client_getMenu (restaurantId : option string) :=
    callTool "get_menu" [("restaurant_id", ofStr restaurantId)].

Definition client_addToCart (sessionId : string)
      (restaurantId itemId : option string)
      (quantity : option JS.number)
      (customizations : option string) :=
    callTool "add_to_cart"
      ([("session_id", Str sessionId); ("restaurant_id", ofStr restaurantId);
        ("item_id", ofStr itemId); ("quantity", ofNum quantity)]
         ++ optionalParam "customizations" customizations)%list.

Definition client_viewCart (sessionId : string) :=
    callTool "view_cart" [("session_id", Str sessionId)].

Definition client_placeOrder (sessionId : string)
      (deliveryAddress paymentMethod : option string) :=
    callTool "place_order"
      [("session_id", Str sessionId);
       ("delivery_address", ofStr deliveryAddress);
       ("payment_method", ofStr paymentMethod)].

Definition client_trackOrder (orderId : option string) :=
    callTool "track_order" [("order_id", ofStr orderId)].

  (** The [switch] of [handleFunctionCall], inside its [try]. *)
Definition dispatch (functionName : string) (args : Args)
      (sessionId : string) (w : Remote) : Remote * Exc ToolResult :=
    if String.eqb functionName "search_restaurants" then
      client_searchRestaurants (arg_location args) (arg_cuisine args)
        (arg_priceRange args) w
    else if String.eqb functionName "get_menu" then
      client_getMenu (arg_restaurantId args) w
    else if String.eqb functionName "add_to_cart" then
      client_addToCart sessionId (arg_restaurantId args) (arg_itemId args)
        (arg_quantity args) (arg_customizations args) w
    else if String.eqb functionName "view_cart" then
      client_viewCart sessionId w
    else if String.eqb functionName "place_order" then
      client_placeOrder sessionId (arg_deliveryAddress args)
        (arg_paymentMethod args) w
    else if String.eqb functionName "track_order" then
      client_trackOrder (arg_orderId args) w
    else (w, Throw ("Unknown function: " +:+ functionName)).

  (** [handleFunctionCall]: a thrown error becomes the payload
      [{ error: true, message }]. *)
Definition handleFunctionCall (functionName : string) (args : Args)
      (sessionId : string) (w : Remote) : Remote * ToolResult :=
    match dispatch functionName args sessionId w with
    | (w', Return result) => (w', result)
    | (w', Throw message) => (w', ErrorResult message)
    end.

(** [handleFunctionCall] as the loop calls it: it returns, never throws. *)
Definition handled (functionName : string) (args : Args) (ctx : Context)
    (w : Remote) : Remote * Exc ToolResult :=
  let '(w', result) :=
    handleFunctionCall functionName args (ctx_sessionId ctx) w in
  (w', Return result).

Definition maxFunctionCalls : nat := 10.

Record ServerSession := {
    ss_history : list Content;
    ss_userId : option string;
    ss_createdAt : Z
  }.

Record ServerRequest := {
    sreq_message : option string;
    sreq_sessionId : option string;
    sreq_userId : option string
  }.

Inductive ServerResponse :=
    | Server200 (finalResponse : string) (sessionId : string) (timestamp : Z)
    | Server400 (error : string)
    | Server500 (error : string) (details : string).

Record ServerOutcome := {
    sout_sessions : gmap string ServerSession;
    sout_world : Remote;
    sout_executed : list (FunctionCall Args);
    sout_response : ServerResponse
  }.

Definition serverError : string := "An error occurred processing your request".

  (** [POST /chat] of server.js. *)
Definition server_chat (genAI : GenerativeModel Args ToolResult) (fuel : nat)
      (sessions : gmap string ServerSession) (w : Remote)
      (req : ServerRequest) (now : Z) : option ServerOutcome :=
    let sessionId := default ("session_" +:+ pretty now) (sreq_sessionId req) in
    if negb (JS.truthy (sreq_message req)) then
      Some {| sout_sessions := sessions; sout_world := w; sout_executed := [];
              sout_response := Server400 "Valid message is required" |}
    else
      let message := default "" (sreq_message req) in
      let session :=
        default {| ss_history := []; ss_userId := sreq_userId req;
                   ss_createdAt := now |} (sessions !! sessionId) in
      let sessions1 := <[sessionId := session]> sessions in
      match genAI (ss_history session) [UserText message] with
      | Throw details =>
          Some {| sout_sessions := sessions1; sout_world := w;
                  sout_executed := [];
                  sout_response := Server500 serverError details |}
      | Return response0 =>
          let st0 := {| response := response0; callCount := 0;
                        sent := [UserText message]; world := w;
                        executed := [] |} in
          match functionCallLoop handled maxFunctionCalls genAI
                  (ss_history session) {| ctx_sessionId := sessionId |}
                  fuel st0 with
          | OutOfFuel => None
          | Raised details st =>
              Some {| sout_sessions := sessions1; sout_world := world st;
                      sout_executed := executed st;
                      sout_response := Server500 serverError details |}
          | Exited st =>
              (* const finalResponse = response.text() *)
              match text (response st) with
              | Throw details =>
                  Some {| sout_sessions := sessions1; sout_world := world st;
                          sout_executed := executed st;
                          sout_response := Server500 serverError details |}
              | Return finalResponse =>
                  let session' :=
                    {| ss_history :=
                         updateHistory (ss_history session) message finalResponse;
                       ss_userId := ss_userId session;
                       ss_createdAt := ss_createdAt session |} in
                  Some {| sout_sessions := <[sessionId := session']> sessions1;
                          sout_world := world st;
                          sout_executed := executed st;
                          sout_response := Server200 finalResponse sessionId now |}
              end
          end
      end.

  (** [DELETE /session/:sessionId] *)
Definition deleteSession (sessions : gmap string ServerSession)
      (sessionId : string) : gmap string ServerSession :=
    delete sessionId sessions.

End Server.

(** * Specification vocabulary *)

(** The restaurants of a search answer; none when the search threw or
    when what it answered is not a list. *)
Definition found (r : Result SearchPayload) : list Restaurant :=
  match r with
  | Success payload =>
      match sp_restaurants payload with
      | JS.Own rs => rs
      | JS.Inherited _ => []
      end
  | _ => []
  end.

(** The exact sum of price × quantity over the lines of a cart, when
    every price and quantity is a whole number. *)
Definition exactTotal (items : list CartItem) : option Z :=
  foldr (λ line acc,
           price ← JS.exactZ (ci_price line);
           quantity ← JS.exactZ (ci_quantity line);
           rest ← acc;
           Some (price * quantity + rest)%Z) (Some 0%Z) items.

(** The subtotal of a line is the product the code computed. *)
Definition lineOk (line : CartItem) : Prop :=
  ci_subtotal line = JS.mul (ci_price line) (ci_quantity line).

(** The total of a cart is what the code's [reduce] gives on its lines. *)
Definition cartOk (cart : Cart) : Prop :=
  Forall lineOk (cart_items cart) ∧
  cart_total cart = sumSubtotals (cart_items cart).

Definition orderOk (orderId : string) (order : Order) : Prop :=
  ord_orderId order = orderId ∧
  ord_status order ∈ statuses ∧
  ord_items order ≠ [] ∧
  Forall lineOk (ord_items order) ∧
  ord_total order = sumSubtotals (ord_items order).

(** What every reachable service object satisfies. *)
Definition serviceOk (this : MockZomatoService) : Prop :=
  restaurants this = generateMockRestaurants ∧
  map_Forall (λ _ cart, cartOk cart) (carts this) ∧
  map_Forall orderOk (orders this).

(** The cart line that [addToCart] builds for a menu item. *)
Definition lineFor (itemId : string) (item : MenuItem) (quantity : JS.number)
    (customizations : option string) : CartItem :=
  {| ci_itemId := itemId;
     ci_name := mi_name item;
     ci_price := mi_price item;
     ci_quantity := quantity;
     ci_customizations := customizations;
     ci_subtotal := JS.mul (mi_price item) quantity |}.

(** The lines of a session's cart, none when it has no cart. *)
Definition linesOf (this : MockZomatoService) (sessionId : string)
    : list CartItem :=
  match carts this !! sessionId with
  | Some cart => cart_items cart
  | None => []
  end.

(** [n] successive [trackOrder] calls on one order id. *)
Fixpoint trackTimes (n : nat) (this : MockZomatoService) (orderId : string)
    : MockZomatoService :=
  match n with
  | 0 => this
  | S n' => trackTimes n' (trackOrder this orderId).1 orderId
  end.

(** The two filters as predicates on a restaurant; an absent or empty
    argument keeps everything. *)
Definition keepCuisine (cuisine : option string) (r : Restaurant) : bool :=
  match cuisine with
  | Some c => JS.includes (JS.toLowerCase (rest_cuisine r)) (JS.toLowerCase c)
  | None => true
  end.

Definition keepPriceRange (priceRange : option string) (r : Restaurant) : bool :=
  match priceRange with
  | Some p => String.eqb p "" || String.eqb (rest_priceRange r) p
  | None => true
  end.

(** The calls that remove no cart: all but [placeOrder]. *)
Definition keepsCarts (c : Call) : Prop :=
  match c with
  | CallPlaceOrder _ _ _ _ _ => False
  | _ => True
  end.

(** An order with another status. *)
Definition withStatus (order : Order) (status : string) : Order :=
  {| ord_orderId := ord_orderId order;
     ord_items := ord_items order;
     ord_total := ord_total order;
     ord_deliveryAddress := ord_deliveryAddress order;
     ord_paymentMethod := ord_paymentMethod order;
     ord_status := status;
     ord_estimatedDelivery := ord_estimatedDelivery order;
     ord_placedAt := ord_placedAt order |}.

Fixpoint advanceTimes (n : nat) (status : string) : string :=
  match n with
  | 0 => status
  | S n' => advanceTimes n' (advance status)
  end.

Section Registered.
Context {Args ToolResult World : Type}.

(** The registries a program can build: the empty map, then calls of
    [registerTool]. *)
Inductive registered : ToolRegistry Args ToolResult World → Prop :=
  | registered_empty : registered JsMap.empty
  | registered_tool tools definition :
      registered tools → registered (registerTool tools definition).

End Registered.

(** The remote client of the examples: it is never reached in mock mode. *)
Definition offline (method : string) (params : list (string * JsVal))
    (w : World) : World * Exc ToolResult :=
  (w, Throw "offline").

(** A second definition under the name [view_cart]. *)
Definition view_cart_again : ToolDefinition Args ToolResult World :=
  {| name := "view_cart";
     description := "Another tool";
     inputSchema :=
       {| sch_type := "object"; sch_properties := []; sch_required := [] |};
     handler := λ args ctx w, (w, Return (ErrorResult "replaced")) |}.

(** A model that answers every message by asking for [view_cart], and
    whose answers hold no text. *)
Definition alwaysViewCart : GenerativeModel Args ToolResult :=
  λ _ _, Return {| functionCalls :=
                     Some [ {| fc_name := "view_cart"; fc_args := noArgs |} ];
                   text := Throw "no text" |}.

Definition world0 : World :=
  {| mockService := Inline.new_MockZomatoService;
     clock := λ n, (Z.of_nat n, "t");
     ticks := 0 |}.

Definition cartQuestion : ChatRequest :=
  {| req_message := Some "What is in my cart?"; req_sessionId := Some "s1" |}.

(** A history made of whole turns: the user's message, then the model's
    final text. *)
Fixpoint pairs (turns : list (string * string)) : list Content :=
  match turns with
  | [] => []
  | (message, finalResponse) :: rest =>
      {| role := user; parts_text := message |}
      :: {| role := model; parts_text := finalResponse |}
      :: pairs rest
  end.

(** The last [n] turns. *)
Definition lastTurns (n : nat) (turns : list (string * string))
    : list (string * string) :=
  drop (length turns - n) turns.

Definition maxTurns : nat := 20.

(** The history of a session id, empty when there is no such session. *)
Definition historyOf (sessions : gmap string Session) (sessionId : string)
    : list Content :=
  match sessions !! sessionId with
  | Some session => history session
  | None => []
  end.

(** The history after a sequence of completed turns. *)
Definition historyAfter (turns : list (string * string)) : list Content :=
  fold_left (λ h t, updateHistory h t.1 t.2) turns [].

Definition serverHistoryOf (sessions : gmap string ServerSession)
    (sessionId : string) : list Content :=
  match sessions !! sessionId with
  | Some session => ss_history session
  | None => []
  end.

Section Served.
Context {Args ToolResult World : Type}.

(** The session stores the server of gemini-food-ordering.js can hold:
    empty at start, then changed by the turns of [POST /chat]. *)
Inductive served : gmap string Session → Prop :=
  | served_start : served ∅
  | served_chat (tools : ToolRegistry Args ToolResult World) genAI fuel
      sessions w req now out :
      served sessions →
      chat tools genAI fuel sessions w req now = Some out →
      served (out_sessions out).

End Served.
Arguments served : clear implicits.

Section ServerVocabulary.
Context {Remote : Type}.
Variable callTool :
  string → list (string * JsVal) → Remote → Remote * Exc ToolResult.

(** The session stores of server.js: changed by [POST /chat] and by
    [DELETE /session/:sessionId]. *)
Inductive servedByServer : gmap string ServerSession → Prop :=
  | server_start : servedByServer ∅
  | server_turn genAI fuel sessions w req now out :
      servedByServer sessions →
      server_chat callTool genAI fuel sessions w req now = Some out →
      servedByServer (sout_sessions out)
  | server_delete sessions sessionId :
      servedByServer sessions →
      servedByServer (deleteSession sessions sessionId).

End ServerVocabulary.

(** ** Further vocabulary for the service *)

(** All the items of a menu, category after category. *)
Definition menuItems (categories : list Category) : list MenuItem :=
  concat (cat_items <$> categories).

(** The session whose cart a call can change. *)
Definition cartSession (c : Call) : option string :=
  match c with
  | CallAddToCart sessionId _ _ _ _ => Some sessionId
  | CallPlaceOrder sessionId _ _ _ _ => Some sessionId
  | _ => None
  end.

(** A [placeOrder] call whose clock reading gives the order id. *)
Definition placesUnder (orderId : string) (c : Call) : Prop :=
  match c with
  | CallPlaceOrder _ _ _ now _ => makeOrderId now = orderId
  | _ => False
  end.

(** The number of [trackOrder] calls on an order id in a sequence of calls. *)
Definition tracked (orderId : string) (cs : list Call) : nat :=
  length (List.filter (λ c, match c with
                            | CallTrackOrder o => String.eqb o orderId
                            | _ => false
                            end) cs).

(** The price ranges of the restaurant table. *)
Definition priceRanges : list string := ["budget"; "mid-range"; "premium"].

(** The two inherited property names that a normalised location can be:
    the other names hold an upper-case letter. *)
Definition inheritedLocations : list string := ["constructor"; "__proto__"].

(** The restaurants of the three regions of the table. *)
Definition allRestaurants : list Restaurant :=
  (generateMockRestaurants !!! "vadodara"
   ++ generateMockRestaurants !!! "mumbai"
   ++ generateMockRestaurants !!! "delhi")%list.

(** ** Further vocabulary for the tools *)

(** The names of the six default tools, in registration order. *)
Definition toolNames : list string :=
  ["search_restaurants"; "get_menu"; "add_to_cart"; "view_cart";
   "place_order"; "track_order"].

(** The session id of a turn of [POST /chat]: the one of the request, or
    one made from the clock. *)
Definition sessionIdOf (sessionId : option string) (now : Z) : string :=
  default ("session_" +:+ pretty now) sessionId.

Section TurnVocabulary.
Context {Args ToolResult World : Type}.

(** The world after running a list of calls in order, each on the world
    the one before left. *)
Definition replay
    (execute : string → Args → Context → World → World * Exc ToolResult)
    (context : Context) (w : World) (calls : list (FunctionCall Args))
    : World :=
  fold_left (λ w functionCall,
               (execute (fc_name functionCall) (fc_args functionCall)
                  context w).1) calls w.

(** A response cut down to its first function call. *)
Definition dropOtherCalls (r : Response Args) : Response Args :=
  {| functionCalls := take 1 <$> functionCalls r; text := text r |}.

(** A model whose every response is cut down to its first function call. *)
Definition firstCallOnly (genAI : GenerativeModel Args ToolResult)
    : GenerativeModel Args ToolResult :=
  λ h parts,
    match genAI h parts with
    | Return r => Return (dropOtherCalls r)
    | Throw message => Throw message
    end.

End TurnVocabulary.

(** A model that asks for two items of [item_001], then for the order to
    be placed, then answers in words. *)
Definition addThenOrder : GenerativeModel Args ToolResult :=
  λ _ parts,
    match length parts with
    | 1 =>
        Return {| functionCalls :=
                    Some [ {| fc_name := "add_to_cart";
                              fc_args :=
                                {| arg_location := None; arg_cuisine := None;
                                   arg_priceRange := None;
                                   arg_restaurantId := Some "rest_001";
                                   arg_itemId := Some "item_001";
                                   arg_quantity := Some (JS.num 2);
                                   arg_customizations := None;
                                   arg_deliveryAddress := None;
                                   arg_paymentMethod := None;
                                   arg_orderId := None |} |} ];
                  text := Throw "no text" |}
    | 2 =>
        Return {| functionCalls :=
                    Some [ {| fc_name := "place_order";
                              fc_args :=
                                {| arg_location := None; arg_cuisine := None;
                                   arg_priceRange := None;
                                   arg_restaurantId := None;
                                   arg_itemId := None;
                                   arg_quantity := None;
                                   arg_customizations := None;
                                   arg_deliveryAddress := Some "123 Main St";
                                   arg_paymentMethod := Some "card";
                                   arg_orderId := None |} |} ];
                  text := Throw "no text" |}
    | _ => Return {| functionCalls := None;
                     text := Return "Your order is placed." |}
    end.

(** A request to order, from session [s1]. *)
Definition orderRequest : ChatRequest :=
  {| req_message := Some "Two Sev Usal to 123 Main St, by card";
     req_sessionId := Some "s1" |}.

(** A model that asks for a tool that is not registered. *)
Definition askForRating : GenerativeModel Args ToolResult :=
  λ _ _, Return {| functionCalls :=
                     Some [ {| fc_name := "rate_restaurant";
                               fc_args := noArgs |} ];
                   text := Return "" |}.

(** ** Further vocabulary for server.js *)

(** What the [catch] of [handleFunctionCall] makes of the outcome of a
    remote call: a thrown error becomes the payload [{error, message}]. *)
Definition caught {Remote : Type} (outcome : Remote * Exc ToolResult)
    : Remote * ToolResult :=
  match outcome with
  | (w', Return result) => (w', result)
  | (w', Throw message) => (w', ErrorResult message)
  end.

(** A remote service that counts the calls it receives. *)
Definition countingRemote (toolName : string) (params : list (string * JsVal))
    (w : nat) : nat * Exc ToolResult :=
  (S w, Return (RemoteResult "{}")).

(** A request of user [u1] on session [s1]. *)
Definition cartRequest : ServerRequest :=
  {| sreq_message := Some "What is in my cart?";
     sreq_sessionId := Some "s1"; sreq_userId := Some "u1" |}.

(** The answer of [GET /session/:sessionId]: [messageCount] is
    [session.history.length / 2], a number that need not be whole;
    [createdAt] is read from [session.context], an object that is created
    empty and never written, so it is always undefined. *)
Record SessionReport := {
  sr_sessionId : string;
  sr_messageCount : QArith_base.Q;
  sr_createdAt : option Z;
  sr_userId : option string
}.

(** [GET /session/:sessionId]; no report is the 404 answer
    [Session not found]. *)
Definition getSession (sessions : gmap string ServerSession)
    (sessionId : string) : option SessionReport :=
  match sessions !! sessionId with
  | None => None
  | Some session =>
      Some {| sr_sessionId := sessionId;
              sr_messageCount :=
                QArith_base.Qmake (Z.of_nat (length (ss_history session))) 2;
              sr_createdAt := None;
              sr_userId := ss_userId session |}
  end.

(** A model that answers in words, without asking for a tool. *)
Definition plainAnswer : GenerativeModel Args ToolResult :=
  λ _ _, Return {| functionCalls := None; text := Return "Hello!" |}.

(** The sessions of server.js after one turn of [cartRequest]. *)
Definition afterOneTurn : gmap string ServerSession :=
  match server_chat countingRemote plainAnswer 11 ∅ 0 cartRequest 5 with
  | Some out => sout_sessions out
  | None => ∅
  end.


(** * Properties of the string primitives *)

Lemma app_String c (s t : string) : String c s +:+ t = String c (s +:+ t).
Proof. reflexivity. Qed.

Lemma prefix_spec (p s : string) :
  String.prefix p s = true ↔ ∃ rest, s = p +:+ rest.
Proof.
  revert s. induction p as [|c p IH]; intros s.
  - destruct s; simpl; split; eauto.
  - destruct s as [|d s]; simpl.
    + split; [done | intros [rest H]; discriminate].
    + destruct (Ascii.ascii_dec c d) as [->|Hne].
      * rewrite IH. split; intros [rest H]; exists rest;
          rewrite app_String in *; congruence.
      * split; [done | intros [rest H]; rewrite app_String in H; congruence].
Qed.

(** [includes] is the substring test. *)
Lemma includes_spec (s sub : string) :
  JS.includes s sub = true ↔ ∃ before after, s = before +:+ sub +:+ after.
Proof.
  induction s as [|c s IH].
  - change (JS.includes "" sub) with (String.prefix sub "" || false).
    rewrite orb_false_r, prefix_spec. split.
    + intros [rest H]. exists "", rest. done.
    + intros (before & after & H). destruct before; [by exists after|discriminate].
  - change (JS.includes (String c s) sub)
      with (String.prefix sub (String c s) || JS.includes s sub).
    rewrite orb_true_iff, prefix_spec, IH. split.
    + intros [[rest H] | (before & after & H)].
      * exists "", rest. done.
      * exists (String c before), after. rewrite app_String. by rewrite H.
    + intros (before & after & H). destruct before as [|d before].
      * left. by exists after.
      * right. exists before, after. rewrite app_String in H. congruence.
Qed.

Lemma includes_empty (s : string) : JS.includes s "" = true.
Proof. apply includes_spec. exists "", s. done. Qed.

Lemma truthy_Some (s : string) : JS.truthy (Some s) = true ↔ s ≠ "".
Proof.
  simpl. destruct (String.eqb_spec s ""); split; simpl; congruence.
Qed.

(** The normalised key has no upper-case letter and no whitespace. *)
Lemma stripWhitespace_no_space (s : string) c :
  c ∈ String.list_ascii_of_string (JS.stripWhitespace s) → JS.is_whitespace c = false.
Proof.
  induction s as [|d s IH]; simpl; [by intros ?%elem_of_nil|].
  destruct (JS.is_whitespace d) eqn:Hd; simpl; [done|].
  intros [->|?]%elem_of_cons; auto.
Qed.

(** * Properties of [List.filter] *)

Lemma filter_sublist {A} (f : A → bool) (l : list A) :
  sublist (List.filter f l) l.
Proof.
  induction l as [|x l IH]; simpl; [constructor|].
  destruct (f x); by constructor.
Qed.

Lemma filter_sublist_mono {A} (f : A → bool) (l1 l2 : list A) :
  sublist l1 l2 → sublist (List.filter f l1) (List.filter f l2).
Proof.
  induction 1 as [|x l1 l2 _ IH|x l1 l2 _ IH]; simpl.
  - constructor.
  - destruct (f x); [by constructor | done].
  - destruct (f x); [by constructor | done].
Qed.

Lemma filter_filter_and {A} (f g : A → bool) (l : list A) :
  List.filter g (List.filter f l) = List.filter (λ x, f x && g x) l.
Proof.
  induction l as [|x l IH]; simpl; [done|].
  destruct (f x); simpl; [destruct (g x)|]; by rewrite ?IH.
Qed.

Lemma filter_all {A} (f : A → bool) (l : list A) :
  (∀ x, f x = true) → List.filter f l = l.
Proof.
  intros Hf. induction l as [|x l IH]; simpl; [done|]. by rewrite Hf, IH.
Qed.

(** * searchRestaurants *)

Lemma filterByCuisine_filter cuisine rs :
  filterByCuisine cuisine rs = List.filter (keepCuisine cuisine) rs.
Proof.
  destruct cuisine as [c|]; simpl; [|by rewrite filter_all].
  destruct (String.eqb_spec c "") as [->|Hc]; simpl; [|done].
  rewrite filter_all; [done|]. intros r. apply includes_empty.
Qed.

Lemma filterByPriceRange_filter priceRange rs :
  filterByPriceRange priceRange rs = List.filter (keepPriceRange priceRange) rs.
Proof.
  destruct priceRange as [p|]; simpl; [|by rewrite filter_all].
  unfold keepPriceRange.
  destruct (String.eqb_spec p "") as [->|Hp]; simpl; [|done].
  by rewrite filter_all.
Qed.

Lemma keepCuisine_spec cuisine r :
  keepCuisine cuisine r = true ↔
  ∀ c, cuisine = Some c →
    ∃ before after,
      JS.toLowerCase (rest_cuisine r) = before +:+ JS.toLowerCase c +:+ after.
Proof.
  destruct cuisine as [c|]; simpl.
  - rewrite includes_spec. split.
    + intros H c' [= <-]. exact H.
    + intros H. by apply H.
  - split; [intros _ c [=] | done].
Qed.

Lemma keepPriceRange_spec priceRange r :
  keepPriceRange priceRange r = true ↔
  ∀ p, priceRange = Some p → p ≠ "" → rest_priceRange r = p.
Proof.
  destruct priceRange as [p|]; simpl.
  - rewrite orb_true_iff, !String.eqb_eq. split.
    + intros [->|H] p' [= <-] Hp; [done | exact H].
    + intros H. destruct (decide (p = "")) as [->|Hp]; [by left|].
      right. by apply H.
  - split; [intros _ p [=] | done].
Qed.

(** The lookups of an object literal. *)
Lemma JS_get_own {V} (table : gmap string V) key value :
  table !! key = Some value → JS.get table key = Some (JS.Own value).
Proof. intros H. unfold JS.get. by rewrite H. Qed.

Lemma JS_get_None {V} (table : gmap string V) key :
  JS.get table key = None ↔ table !! key = None ∧ JS.inherited key = false.
Proof.
  unfold JS.get. destruct (table !! key).
  - split; [done | by intros [? _]].
  - destruct (JS.inherited key); split; try done. by intros [_ ?].
Qed.

Lemma JS_get_inherited {V} (table : gmap string V) key inheritedKey :
  JS.get table key = Some (JS.Inherited inheritedKey) ↔
  table !! key = None ∧ JS.inherited key = true ∧ inheritedKey = key.
Proof.
  unfold JS.get. destruct (table !! key).
  - split; [done | by intros [? _]].
  - destruct (JS.inherited key); split.
    + by intros [= ->].
    + by intros (_ & _ & ->).
    + done.
    + by intros (_ & ? & _).
Qed.

Lemma inherited_spec key :
  JS.inherited key = true ↔ key ∈ JS.Object_prototype.*1.
Proof.
  unfold JS.inherited. rewrite existsb_exists. split.
  - intros (k & Hk & ->%String.eqb_eq). by apply list_elem_of_In.
  - intros Hk. exists key. split; [by apply list_elem_of_In|].
    apply String.eqb_refl.
Qed.

(** The normalisation of a location. *)
Lemma lower_char_idem c : JS.lower_char (JS.lower_char c) = JS.lower_char c.
Proof. by destruct c as [[] [] [] [] [] [] [] []]. Qed.

Lemma is_whitespace_lower_char c :
  JS.is_whitespace (JS.lower_char c) = JS.is_whitespace c.
Proof. by destruct c as [[] [] [] [] [] [] [] []]. Qed.

Lemma toLowerCase_idem s : JS.toLowerCase (JS.toLowerCase s) = JS.toLowerCase s.
Proof.
  induction s as [|c s IH]; simpl; [done|]. by rewrite lower_char_idem, IH.
Qed.

Lemma stripWhitespace_toLowerCase s :
  JS.stripWhitespace (JS.toLowerCase s) = JS.toLowerCase (JS.stripWhitespace s).
Proof.
  induction s as [|c s IH]; simpl; [done|].
  rewrite is_whitespace_lower_char.
  destruct (JS.is_whitespace c); simpl; by rewrite IH.
Qed.

Lemma stripWhitespace_idem s :
  JS.stripWhitespace (JS.stripWhitespace s) = JS.stripWhitespace s.
Proof.
  induction s as [|c s IH]; simpl; [done|].
  destruct (JS.is_whitespace c) eqn:Hc; simpl; [done|]. by rewrite Hc, IH.
Qed.

(** A normalised location that names an inherited property is
    [constructor] or [__proto__]: the other names hold an upper-case
    letter. *)
Lemma inherited_location location :
  let key := JS.stripWhitespace (JS.toLowerCase location) in
  JS.inherited key = true ↔ key ∈ inheritedLocations.
Proof.
  intros key.
  assert (Hlower : JS.toLowerCase key = key).
  { unfold key. by rewrite stripWhitespace_toLowerCase, toLowerCase_idem. }
  rewrite inherited_spec. revert Hlower. generalize key. clear.
  intros key Hlower. unfold inheritedLocations. simpl.
  rewrite !elem_of_cons, !elem_of_nil. split.
  - intros H. repeat (destruct H as [->|H]; [first [by auto | discriminate]|]).
    done.
  - intros [->|[->|[]]]; auto 20.
Qed.

(** No call writes [this.restaurants]. *)
Lemma reachable_restaurants this :
  reachable this → restaurants this = generateMockRestaurants.
Proof.
  induction 1 as [|this c _ IH]; [done|].
  destruct c as [| |s r i q cu| |s a p now iso|o]; simpl; try done.
  - unfold addToCart.
    destruct (JS.get getMenus r) as [[menu|k]|]; [|done..].
    by destruct (findItem (menu_categories menu) i).
  - unfold placeOrder. destruct (carts this !! s) as [cart|]; [|done].
    by destruct (length (cart_items cart) =? 0)%nat.
  - unfold trackOrder. by destruct (orders this !! o).
Qed.

(** The region of a location on a reachable service. *)
Lemma restaurantsAt_reachable this key :
  reachable this →
  restaurantsAt this key
  = match generateMockRestaurants !! key with
    | Some rs => Some (JS.Own rs)
    | None =>
        if JS.inherited key then Some (JS.Inherited key)
        else Some (JS.Own (generateMockRestaurants !!! "vadodara"))
    end.
Proof.
  intros Htable%reachable_restaurants. unfold restaurantsAt, JS.get.
  rewrite Htable. destruct (generateMockRestaurants !! key); [done|].
  by destruct (JS.inherited key).
Qed.

Lemma found_searchRestaurants this location cuisine priceRange :
  found (searchRestaurants this location cuisine priceRange) =
  match restaurantsAt this (JS.stripWhitespace (JS.toLowerCase location)) with
  | Some (JS.Own rs) =>
      List.filter (λ r, keepCuisine cuisine r && keepPriceRange priceRange r) rs
  | _ => []
  end.
Proof.
  unfold searchRestaurants.
  destruct (restaurantsAt this _) as [[rs|key]|]; simpl.
  - by rewrite filterByCuisine_filter, filterByPriceRange_filter,
      filter_filter_and.
  - by destruct (JS.truthy cuisine || JS.truthy priceRange).
  - by destruct (JS.truthy cuisine || JS.truthy priceRange).
Qed.

Lemma searchRestaurants_listed this location cuisine priceRange rs :
  restaurantsAt this (JS.stripWhitespace (JS.toLowerCase location))
  = Some (JS.Own rs) →
  let result :=
    List.filter (λ r, keepCuisine cuisine r && keepPriceRange priceRange r) rs in
  searchRestaurants this location cuisine priceRange
  = Success {| sp_location := location; sp_count := Some (length result);
               sp_restaurants := JS.Own result |}.
Proof.
  intros Hregion. unfold searchRestaurants. rewrite Hregion. simpl.
  by rewrite filterByCuisine_filter, filterByPriceRange_filter,
    filter_filter_and.
Qed.

(** C5.  [searchRestaurants] looks the normalised location up with
    [this.restaurants[locationKey]], which also finds the properties that
    the table inherits.  For a location that is [constructor] or
    [__proto__] after lower-casing and removal of whitespace, the search
    does not fall back to Vadodara: with a filter it throws a [TypeError],
    and without one it answers with a value that is no list of
    restaurants.  For every other ASCII location the search answers as
    the specification says: with the restaurants of the list stored under
    the normalised location, or of the [vadodara] list when there is no
    such key, kept in source order and filtered by the conjunction of the
    two filters, each of which only narrows. *)
Theorem searchRestaurants_inherited_location :
  searchRestaurants new_MockZomatoService "Constructor" (Some "Italian") None
  = Thrown "restaurants.filter is not a function" ∧
  searchRestaurants new_MockZomatoService "constructor" None (Some "budget")
  = Thrown "restaurants.filter is not a function" ∧
  searchRestaurants new_MockZomatoService " __proto__ " None None
  = Success {| sp_location := " __proto__ "; sp_count := None;
               sp_restaurants := JS.Inherited "__proto__" |} ∧
  searchRestaurants new_MockZomatoService "constructor" None None
  = Success {| sp_location := "constructor"; sp_count := Some 1%nat;
               sp_restaurants := JS.Inherited "constructor" |} ∧
  rest_id <$> found (searchRestaurants new_MockZomatoService "Pune"
                       (Some "GUJARATI") None)
  = ["rest_001"; "rest_002"] ∧
  rest_id <$> found (searchRestaurants new_MockZomatoService " Mum bai "
                       (Some "ITAL") None)
  = ["rest_101"; "rest_102"] ∧
  (∀ this location cuisine priceRange,
     reachable this →
     let key := JS.stripWhitespace (JS.toLowerCase location) in
     key ∈ inheritedLocations →
     searchRestaurants this location cuisine priceRange
     = if JS.truthy cuisine || JS.truthy priceRange
       then Thrown (NotAFunctionError "restaurants")
       else Success {| sp_location := location; sp_count := JS.lengthOf key;
                       sp_restaurants := JS.Inherited key |}) ∧
  (∀ this location cuisine priceRange,
     reachable this →
     JS.isAscii location = true →
     (∀ c, cuisine = Some c → JS.isAscii c = true) →
     let key := JS.stripWhitespace (JS.toLowerCase location) in
     key ∉ inheritedLocations →
     let region :=
       match generateMockRestaurants !! key with
       | Some rs => rs
       | None => generateMockRestaurants !!! "vadodara"
       end in
     let result := found (searchRestaurants this location cuisine priceRange) in
     searchRestaurants this location cuisine priceRange
     = Success {| sp_location := location; sp_count := Some (length result);
                  sp_restaurants := JS.Own result |} ∧
     (∃ keep : Restaurant → bool,
        result = List.filter keep region ∧
        ∀ r, keep r = true ↔
          (∀ c, cuisine = Some c →
             ∃ before after,
               JS.toLowerCase (rest_cuisine r)
               = before +:+ JS.toLowerCase c +:+ after) ∧
          (∀ p, priceRange = Some p → p ≠ "" → rest_priceRange r = p)) ∧
     sublist result region ∧
     found (searchRestaurants this location None None) = region ∧
     sublist result (found (searchRestaurants this location None priceRange)) ∧
     sublist result (found (searchRestaurants this location cuisine None)) ∧
     sublist (found (searchRestaurants this location None priceRange)) region ∧
     sublist (found (searchRestaurants this location cuisine None)) region).
Proof.
  split_and!; try reflexivity.
  - intros this location cuisine priceRange Hreach key Hkey.
    unfold searchRestaurants. fold key.
    rewrite (restaurantsAt_reachable _ _ Hreach).
    assert (generateMockRestaurants !! key = None) as ->.
    { unfold inheritedLocations in Hkey.
      rewrite !elem_of_cons, elem_of_nil in Hkey.
      by destruct Hkey as [->|[->|[]]]. }
    apply inherited_location in Hkey. fold key in Hkey. by rewrite Hkey.
  - intros this location cuisine priceRange Hreach _ _ key Hkey region result.
    assert (Hregion : restaurantsAt this key = Some (JS.Own region)).
    { rewrite (restaurantsAt_reachable _ _ Hreach). unfold region.
      destruct (generateMockRestaurants !! key); [done|].
      destruct (JS.inherited key) eqn:Hinherited; [|done].
      by apply inherited_location in Hinherited. }
    assert (Hfound : ∀ c p,
      found (searchRestaurants this location c p)
      = List.filter (λ r, keepCuisine c r && keepPriceRange p r) region).
    { intros c p. rewrite found_searchRestaurants. fold key.
      by rewrite Hregion. }
    assert (Hresult : result
      = List.filter (λ r, keepCuisine cuisine r && keepPriceRange priceRange r)
          region) by apply Hfound.
    split.
    { rewrite Hresult. by apply searchRestaurants_listed. }
    split.
    { eexists. split; [exact Hresult|]. intros r.
      by rewrite andb_true_iff, keepCuisine_spec, keepPriceRange_spec. }
    split; [rewrite Hresult; apply filter_sublist|].
    split; [rewrite Hfound; by apply filter_all|].
    rewrite Hresult, !Hfound.
    repeat split.
    + rewrite <-!filter_filter_and. simpl.
      rewrite (filter_all (λ _, true)) by done.
      apply filter_sublist_mono, filter_sublist.
    + rewrite <-!filter_filter_and.
      rewrite (filter_all (keepPriceRange None)) by done. apply filter_sublist.
    + apply filter_sublist.
    + apply filter_sublist.
Qed.

(** Three searches on a new service: a location in another spelling with
    a cuisine in upper case; an unknown location, which falls back to
    Vadodara, with a price range; and an empty price range, which filters
    nothing. *)
Example search_mumbai_italian :
  rest_id <$> found (searchRestaurants new_MockZomatoService " Mum bai "
                       (Some "ITAL") None)
  = ["rest_101"; "rest_102"].
Proof. reflexivity. Qed.

Example search_unknown_budget :
  rest_id <$> found (searchRestaurants new_MockZomatoService "Pune" None
                       (Some "budget"))
  = ["rest_001"; "rest_003"].
Proof. reflexivity. Qed.

Example search_empty_priceRange :
  rest_id <$> found (searchRestaurants new_MockZomatoService "Vadodara"
                       (Some "north") (Some ""))
  = ["rest_002"; "rest_003"; "rest_004"].
Proof. reflexivity. Qed.

(** * Carts and orders *)

(** The total after one more line: the code's [reduce] adds the
    subtotals from the left. *)
Lemma sumSubtotals_snoc items line :
  sumSubtotals (items ++ [line])
  = JS.add (sumSubtotals items) (ci_subtotal line).
Proof. unfold sumSubtotals. by rewrite fold_left_app. Qed.

(** The loop over the categories with its [break] finds what one [find]
    over all the items of the menu finds: the first item, in menu order,
    with the wanted id. *)
Lemma findItem_menuItems categories itemId :
  findItem categories itemId
  = List.find (λ i, String.eqb (mi_id i) itemId) (menuItems categories).
Proof.
  unfold menuItems. induction categories as [|category rest IH]; simpl; [done|].
  rewrite IH. generalize (cat_items category). intros items.
  induction items as [|item items IHitems]; simpl; [done|].
  by destruct (String.eqb (mi_id item) itemId).
Qed.

Lemma elem_of_menuItems categories item :
  item ∈ menuItems categories
  ↔ ∃ category, category ∈ categories ∧ item ∈ cat_items category.
Proof.
  unfold menuItems. induction categories as [|category rest IH]; simpl.
  - rewrite elem_of_nil. split; [done|]. intros (? & Hin & _).
    by apply elem_of_nil in Hin.
  - rewrite elem_of_app, IH. split.
    + intros [Hhere|(c & Hc & Hitem)].
      * exists category. split; [left | done].
      * exists c. split; [by right | done].
    + intros (c & Hc & Hitem). apply elem_of_cons in Hc as [->|Hc]; [by left|].
      right. by exists c.
Qed.

Lemma findItem_Some categories itemId item :
  findItem categories itemId = Some item →
  mi_id item = itemId ∧ item ∈ menuItems categories.
Proof.
  rewrite findItem_menuItems. intros [Hin Hid]%List.find_some.
  split; [by apply String.eqb_eq | by apply list_elem_of_In].
Qed.

Lemma findItem_None categories itemId :
  findItem categories itemId = None ↔
  ∀ item, item ∈ menuItems categories → mi_id item ≠ itemId.
Proof.
  rewrite findItem_menuItems. split.
  - intros Hnone item Hin%list_elem_of_In Hid.
    pose proof (List.find_none _ _ Hnone item Hin) as Hneq.
    simpl in Hneq. by rewrite Hid, String.eqb_refl in Hneq.
  - intros Hall. destruct (List.find _ _) as [item|] eqn:Hfind; [|done].
    apply List.find_some in Hfind as [Hin Hid%String.eqb_eq].
    destruct (Hall item); [by apply list_elem_of_In | done].
Qed.

(** On the menus of the table an item id names one item: the lookup of
    the id of an item of a menu finds that item. *)
Lemma findItem_table restaurantId menu item :
  getMenus !! restaurantId = Some menu →
  item ∈ menuItems (menu_categories menu) →
  findItem (menu_categories menu) (mi_id item) = Some item.
Proof.
  intros Hmenu. unfold getMenus in Hmenu. apply elem_of_list_to_map_2 in Hmenu.
  rewrite !elem_of_cons, elem_of_nil in Hmenu.
  destruct Hmenu as [[= -> ->]|[[= -> ->]|[[= -> ->]|[[= -> ->]|[]]]]];
    unfold menuItems; simpl; rewrite !elem_of_cons, elem_of_nil;
    intros Hitem;
    repeat (destruct Hitem as [->|Hitem]; [reflexivity|]); done.
Qed.

Lemma lineFor_ok itemId item quantity customizations :
  lineOk (lineFor itemId item quantity customizations).
Proof. done. Qed.

(** [addToCart] by cases on the two lookups. *)
Lemma addToCart_cases this sessionId restaurantId itemId quantity customizations :
  let cart := default (emptyCart restaurantId) (carts this !! sessionId) in
  let touched cart :=
    {| restaurants := restaurants this;
       carts := <[sessionId := cart]> (carts this);
       orders := orders this |} in
  addToCart this sessionId restaurantId itemId quantity customizations =
  match JS.get getMenus restaurantId with
  | None => (touched cart, Failure RestaurantNotFoundError)
  | Some (JS.Inherited _) => (touched cart, Thrown NotIterableError)
  | Some (JS.Own menu) =>
      match findItem (menu_categories menu) itemId with
      | None => (touched cart, Failure ItemNotFoundError)
      | Some item =>
          let items :=
            (cart_items cart ++ [lineFor itemId item quantity customizations])%list in
          let cart' :=
            {| cart_restaurantId := cart_restaurantId cart;
               cart_items := items;
               cart_total := sumSubtotals items |} in
          (touched cart',
           Success {| atc_message := addedMessage quantity (mi_name item);
                      atc_cart := cart' |})
      end
  end.
Proof.
  intros cart touched. unfold addToCart.
  assert (Hcarts : match carts this !! sessionId with
                   | Some _ => carts this
                   | None => <[sessionId := emptyCart restaurantId]> (carts this)
                   end = <[sessionId := cart]> (carts this)).
  { subst cart. destruct (carts this !! sessionId) as [c|] eqn:Hc; simpl; [|done].
    by rewrite insert_id. }
  rewrite Hcarts. fold cart.
  destruct (JS.get getMenus restaurantId) as [[menu|key]|]; [|done..].
  destruct (findItem (menu_categories menu) itemId) as [item|]; [|done].
  simpl. by rewrite insert_insert_eq.
Qed.

Lemma emptyCart_ok restaurantId : cartOk (emptyCart restaurantId).
Proof. split; [constructor | done]. Qed.

Lemma advance_cases status :
  status ∈ statuses →
  (status = "confirmed" ∧ advance status = "preparing") ∨
  (status = "preparing" ∧ advance status = "out_for_delivery") ∨
  (status = "out_for_delivery" ∧ advance status = "delivered") ∨
  (status = "delivered" ∧ advance status = "delivered").
Proof.
  unfold statuses. rewrite !elem_of_cons, elem_of_nil.
  intros [->|[->|[->|[->|[]]]]]; auto 10.
Qed.

Lemma advance_in_statuses status :
  status ∈ statuses → advance status ∈ statuses.
Proof.
  intros H. destruct (advance_cases status H) as [[_ E]|[[_ E]|[[_ E]|[_ E]]]];
    rewrite E; unfold statuses; rewrite !elem_of_cons; auto 10.
Qed.

(** Every reachable service object is well formed: the restaurant table
    is the constructor's, every cart line's subtotal is the product that
    the code computed from its price and quantity, every total is what the
    code's [reduce] gives on the lines, every stored order is filed under
    its own id with a status of the fixed sequence. *)
Lemma after_ok this c : serviceOk this → serviceOk (after this c).
Proof.
  intros Hok.
  destruct c as [| |s r i q cu| |s a p now iso|o]; try exact Hok;
    destruct Hok as (Hrest & Hcarts & Horders); unfold after.
  - (* addToCart *)
    rewrite addToCart_cases.
    assert (Hcart : cartOk (default (emptyCart r) (carts this !! s))).
    { destruct (carts this !! s) as [c|] eqn:Hc; simpl;
        [by eapply Hcarts | apply emptyCart_ok]. }
    destruct (JS.get getMenus r) as [[menu|key]|]; simpl.
    2,3:(split_and!; [done | by apply map_Forall_insert_2 | done]).
    destruct (findItem (menu_categories menu) i) as [item|]; simpl.
    2:{ split_and!; [done | by apply map_Forall_insert_2 | done]. }
    split_and!; [done | | done]. apply map_Forall_insert_2; [|done].
    destruct Hcart as [Hlines Htotal].
    split; simpl; [|done].
    apply Forall_app. split; [done|]. repeat constructor.
  - (* placeOrder *)
    unfold placeOrder.
    destruct (carts this !! s) as [cart|] eqn:Hc; simpl; [|done].
    destruct (Nat.eqb_spec (length (cart_items cart)) 0) as [|Hlen]; simpl; [done|].
    destruct (Hcarts s cart Hc) as [Hlines Htotal].
    split_and!; [done | by apply map_Forall_delete |].
    apply map_Forall_insert_2; [|done].
    split_and!; simpl; try done.
    + unfold statuses. rewrite !elem_of_cons. auto.
    + by destruct (cart_items cart).
  - (* trackOrder *)
    unfold trackOrder.
    destruct (orders this !! o) as [order|] eqn:Ho; simpl; [|done].
    destruct (Horders o order Ho) as (Hid & Hst & Hne & Hlines & Htotal).
    split_and!; [done | done |].
    apply map_Forall_insert_2; [|done].
    split_and!; simpl; try done. by apply advance_in_statuses.
Qed.

Lemma new_ok : serviceOk new_MockZomatoService.
Proof.
  split_and!; [done | apply map_Forall_empty | apply map_Forall_empty].
Qed.

Lemma reachable_ok this : reachable this → serviceOk this.
Proof. induction 1; [apply new_ok | by apply after_ok]. Qed.

(** The fallback list is always there: [this.restaurants.vadodara] is
    never undefined. *)
Lemma reachable_fallback this :
  reachable this → is_Some (restaurants this !! "vadodara").
Proof.
  intros H. destruct (reachable_ok this H) as (Hrest & _). rewrite Hrest.
  by eexists.
Qed.

Lemma reachable_after_all this cs :
  reachable this → reachable (after_all this cs).
Proof.
  revert this. induction cs as [|c cs IH]; intros this H; simpl; [done|].
  apply IH. by constructor.
Qed.

(** ** addToCart *)

Lemma linesOf_default this sessionId restaurantId :
  cart_items (default (emptyCart restaurantId) (carts this !! sessionId))
  = linesOf this sessionId.
Proof. unfold linesOf. by destruct (carts this !! sessionId). Qed.

(** A successful [addToCart]: the state and the answer. *)
Lemma addToCart_found this sessionId restaurantId itemId quantity
    customizations menu item :
  getMenus !! restaurantId = Some menu →
  findItem (menu_categories menu) itemId = Some item →
  let cart := default (emptyCart restaurantId) (carts this !! sessionId) in
  let items :=
    (linesOf this sessionId ++ [lineFor itemId item quantity customizations])%list in
  let cart' :=
    {| cart_restaurantId := cart_restaurantId cart;
       cart_items := items;
       cart_total := sumSubtotals items |} in
  addToCart this sessionId restaurantId itemId quantity customizations
  = ({| restaurants := restaurants this;
        carts := <[sessionId := cart']> (carts this);
        orders := orders this |},
     Success {| atc_message := addedMessage quantity (mi_name item);
                atc_cart := cart' |}).
Proof.
  intros Hmenu Hitem. simpl.
  rewrite addToCart_cases, (JS_get_own _ _ _ Hmenu), Hitem. simpl.
  by rewrite linesOf_default.
Qed.

(** After any [addToCart] call the session has a cart. *)
Lemma addToCart_cart_exists this sessionId restaurantId itemId quantity
    customizations :
  is_Some (carts (addToCart this sessionId restaurantId itemId quantity
                    customizations).1 !! sessionId).
Proof.
  rewrite addToCart_cases.
  destruct (JS.get getMenus restaurantId) as [[menu|key]|]; simpl;
    [destruct (findItem (menu_categories menu) itemId); simpl| |];
    rewrite lookup_insert_eq; eauto.
Qed.

(** C4, as amended.  [addToCart] is not idempotent and its totals are
    sums of doubles.  On a reachable service, after any [addToCart] call
    the total of the session's cart is what the code's [reduce] gives: the
    sum, from 0 and in line order, of the subtotals of the lines, each of
    which is the product of its price and quantity, all in double
    precision.  Two calls with the same arguments naming an item of a menu
    of the table append two lines, one after the other, with no merge by
    item id, and the total grows by the product, twice. *)
Theorem addToCart_twice_two_lines (this : MockZomatoService)
    (sessionId : string) :
  reachable this →
  (∀ restaurantId itemId quantity customizations,
     ∃ cart,
       carts (addToCart this sessionId restaurantId itemId quantity
                customizations).1 !! sessionId = Some cart ∧
       cart_total cart = sumSubtotals (cart_items cart) ∧
       Forall (λ line,
                 ci_subtotal line = JS.mul (ci_price line) (ci_quantity line))
         (cart_items cart)) ∧
  (∀ restaurantId menu item quantity customizations,
     getMenus !! restaurantId = Some menu →
     item ∈ menuItems (menu_categories menu) →
     let itemId := mi_id item in
     let line := lineFor itemId item quantity customizations in
     let once :=
       addToCart this sessionId restaurantId itemId quantity customizations in
     let twice :=
       addToCart once.1 sessionId restaurantId itemId quantity customizations in
     ∃ cart1 cart2 message,
       once.2 = Success {| atc_message := message; atc_cart := cart1 |} ∧
       twice.2 = Success {| atc_message := message; atc_cart := cart2 |} ∧
       carts once.1 !! sessionId = Some cart1 ∧
       carts twice.1 !! sessionId = Some cart2 ∧
       cart_items cart1 = (linesOf this sessionId ++ [line])%list ∧
       cart_items cart2 = (linesOf this sessionId ++ [line; line])%list ∧
       cart_total cart1
       = JS.add (sumSubtotals (linesOf this sessionId))
           (JS.mul (mi_price item) quantity) ∧
       cart_total cart2
       = JS.add (JS.add (sumSubtotals (linesOf this sessionId))
                   (JS.mul (mi_price item) quantity))
           (JS.mul (mi_price item) quantity)).
Proof.
  intros Hreach. split.
  - intros restaurantId itemId quantity customizations.
    destruct (addToCart_cart_exists this sessionId restaurantId itemId quantity
                customizations) as [cart Hcart].
    exists cart. split; [done|].
    assert (Hok : serviceOk
      (after this (CallAddToCart sessionId restaurantId itemId quantity
                     customizations))).
    { apply reachable_ok. by constructor. }
    destruct Hok as (_ & Hcarts & _).
    destruct (Hcarts _ _ Hcart) as [Hlines Htotal]. done.
  - intros restaurantId menu item quantity customizations Hmenu Hin
      itemId line once twice.
    pose proof (findItem_table _ _ _ Hmenu Hin) as Hitem. fold itemId in Hitem.
    pose proof (addToCart_found this sessionId restaurantId itemId quantity
                  customizations menu item Hmenu Hitem) as H1.
    simpl in H1. fold line in H1.
    assert (Hlines1 : linesOf once.1 sessionId
                      = (linesOf this sessionId ++ [line])%list).
    { subst once. rewrite H1. unfold linesOf at 1. simpl.
      by rewrite lookup_insert_eq. }
    pose proof (addToCart_found once.1 sessionId restaurantId itemId quantity
                  customizations menu item Hmenu Hitem) as H2.
    simpl in H2. fold line twice in H2. rewrite Hlines1 in H2.
    eexists _, _, _. fold once in H1. rewrite H1, H2. cbn [fst snd carts].
    rewrite !lookup_insert_eq.
    split_and!; [reflexivity.. | | |]; cbn [cart_items cart_total].
    + by rewrite <-app_assoc.
    + by rewrite sumSubtotals_snoc.
    + by rewrite !sumSubtotals_snoc.
Qed.

(** The worked example of C4: item_001 (price 80), quantity 2, added twice
    to a new session gives two lines and the total 320, which here is the
    exact sum. *)
Lemma addToCart_twice_two_lines_witness :
  let add := CallAddToCart "s1" "rest_001" "item_001" (JS.num 2) None in
  ∃ cart,
    carts (after_all new_MockZomatoService [add; add]) !! "s1" = Some cart ∧
    length (cart_items cart) = 2 ∧
    (ci_itemId <$> cart_items cart) = ["item_001"; "item_001"] ∧
    cart_total cart = JS.num 320 ∧
    exactTotal (cart_items cart) = Some 320%Z.
Proof.
  intros add.
  destruct (addToCart_twice_two_lines new_MockZomatoService "s1" reachable_new)
    as [_ H].
  destruct (H "rest_001" _ (mkItem "item_001" "Sev Usal"
              "Traditional Gujarati breakfast with crispy sev and spicy usal"
              80 true 46) (JS.num 2) None eq_refl)
    as (cart1 & cart2 & message & _ & _ & _ & Hcart & _ & Hitems & _ & Htotal).
  { unfold menuItems. simpl. left. }
  exists cart2. split; [exact Hcart|]. rewrite Hitems, Htotal.
  split_and!; [reflexivity | reflexivity | by vm_compute | by vm_compute].
Defined.

(** C4, on the code: the total is not the exact sum for every quantity.
    With the quantity 2^53 - 1 the product 80 × quantity is rounded to a
    multiple of 128, and the cart's total is 720575940379279232, where the
    exact product is 720575940379279280. *)
Lemma addToCart_total_is_rounded :
  let quantity := JS.num (2 ^ 53 - 1) in
  let call :=
    addToCart new_MockZomatoService "s1" "rest_001" "item_001" quantity None in
  JS.exactZ quantity = Some 9007199254740991%Z ∧
  is_success call.2 = true ∧
  (ci_quantity <$> linesOf call.1 "s1") = [quantity] ∧
  (JS.exactZ ∘ ci_price <$> linesOf call.1 "s1") = [Some 80%Z] ∧
  exactTotal (linesOf call.1 "s1") = Some 720575940379279280%Z ∧
  (JS.exactZ ∘ cart_total <$> carts call.1 !! "s1")
  = Some (Some 720575940379279232%Z).
Proof. vm_compute. split_and!; reflexivity. Qed.

(** [addToCart] answers with a failure exactly when one of its two lookups
    misses, and throws exactly when the restaurant id names an inherited
    property. *)
Lemma addToCart_failure this sessionId restaurantId itemId quantity
    customizations error :
  (addToCart this sessionId restaurantId itemId quantity customizations).2
  = Failure error ↔
  (error = RestaurantNotFoundError ∧ JS.get getMenus restaurantId = None) ∨
  (error = ItemNotFoundError ∧
   ∃ menu, getMenus !! restaurantId = Some menu ∧
           findItem (menu_categories menu) itemId = None).
Proof.
  rewrite addToCart_cases. unfold JS.get.
  destruct (getMenus !! restaurantId) as [menu|]; simpl.
  - destruct (findItem (menu_categories menu) itemId) as [item|] eqn:Hitem; simpl.
    + split; [done|]. intros [[_ [=]]|(_ & menu' & [= <-] & H)]. congruence.
    + split.
      * intros [= <-]. right. eauto.
      * intros [[_ [=]]|(-> & _)]. done.
  - destruct (JS.inherited restaurantId); simpl.
    + split; [done|]. intros [[_ [=]]|(_ & menu & [=] & _)].
    + split.
      * intros [= <-]. by left.
      * intros [[-> _]|(_ & menu & [=] & _)]. done.
Qed.

Lemma addToCart_thrown this sessionId restaurantId itemId quantity
    customizations message :
  (addToCart this sessionId restaurantId itemId quantity customizations).2
  = Thrown message ↔
  message = NotIterableError ∧ getMenus !! restaurantId = None ∧
  JS.inherited restaurantId = true.
Proof.
  rewrite addToCart_cases. unfold JS.get.
  destruct (getMenus !! restaurantId) as [menu|]; simpl.
  - destruct (findItem (menu_categories menu) itemId); simpl;
      (split; [done | by intros (_ & ? & _)]).
  - destruct (JS.inherited restaurantId); simpl.
    + split; [by intros [= <-] | by intros (-> & _)].
    + split; [done | by intros (_ & _ & ?)].
Qed.




(** A cart survives, with its restaurant, every call that is not a
    [placeOrder]; its lines are only ever extended. *)
Lemma binding_stable_step this c sessionId cart :
  keepsCarts c →
  carts this !! sessionId = Some cart →
  ∃ cart', carts (after this c) !! sessionId = Some cart' ∧
           cart_restaurantId cart' = cart_restaurantId cart ∧
           cart_items cart `prefix_of` cart_items cart'.
Proof.
  intros Hc Hcart.
  destruct c as [| |s r i q cu| |s a p now iso|o]; simpl; try done;
    try (by exists cart).
  - rewrite addToCart_cases.
    destruct (decide (s = sessionId)) as [->|Hne].
    + rewrite Hcart. simpl.
      destruct (JS.get getMenus r) as [[menu|key]|]; simpl;
        [destruct (findItem (menu_categories menu) i); simpl| |];
        rewrite lookup_insert_eq; eexists; (split; [done|]); simpl;
        (split; [done|]); try done. by apply prefix_app_r.
    + destruct (JS.get getMenus r) as [[menu|key]|]; simpl;
        [destruct (findItem (menu_categories menu) i); simpl| |];
        rewrite lookup_insert_ne by done; by exists cart.
  - unfold trackOrder. destruct (orders this !! o); simpl; by exists cart.
Qed.

Lemma binding_stable this cs sessionId cart :
  Forall keepsCarts cs →
  carts this !! sessionId = Some cart →
  ∃ cart', carts (after_all this cs) !! sessionId = Some cart' ∧
           cart_restaurantId cart' = cart_restaurantId cart ∧
           cart_items cart `prefix_of` cart_items cart'.
Proof.
  intros Hcs. revert this cart.
  induction Hcs as [|c cs Hc _ IH]; intros this cart Hcart; simpl.
  - by exists cart.
  - destruct (binding_stable_step this c sessionId cart Hc Hcart)
      as (cart1 & H1 & Hr1 & Hp1).
    destruct (IH _ _ H1) as (cart2 & H2 & Hr2 & Hp2).
    exists cart2. split; [done|]. split; [congruence|]. by etrans.
Qed.

(** C10. The cart is bound to a restaurant once.  On a session without a
    cart, [addToCart] first stores an empty cart bound to the call's
    [restaurantId], and that cart stays when the call then fails on the
    restaurant or the item, or throws on a restaurant id that names an
    inherited property.  On a session with a cart, no call other than
    [placeOrder] changes the cart's [restaurantId]; an [addToCart] naming
    another restaurant is neither rejected nor rebinds the cart: when the
    item exists there it is appended to the same cart. *)
Theorem addToCart_binds_once (this : MockZomatoService) (sessionId : string) :
  (∀ restaurantId itemId quantity customizations,
     carts this !! sessionId = None →
     let call :=
       addToCart this sessionId restaurantId itemId quantity customizations in
     ∃ cart,
       carts call.1 !! sessionId = Some cart ∧
       cart_restaurantId cart = restaurantId ∧
       (∀ error, call.2 = Failure error →
          carts call.1 = <[sessionId := emptyCart restaurantId]> (carts this)) ∧
       (∀ message, call.2 = Thrown message →
          carts call.1 = <[sessionId := emptyCart restaurantId]> (carts this))) ∧
  (∀ cart cs,
     carts this !! sessionId = Some cart →
     Forall keepsCarts cs →
     ∃ cart',
       carts (after_all this cs) !! sessionId = Some cart' ∧
       cart_restaurantId cart' = cart_restaurantId cart ∧
       cart_items cart `prefix_of` cart_items cart') ∧
  (∀ cart restaurantId itemId quantity customizations menu item,
     carts this !! sessionId = Some cart →
     getMenus !! restaurantId = Some menu →
     findItem (menu_categories menu) itemId = Some item →
     let call :=
       addToCart this sessionId restaurantId itemId quantity customizations in
     is_success call.2 = true ∧
     carts call.1 !! sessionId
     = Some {| cart_restaurantId := cart_restaurantId cart;
               cart_items :=
                 (cart_items cart
                    ++ [lineFor itemId item quantity customizations])%list;
               cart_total :=
                 sumSubtotals
                   (cart_items cart
                      ++ [lineFor itemId item quantity customizations]) |}) ∧
  (∀ sessionId' restaurantId itemId quantity customizations,
     sessionId' ≠ sessionId →
     let call :=
       addToCart this sessionId restaurantId itemId quantity customizations in
     carts call.1 !! sessionId' = carts this !! sessionId' ∧
     orders call.1 = orders this).
Proof.
  split_and!.
  - intros restaurantId itemId quantity customizations Hnone call.
    subst call. rewrite addToCart_cases, Hnone. simpl.
    destruct (JS.get getMenus restaurantId) as [[menu|key]|]; simpl;
      [destruct (findItem (menu_categories menu) itemId); simpl| |];
      rewrite lookup_insert_eq; eexists; (split; [done|]); split_and!; done.
  - intros cart cs Hcart Hcs. by apply binding_stable.
  - intros cart restaurantId itemId quantity customizations menu item
      Hcart Hmenu Hitem call. subst call.
    rewrite (addToCart_found _ _ _ _ _ _ menu item Hmenu Hitem). simpl.
    rewrite lookup_insert_eq. unfold linesOf. by rewrite Hcart.
  - intros sessionId' restaurantId itemId quantity customizations Hne call.
    subst call. rewrite addToCart_cases.
    destruct (JS.get getMenus restaurantId) as [[menu|key]|]; simpl;
      [destruct (findItem (menu_categories menu) itemId); simpl| |];
      by rewrite lookup_insert_ne.
Qed.

(** An unknown restaurant binds the new cart; a later item of rest_001
    joins that cart, whose restaurant is still the unknown one. *)
Lemma addToCart_binds_once_witness :
  let failed :=
    addToCart new_MockZomatoService "s1" "rest_999" "item_001" (JS.num 1) None in
  let added := addToCart failed.1 "s1" "rest_001" "item_001" (JS.num 1) None in
  failed.2 = Failure RestaurantNotFoundError ∧
  carts failed.1 !! "s1" = Some (emptyCart "rest_999") ∧
  is_success added.2 = true ∧
  (cart_restaurantId <$> carts added.1 !! "s1") = Some "rest_999" ∧
  (ci_itemId <$> linesOf added.1 "s1") = ["item_001"].
Proof.
  intros failed added.
  destruct (addToCart_binds_once new_MockZomatoService "s1") as (Hnew & _).
  destruct (Hnew "rest_999" "item_001" (JS.num 1) None eq_refl)
    as (cart & Hcart & Hbound & Hfail & _).
  fold failed in Hcart, Hfail.
  assert (Hfailed : failed.2 = Failure RestaurantNotFoundError) by reflexivity.
  specialize (Hfail _ Hfailed).
  assert (Hempty : carts failed.1 !! "s1" = Some (emptyCart "rest_999")).
  { rewrite Hfail. apply lookup_insert_eq. }
  destruct (addToCart_binds_once failed.1 "s1") as (_ & _ & Hadd & _).
  destruct (Hadd _ "rest_001" "item_001" (JS.num 1) None _ _ Hempty eq_refl eq_refl)
    as (Hok & Hadded).
  fold added in Hok, Hadded.
  split_and!; [done | done | done | by rewrite Hadded |].
  unfold linesOf. by rewrite Hadded.
Defined.

(** ** placeOrder and viewCart *)

Lemma length_zero_nil {A} (l : list A) : (length l =? 0)%nat = true ↔ l = [].
Proof. destruct l; simpl; split; congruence. Qed.

(** C2. [placeOrder] fails, with the error [Cart is empty], exactly when
    the session has no cart or a cart without items, and then changes
    nothing.  Otherwise, in one step, it stores an order that carries the
    cart's items and total, with status [confirmed], and removes the cart,
    so that [viewCart] on the session then answers with the empty cart. *)
Theorem placeOrder_empties_cart (this : MockZomatoService)
    (sessionId deliveryAddress paymentMethod : string)
    (now : Z) (isoNow : string) :
  let call :=
    placeOrder this sessionId deliveryAddress paymentMethod now isoNow in
  (call.2 = Failure EmptyCartError ↔
   carts this !! sessionId = None ∨
   ∃ cart, carts this !! sessionId = Some cart ∧ cart_items cart = []) ∧
  (∀ error, call.2 = Failure error → error = EmptyCartError ∧ call.1 = this) ∧
  (∀ cart,
     carts this !! sessionId = Some cart → cart_items cart ≠ [] →
     ∃ order,
       call.2 = Success {| po_message := "Order placed successfully!";
                           po_order := order |} ∧
       ord_items order = cart_items cart ∧
       ord_total order = cart_total cart ∧
       ord_deliveryAddress order = deliveryAddress ∧
       ord_paymentMethod order = paymentMethod ∧
       ord_status order = "confirmed" ∧
       ord_orderId order = makeOrderId now ∧
       orders call.1 = <[ord_orderId order := order]> (orders this) ∧
       carts call.1 = delete sessionId (carts this) ∧
       restaurants call.1 = restaurants this ∧
       viewCart call.1 sessionId
       = Success {| vc_message := Some "Your cart is empty";
                    vc_cart := {| cv_restaurantId := None; cv_items := [];
                                  cv_total := JS.zero |} |}).
Proof.
  intros call. subst call. unfold placeOrder.
  destruct (carts this !! sessionId) as [cart|] eqn:Hcart.
  - destruct (length (cart_items cart) =? 0)%nat eqn:Hlen.
    + apply length_zero_nil in Hlen. split_and!.
      * split; [right; eauto | done].
      * by intros error [= <-].
      * intros cart' [= <-] Hne. done.
    + assert (Hne : cart_items cart ≠ []).
      { intros H. apply length_zero_nil in H. congruence. }
      split_and!.
      * split; [done|]. intros [[=]|(cart' & [= <-] & H)]. done.
      * done.
      * intros cart' [= <-] _. eexists. simpl. split_and!; try done.
        unfold viewCart. simpl. by rewrite lookup_delete_eq.
  - split_and!.
    + split; [by left | done].
    + by intros error [= <-].
    + done.
Qed.

Lemma placeOrder_empties_cart_witness :
  let add := CallAddToCart "s1" "rest_001" "item_001" (JS.num 2) None in
  let this := after_all new_MockZomatoService [add; add] in
  let call := placeOrder this "s1" "123 Main St" "card" 1730000000000 "t" in
  (placeOrder new_MockZomatoService "s1" "123 Main St" "card" 1730000000000 "t").2
  = Failure "Cart is empty" ∧
  (ord_total <$> orders call.1 !! "ORD1730000000000") = Some (JS.num 320) ∧
  carts call.1 !! "s1" = None ∧
  viewCart call.1 "s1"
  = Success {| vc_message := Some "Your cart is empty";
               vc_cart := emptyCartView |}.
Proof.
  intros add this call.
  destruct (placeOrder_empties_cart new_MockZomatoService "s1" "123 Main St"
              "card" 1730000000000 "t") as ([_ Hfail] & _).
  split; [apply Hfail; by left|].
  destruct (placeOrder_empties_cart this "s1" "123 Main St" "card"
              1730000000000 "t") as (_ & _ & Hok).
  destruct (carts this !! "s1") as [cart|] eqn:Hcart; [|by vm_compute in Hcart].
  assert (Hitems : cart_items cart ≠ []).
  { vm_compute in Hcart. injection Hcart as <-. done. }
  destruct (Hok cart eq_refl Hitems)
    as (order & _ & _ & Htotal & _ & _ & _ & Hid & Horders & Hcarts & _ & Hview).
  fold call in Horders, Hcarts, Hview.
  split_and!.
  - rewrite Horders, Hid.
    change (makeOrderId 1730000000000) with "ORD1730000000000".
    rewrite lookup_insert_eq. simpl. rewrite Htotal.
    vm_compute in Hcart. by injection Hcart as <-.
  - rewrite Hcarts. apply lookup_delete_eq.
  - exact Hview.
Defined.

(** ** trackOrder *)

Lemma withStatus_same order : withStatus order (ord_status order) = order.
Proof. by destruct order. Qed.

Lemma trackOrder_known this orderId order :
  orders this !! orderId = Some order →
  trackOrder this orderId
  = ({| restaurants := restaurants this;
        carts := carts this;
        orders :=
          <[orderId := withStatus order (advance (ord_status order))]>
            (orders this) |},
     Success {| tp_orderId := ord_orderId order;
                tp_status := advance (ord_status order);
                tp_estimatedDelivery := ord_estimatedDelivery order;
                tp_deliveryAddress := ord_deliveryAddress order;
                tp_total := ord_total order |}).
Proof. intros H. unfold trackOrder. by rewrite H. Qed.

Lemma trackTimes_known n this orderId order :
  orders this !! orderId = Some order →
  orders (trackTimes n this orderId) !! orderId
  = Some (withStatus order (advanceTimes n (ord_status order))).
Proof.
  revert this order. induction n as [|n IH]; intros this order H; simpl.
  - by rewrite withStatus_same.
  - rewrite (trackOrder_known _ _ _ H). simpl.
    erewrite IH by apply lookup_insert_eq. done.
Qed.

Lemma advanceTimes_delivered n : advanceTimes n "delivered" = "delivered".
Proof. induction n as [|n IH]; [done|]. exact IH. Qed.

Lemma statuses_NoDup : NoDup statuses.
Proof. unfold statuses. apply NoDup_ListNoDup. repeat constructor; simpl; intuition congruence. Qed.

(** C3. On a reachable service every stored order has a status of the
    sequence confirmed, preparing, out_for_delivery, delivered; a
    [trackOrder] call on it succeeds and moves the status from position [i]
    to position [min (i + 1) 3], changing nothing else, so a delivered
    order is left as it is.  Three calls take a confirmed order to
    delivered, where it stays.  An unknown id fails with [Order not found]
    and changes nothing. *)
Theorem trackOrder_advances (this : MockZomatoService) (orderId : string) :
  reachable this →
  (orders this !! orderId = None →
   trackOrder this orderId = (this, Failure OrderNotFoundError)) ∧
  (∀ order,
     orders this !! orderId = Some order →
     let call := trackOrder this orderId in
     ∃ i status',
       statuses !! i = Some (ord_status order) ∧
       statuses !! Nat.min (i + 1) 3 = Some status' ∧
       call.2 = Success {| tp_orderId := orderId;
                           tp_status := status';
                           tp_estimatedDelivery := ord_estimatedDelivery order;
                           tp_deliveryAddress := ord_deliveryAddress order;
                           tp_total := ord_total order |} ∧
       orders call.1 = <[orderId := withStatus order status']> (orders this) ∧
       carts call.1 = carts this ∧
       (ord_status order = "delivered" → call.1 = this)) ∧
  (∀ order,
     orders this !! orderId = Some order →
     ord_status order = "confirmed" →
     orders (trackTimes 1 this orderId) !! orderId
     = Some (withStatus order "preparing") ∧
     orders (trackTimes 2 this orderId) !! orderId
     = Some (withStatus order "out_for_delivery") ∧
     ∀ n, orders (trackTimes (3 + n) this orderId) !! orderId
          = Some (withStatus order "delivered")).
Proof.
  intros Hreach. destruct (reachable_ok this Hreach) as (_ & _ & Horders).
  split_and!.
  - intros H. unfold trackOrder. by rewrite H.
  - intros order Horder call. subst call.
    rewrite (trackOrder_known _ _ _ Horder). simpl.
    destruct (Horders _ _ Horder) as (Hid & Hstatus & _).
    destruct (advance_cases _ Hstatus)
      as [[E E']|[[E E']|[[E E']|[E E']]]]; rewrite E', E, Hid.
    + exists 0, "preparing". split_and!; done.
    + exists 1, "out_for_delivery". split_and!; done.
    + exists 2, "delivered". split_and!; done.
    + exists 3, "delivered". split_and!; try done. intros _.
      rewrite <-E, withStatus_same, insert_id by done. by destruct this.
  - intros order Horder Hconfirmed. split_and!.
    + by rewrite (trackTimes_known 1 _ _ _ Horder), Hconfirmed.
    + by rewrite (trackTimes_known 2 _ _ _ Horder), Hconfirmed.
    + intros n. rewrite (trackTimes_known (3 + n) _ _ _ Horder), Hconfirmed.
      simpl. change (advance (advance (advance "confirmed"))) with "delivered".
      by rewrite advanceTimes_delivered.
Qed.

(** The scenario of the specification: add, place the order, track it
    three times. *)
Lemma trackOrder_advances_witness :
  let this :=
    after_all new_MockZomatoService
      [CallAddToCart "s1" "rest_001" "item_001" (JS.num 2) None;
       CallPlaceOrder "s1" "123 Main St" "card" 1730000000000 "t"] in
  (ord_status <$> orders this !! "ORD1730000000000") = Some "confirmed" ∧
  (ord_status <$> orders (trackTimes 3 this "ORD1730000000000")
                    !! "ORD1730000000000") = Some "delivered" ∧
  (ord_status <$> orders (trackTimes 4 this "ORD1730000000000")
                    !! "ORD1730000000000") = Some "delivered" ∧
  (trackOrder this "ORD0").2 = Failure "Order not found".
Proof.
  intros this.
  assert (Hreach : reachable this) by (apply reachable_after_all; constructor).
  destruct (trackOrder_advances this "ORD1730000000000" Hreach) as (_ & _ & H3).
  destruct (trackOrder_advances this "ORD0" Hreach) as (Hunknown & _).
  assert (∃ order, orders this !! "ORD1730000000000" = Some order ∧
                   ord_status order = "confirmed")
    as (order & Horder & Hconfirmed).
  { eexists. split; [vm_compute; reflexivity | reflexivity]. }
  destruct (H3 order Horder Hconfirmed) as (_ & _ & Hdelivered).
  split_and!.
  - rewrite Horder. cbn [fmap option_fmap option_map]. by rewrite Hconfirmed.
  - pose proof (Hdelivered 0) as H. change (3 + 0) with 3 in H. by rewrite H.
  - pose proof (Hdelivered 1) as H. change (3 + 1) with 4 in H. by rewrite H.
  - rewrite Hunknown; [done|]. by vm_compute.
Defined.

(** ** Order ids *)

(** Different clock readings give different order ids. *)
Lemma makeOrderId_inj now1 now2 :
  makeOrderId now1 = makeOrderId now2 → now1 = now2.
Proof.
  unfold makeOrderId. intros H. apply String.app_inj in H.
  by apply (inj pretty) in H.
Qed.

(** An order placed at another clock reading is not touched. *)
Lemma placeOrder_keeps_other_ids this sessionId deliveryAddress paymentMethod
    now isoNow now0 :
  now0 ≠ now →
  orders (placeOrder this sessionId deliveryAddress paymentMethod now isoNow).1
    !! makeOrderId now0
  = orders this !! makeOrderId now0.
Proof.
  intros Hne. unfold placeOrder.
  destruct (carts this !! sessionId) as [cart|]; [|done].
  destruct (length (cart_items cart) =? 0)%nat; [done|]. simpl.
  apply lookup_insert_ne. intros H. by apply makeOrderId_inj in H.
Qed.

(** C7, on the code.  Two sessions place an order at the same reading of
    [Date.now()]: both calls succeed with the same order id, and the
    second order replaces the first in the store. *)
Lemma placeOrder_same_millisecond_collides :
  let this :=
    after_all new_MockZomatoService
      [CallAddToCart "alice" "rest_001" "item_001" (JS.num 1) None;
       CallAddToCart "bob" "rest_002" "item_101" (JS.num 1) None] in
  let first := placeOrder this "alice" "1 First St" "card" 1730000000000 "t" in
  let second := placeOrder first.1 "bob" "2 Second St" "cash" 1730000000000 "t" in
  is_success first.2 = true ∧
  is_success second.2 = true ∧
  (ord_deliveryAddress <$> orders first.1 !! "ORD1730000000000")
  = Some "1 First St" ∧
  (ord_deliveryAddress <$> orders second.1 !! "ORD1730000000000")
  = Some "2 Second St" ∧
  size (orders first.1) = 1 ∧
  size (orders second.1) = 1.
Proof. vm_compute. split_and!; reflexivity. Qed.


(** * The tool registry *)

Section JsMapFacts.
Context {V : Type}.
Implicit Types (m : JsMap.t V) (k : string) (v : V).

Lemma JsMap_get_set_eq m k v : JsMap.get (JsMap.set m k v) k = Some v.
Proof.
  induction m as [|[k' v'] m IH]; simpl.
  - by rewrite String.eqb_refl.
  - destruct (String.eqb_spec k' k) as [->|Hne]; simpl.
    + by rewrite String.eqb_refl.
    + destruct (String.eqb_spec k' k); [done | exact IH].
Qed.

Lemma JsMap_get_set_ne m k k' v :
  k' ≠ k → JsMap.get (JsMap.set m k v) k' = JsMap.get m k'.
Proof.
  intros Hne. induction m as [|[k0 v0] m IH]; simpl.
  - destruct (String.eqb_spec k k'); [congruence | done].
  - destruct (String.eqb_spec k0 k) as [->|Hk]; simpl.
    + destruct (String.eqb_spec k k'); [congruence | done].
    + by rewrite IH.
Qed.

Lemma JsMap_get_Some_elem m k v : JsMap.get m k = Some v → (k, v) ∈ m.
Proof.
  induction m as [|[k' v'] m IH]; simpl; [done|].
  destruct (String.eqb_spec k' k) as [->|Hne].
  - intros [= ->]. left.
  - intros H. right. by apply IH.
Qed.

Lemma JsMap_get_None_keys m k : JsMap.get m k = None ↔ k ∉ JsMap.keys m.
Proof.
  unfold JsMap.keys. induction m as [|[k' v'] m IH]; simpl.
  - split; [intros _; apply not_elem_of_nil | done].
  - rewrite not_elem_of_cons. destruct (String.eqb_spec k' k) as [->|Hne].
    + split; [done | intros [? _]; done].
    + rewrite IH. split; [intros ?; split; [by intros -> | done] | by intros [_ ?]].
Qed.

(** [set] on a present key keeps the order of the keys. *)
Lemma JsMap_keys_set_present m k v :
  JsMap.has m k = true → JsMap.keys (JsMap.set m k v) = JsMap.keys m.
Proof.
  unfold JsMap.has, JsMap.keys. induction m as [|[k' v'] m IH]; simpl; [done|].
  destruct (String.eqb_spec k' k) as [->|Hne]; simpl; [done|].
  intros H. f_equal. by apply IH.
Qed.

(** [set] on an absent key appends. *)
Lemma JsMap_set_absent m k v :
  JsMap.has m k = false → JsMap.set m k v = (m ++ [(k, v)])%list.
Proof.
  unfold JsMap.has. induction m as [|[k' v'] m IH]; simpl; [done|].
  destruct (String.eqb_spec k' k) as [->|Hne]; simpl; [done|].
  intros H. f_equal. by apply IH.
Qed.

Lemma JsMap_keys_set_NoDup m k v :
  NoDup (JsMap.keys m) → NoDup (JsMap.keys (JsMap.set m k v)).
Proof.
  intros Hm. destruct (JsMap.has m k) eqn:Hhas.
  - by rewrite JsMap_keys_set_present.
  - rewrite JsMap_set_absent by done. unfold JsMap.keys in *.
    rewrite fmap_app. simpl. apply NoDup_app. split_and!; [done| |].
    + intros k' Hk' ->%list_elem_of_singleton.
      unfold JsMap.has in Hhas. destruct (JsMap.get m k) eqn:Hget; [done|].
      by apply JsMap_get_None_keys in Hget.
    + apply NoDup_singleton.
Qed.

End JsMapFacts.

Lemma NoDup_keys_functional {V} (m : JsMap.t V) k (v1 v2 : V) :
  NoDup (JsMap.keys m) → (k, v1) ∈ m → (k, v2) ∈ m → v1 = v2.
Proof.
  unfold JsMap.keys. induction m as [|[k' v'] m IH]; simpl.
  - by intros _ ?%elem_of_nil.
  - rewrite NoDup_cons. intros [Hk' Hm] H1 H2.
    apply elem_of_cons in H1 as [[= -> ->]|H1];
      apply elem_of_cons in H2 as [[= ->]|H2]; try done.
    + destruct Hk'. apply list_elem_of_fmap. by exists (k', v2).
    + destruct Hk'. apply list_elem_of_fmap. by exists (k', v1).
    + by apply IH.
Qed.

Section RegistryFacts.
Context {Args ToolResult World : Type}.
Implicit Types (tools : ToolRegistry Args ToolResult World).
Implicit Types (definition : ToolDefinition Args ToolResult World).

Lemma registered_NoDup tools : registered tools → NoDup (JsMap.keys tools).
Proof.
  induction 1 as [|tools definition _ IH]; [constructor|].
  by apply JsMap_keys_set_NoDup.
Qed.

(** C8, as amended.  [registerTool] never fails.  When the name is already
    registered the new definition replaces the old one, in the old one's
    place in the listing; when it is not, the definition is appended.  The
    other names keep their definitions, and a registry built by
    [registerTool] holds at most one definition for every name. *)
Theorem registerTool_replaces tools definition :
  JsMap.get (registerTool tools definition) (name definition)
  = Some definition ∧
  (∀ other, other ≠ name definition →
     JsMap.get (registerTool tools definition) other = JsMap.get tools other) ∧
  (JsMap.has tools (name definition) = true →
     JsMap.keys (registerTool tools definition) = JsMap.keys tools) ∧
  (JsMap.has tools (name definition) = false →
     registerTool tools definition
     = (tools ++ [(name definition, definition)])%list) ∧
  (registered tools →
     NoDup (JsMap.keys (registerTool tools definition)) ∧
     ∀ toolName d1 d2,
       (toolName, d1) ∈ registerTool tools definition →
       (toolName, d2) ∈ registerTool tools definition →
       d1 = d2).
Proof.
  unfold registerTool. split_and!.
  - apply JsMap_get_set_eq.
  - intros other Hne. by apply JsMap_get_set_ne.
  - apply JsMap_keys_set_present.
  - apply JsMap_set_absent.
  - intros Hreg.
    assert (Hnodup : NoDup (JsMap.keys
              (JsMap.set tools (name definition) definition))).
    { apply JsMap_keys_set_NoDup. by apply registered_NoDup. }
    split; [done|]. intros toolName d1 d2. by apply NoDup_keys_functional.
Qed.

End RegistryFacts.

(** C8, on the code: registering a second definition under a registered
    name succeeds and replaces the first. *)
Lemma registerTool_overwrites_duplicate :
  let tools := new_ToolRegistry true offline in
  let tools' := registerTool tools view_cart_again in
  JsMap.has tools "view_cart" = true ∧
  (description <$> JsMap.get tools "view_cart")
  = Some "View all items in cart with quantities, prices, and total amount." ∧
  (description <$> JsMap.get tools' "view_cart") = Some "Another tool" ∧
  JsMap.keys tools' = JsMap.keys tools ∧
  JsMap.keys tools
  = ["search_restaurants"; "get_menu"; "add_to_cart"; "view_cart";
     "place_order"; "track_order"].
Proof. split_and!; reflexivity. Qed.

Lemma registerTool_replaces_witness :
  let tools := new_ToolRegistry true offline in
  let tools' := registerTool tools view_cart_again in
  JsMap.get tools' "view_cart" = Some view_cart_again ∧
  JsMap.keys tools' = JsMap.keys tools ∧
  NoDup (JsMap.keys tools').
Proof.
  intros tools tools'.
  destruct (registerTool_replaces tools view_cart_again)
    as (Hget & _ & Hkeys & _ & Hreg).
  split_and!.
  - exact Hget.
  - by apply Hkeys.
  - apply Hreg. unfold tools, new_ToolRegistry, registerDefaultTools.
    repeat constructor.
Defined.


(** * The function-call loop *)

Section LoopFacts.
Context {Args ToolResult World : Type}.
Variable execute :
  string → Args → Context → World → World * Exc ToolResult.
Variable cap : nat.
Variable genAI : GenerativeModel Args ToolResult.
Variable h : list Content.
Variable context : Context.

Local Open Scope nat_scope.

Abbreviation body := (loopBody execute genAI h context).
Abbreviation loop := (functionCallLoop execute cap genAI h context).

Implicit Types (st : LoopState Args ToolResult World).

(** A pass that completes: the call was run, its result was sent to the
    model, and the counter went up by exactly one. *)
Lemma loopBody_completed st functionCall st' :
  body st functionCall = inl st' →
  callCount st' = S (callCount st) ∧
  executed st' = (executed st ++ [functionCall])%list ∧
  ∃ result,
    (execute (fc_name functionCall) (fc_args functionCall) context (world st)).2
    = Return result ∧
    sent st' = (sent st ++ [FunctionResponse (fc_name functionCall) result])%list ∧
    genAI h (sent st') = Return (response st').
Proof.
  unfold loopBody.
  destruct (execute _ _ _ _) as [w' [result|message]]; [|done].
  destruct (genAI h _) as [response'|message] eqn:Hmodel; [|done].
  intros [= <-]. simpl. split_and!; [done..|]. exists result. by rewrite Hmodel.
Qed.

(** A pass that throws: the call was run, the counter did not move. *)
Lemma loopBody_threw st functionCall message st' :
  body st functionCall = inr (message, st') →
  callCount st' = callCount st ∧
  executed st' = (executed st ++ [functionCall])%list.
Proof.
  unfold loopBody.
  destruct (execute _ _ _ _) as [w' [result|message']].
  - destruct (genAI h _) as [response'|message'']; [done|]. by intros [= <- <-].
  - by intros [= <- <-].
Qed.

(** At the cap the loop exits at once, whatever the response asks for. *)
Lemma loop_exits_at_cap fuel st :
  cap ≤ callCount st → loop (S fuel) st = Exited st.
Proof.
  intros Hcap. simpl. destruct (firstFunctionCall (response st)); [|done].
  destruct (Nat.ltb_spec (callCount st) cap); [lia | done].
Qed.

(** The loop terminates: [cap - callCount] passes are enough. *)
Lemma loop_terminates fuel st :
  cap - callCount st < fuel → loop fuel st ≠ OutOfFuel.
Proof.
  revert st. induction fuel as [|fuel IH]; intros st Hfuel; [lia|]. simpl.
  destruct (firstFunctionCall (response st)) as [functionCall|]; [|done].
  destruct (Nat.ltb_spec (callCount st) cap) as [Hlt|]; [|done].
  destruct (body st functionCall) as [st'|[message st']] eqn:Hbody; [|done].
  apply IH. apply loopBody_completed in Hbody as [-> _]. lia.
Qed.

(** More fuel than that changes nothing. *)
Lemma loop_fuel_irrelevant fuel fuel' st :
  cap - callCount st < fuel → cap - callCount st < fuel' →
  loop fuel st = loop fuel' st.
Proof.
  revert fuel' st. induction fuel as [|fuel IH]; intros fuel' st H H'; [lia|].
  destruct fuel' as [|fuel']; [lia|]. simpl.
  destruct (firstFunctionCall (response st)) as [functionCall|]; [|done].
  destruct (Nat.ltb_spec (callCount st) cap) as [Hlt|]; [|done].
  destruct (body st functionCall) as [st'|[message st']] eqn:Hbody; [|done].
  apply loopBody_completed in Hbody as [Hcount _].
  apply IH; rewrite Hcount; lia.
Qed.

(** What the loop leaves behind.  When it exits, the counter is the number
    of calls run and is at most the cap, and the loop stopped because the
    model asked for no call or because the counter is at the cap.  When a
    pass throws, one call more than the counter was run, still at most the
    cap. *)
Lemma loop_counts fuel st :
  length (executed st) = callCount st → callCount st ≤ cap →
  match loop fuel st with
  | Exited st' =>
      length (executed st') = callCount st' ∧
      callCount st ≤ callCount st' ≤ cap ∧
      (firstFunctionCall (response st') = None ∨ callCount st' = cap)
  | Raised _ st' =>
      length (executed st') = S (callCount st') ∧
      callCount st ≤ callCount st' < cap
  | OutOfFuel => True
  end.
Proof.
  revert st. induction fuel as [|fuel IH]; intros st Hlen Hcap; [done|]. simpl.
  destruct (firstFunctionCall (response st)) as [functionCall|] eqn:Hcall;
    [|by auto with lia].
  destruct (Nat.ltb_spec (callCount st) cap) as [Hlt|Hge];
    [|split_and!; [done | lia | lia | right; lia]].
  destruct (body st functionCall) as [st'|[message st']] eqn:Hbody.
  - apply loopBody_completed in Hbody as (Hcount & Hexec & _).
    specialize (IH st'). rewrite Hexec, length_app, Hcount in IH. simpl in IH.
    specialize (IH ltac:(lia) ltac:(lia)).
    destruct (loop fuel st') as [st''|message st''|]; [| |done].
    + destruct IH as (? & ? & ?). split_and!; [done|lia|lia|done].
    + destruct IH as (? & ?). split_and!; [done|lia|lia].
  - apply loopBody_threw in Hbody as (Hcount & Hexec).
    rewrite Hexec, length_app, Hcount. simpl. lia.
Qed.

(** The response the loop holds is the model's answer to what was sent. *)
Lemma loop_keeps_answer fuel st st' :
  genAI h (sent st) = Return (response st) →
  loop fuel st = Exited st' →
  genAI h (sent st') = Return (response st').
Proof.
  revert st. induction fuel as [|fuel IH]; intros st Hst; [done|]. simpl.
  destruct (firstFunctionCall (response st)) as [functionCall|];
    [|by intros [= <-]].
  destruct (callCount st <? cap); [|by intros [= <-]].
  destruct (body st functionCall) as [st1|[message st1]] eqn:Hbody; [|done].
  apply loopBody_completed in Hbody as (_ & _ & result & _ & _ & Hanswer).
  by apply IH.
Qed.

(** When the model always answers and the calls it asks for run without
    throwing, the loop exits normally. *)
Lemma loop_exits fuel st :
  (∀ parts, ∃ r, genAI h parts = Return r) →
  (∀ parts r functionCall w,
      genAI h parts = Return r → firstFunctionCall r = Some functionCall →
      ∃ w' result,
        execute (fc_name functionCall) (fc_args functionCall) context w
        = (w', Return result)) →
  genAI h (sent st) = Return (response st) →
  cap - callCount st < fuel →
  ∃ st', loop fuel st = Exited st'.
Proof.
  intros Hmodel Htools. revert st.
  induction fuel as [|fuel IH]; intros st Hst Hfuel; [lia|]. simpl.
  destruct (firstFunctionCall (response st)) as [functionCall|] eqn:Hcall;
    [|by eexists].
  destruct (Nat.ltb_spec (callCount st) cap) as [Hlt|Hge]; [|by eexists].
  unfold loopBody.
  destruct (Htools _ _ _ (world st) Hst Hcall) as (w' & result & ->).
  destruct (Hmodel (sent st ++ [FunctionResponse (fc_name functionCall) result])%list)
    as (r & Hr).
  rewrite Hr. apply IH; simpl; [done | lia].
Qed.

End LoopFacts.

(** * POST /chat of gemini-food-ordering.js *)

Section ChatFacts.
Context {Args ToolResult World : Type}.
Local Open Scope nat_scope.

(** A turn runs at most [maxCalls = 10] tool calls.  With more fuel
    than the cap the handler always answers: the loop does not run on.
    Each completed pass of the loop raises the counter by exactly one, and
    at the cap the loop exits whatever the model asks for.  When the model
    answers every message and the calls it asks for run without throwing,
    the turn ends with a final text (status 200) after as many calls as
    the counter says, at most ten; the final text is the text of a
    response of the model, or one of the two fallback texts when that
    response holds none; and when moreover every answer asks for another
    call, exactly ten calls are run before the final text. *)
Lemma chat_turn_bounded
    (tools : ToolRegistry Args ToolResult World)
    (genAI : GenerativeModel Args ToolResult) (fuel : nat)
    (sessions : gmap string Session) (w : World)
    (req : ChatRequest) (now : Z) :
  maxCalls < fuel →
  ∃ out,
    chat tools genAI fuel sessions w req now = Some out ∧
    maxCalls = 10 ∧
    length (out_executed out) ≤ maxCalls ∧
    (∀ history ctx st functionCall st',
       loopBody (executeTool tools) genAI history ctx st functionCall = inl st' →
       callCount st' = S (callCount st)) ∧
    (∀ history ctx n st,
       maxCalls ≤ callCount st →
       functionCallLoop (executeTool tools) maxCalls genAI history ctx (S n) st
       = Exited st) ∧
    (JS.truthy (req_message req) = true →
     (∀ history parts, ∃ r, genAI history parts = Return r) →
     (∀ history parts r functionCall ctx w,
        genAI history parts = Return r →
        firstFunctionCall r = Some functionCall →
        ∃ w' result,
          executeTool tools (fc_name functionCall) (fc_args functionCall) ctx w
          = (w', Return result)) →
     ∃ finalResponse sessionId toolsUsed,
       out_response out = Json200 finalResponse sessionId toolsUsed ∧
       toolsUsed = length (out_executed out) ∧
       toolsUsed ≤ maxCalls ∧
       (∃ history parts last,
          genAI history parts = Return last ∧
          finalResponse
          = match text last with
            | Return t => t
            | Throw _ =>
                if 0 <? toolsUsed then
                  "I've processed your request. Please let me know if you need any clarification or would like to proceed with your order."
                else
                  "I'm here to help you order food! Try asking me to search for restaurants, view menus, or place an order."
            end) ∧
       ((∀ history parts r,
           genAI history parts = Return r → is_Some (firstFunctionCall r)) →
        toolsUsed = maxCalls)).
Proof.
  intros Hfuel. unfold chat.
  set (sessionId := default ("session_" +:+ pretty now) (req_sessionId req)).
  destruct (JS.truthy (req_message req)) eqn:Hmessage; simpl.
  2:{ eexists. split; [done|]. simpl. split_and!; [done | lia | | | done].
      - intros ????? H. by apply loopBody_completed in H as [? _].
      - intros. by apply loop_exits_at_cap. }
  set (message := default "" (req_message req)).
  set (session := default {| history := []; createdAt := now |}
                    (sessions !! sessionId)).
  destruct (genAI (history session) [UserText message]) as [response0|details]
    eqn:Hfirst.
  2:{ eexists. split; [done|]. simpl. split_and!; [done | lia | | |].
      - intros ????? H. by apply loopBody_completed in H as [? _].
      - intros. by apply loop_exits_at_cap.
      - intros _ Hmodel _. destruct (Hmodel (history session) [UserText message]).
        congruence. }
  set (st0 := {| response := response0; callCount := 0;
                 sent := [UserText message]; world := w; executed := [] |}).
  set (ctx := {| ctx_sessionId := sessionId |}).
  pose proof (loop_terminates (executeTool tools) maxCalls genAI
                (history session) ctx fuel st0) as Hterm.
  pose proof (loop_counts (executeTool tools) maxCalls genAI
                (history session) ctx fuel st0 eq_refl) as Hcounts.
  specialize (Hterm ltac:(unfold st0, maxCalls in *; simpl; lia)).
  specialize (Hcounts ltac:(unfold st0; simpl; lia)).
  destruct (functionCallLoop (executeTool tools) maxCalls genAI
              (history session) ctx fuel st0) as [st|details st|] eqn:Hloop;
    [| |done].
  - destruct Hcounts as (Hlen & Hle & Hstop).
    eexists. split; [done|]. simpl. split_and!; [done | lia | | |].
    + intros ????? H. by apply loopBody_completed in H as [? _].
    + intros. by apply loop_exits_at_cap.
    + intros _ Hmodel Htools.
      pose proof (loop_keeps_answer (executeTool tools) maxCalls genAI
                    (history session) ctx fuel st0 st Hfirst Hloop) as Hanswer.
      eexists _, _, _. split; [done|].
      split_and!; [done | lia | |].
      * exists (history session), (sent st), (response st).
        split; [exact Hanswer | reflexivity].
      * intros Hasks. destruct Hstop as [Hnone|Hcap]; [|done].
        apply Hasks in Hanswer. rewrite Hnone in Hanswer. by destruct Hanswer.
  - destruct Hcounts as (Hlen & Hle).
    eexists. split; [done|]. simpl. split_and!; [done | lia | | |].
    + intros ????? H. by apply loopBody_completed in H as [? _].
    + intros. by apply loop_exits_at_cap.
    + intros _ Hmodel Htools.
      destruct (loop_exits (executeTool tools) maxCalls genAI (history session)
                  ctx fuel st0 (Hmodel _)) as [st' Hexit].
      * intros parts r functionCall w0. apply Htools.
      * exact Hfirst.
      * unfold st0, maxCalls in *. simpl. lia.
      * congruence.
Qed.

End ChatFacts.

(** The same turn, evaluated: ten calls, then the summary text. *)
Example chat_capped_example :
  out_response
    <$> chat (new_ToolRegistry true offline) alwaysViewCart 11 ∅ world0
          cartQuestion 0
  = Some (Json200
            "I've processed your request. Please let me know if you need any clarification or would like to proceed with your order."
            "s1" 10).
Proof. reflexivity. Qed.

(** A call of an unregistered tool throws, and the turn fails. *)
Example chat_unknown_tool_example :
  out_response
    <$> chat (new_ToolRegistry true offline)
          (λ _ _, Return {| functionCalls :=
                              Some [ {| fc_name := "rate_restaurant";
                                        fc_args := noArgs |} ];
                            text := Return "" |})
          11 ∅ world0 cartQuestion 0
  = Some (Json500 "Request failed" "Tool not found: rate_restaurant").
Proof. reflexivity. Qed.


(** * POST /chat of server.js *)

Section ServerFacts.
Context {Remote : Type}.
Variable callTool :
  string → list (string * JsVal) → Remote → Remote * Exc ToolResult.
Local Open Scope nat_scope.

Lemma handled_returns functionName args ctx w :
  ∃ w' result, handled callTool functionName args ctx w = (w', Return result).
Proof.
  unfold handled.
  destruct (handleFunctionCall callTool functionName args (ctx_sessionId ctx) w).
  by eexists _, _.
Qed.

(** The loop of server.js has the same cap: a turn runs at most
    [maxFunctionCalls = 10] calls and always answers.  With a model that
    answers every message, the answer is the final text when
    [response.text()] does not throw and a 500 when it does: server.js has
    no fallback text.  When every answer asks for another call, ten calls
    are run. *)
Lemma server_chat_tool_calls_bounded
    (genAI : GenerativeModel Args ToolResult) (fuel : nat)
    (sessions : gmap string ServerSession) (w : Remote)
    (req : ServerRequest) (now : Z) :
  maxFunctionCalls < fuel →
  ∃ out,
    server_chat callTool genAI fuel sessions w req now = Some out ∧
    maxFunctionCalls = 10 ∧
    length (sout_executed out) ≤ maxFunctionCalls ∧
    (JS.truthy (sreq_message req) = true →
     (∀ history parts, ∃ r, genAI history parts = Return r) →
     ((∀ history parts r, genAI history parts = Return r →
         ∃ t, text r = Return t) →
      ∃ finalResponse sessionId,
        sout_response out = Server200 finalResponse sessionId now ∧
        ∃ history parts last,
          genAI history parts = Return last ∧
          text last = Return finalResponse) ∧
     ((∀ history parts r, genAI history parts = Return r →
         ∃ details, text r = Throw details) →
      ∃ details, sout_response out = Server500 serverError details) ∧
     ((∀ history parts r,
         genAI history parts = Return r → is_Some (firstFunctionCall r)) →
      length (sout_executed out) = maxFunctionCalls)).
Proof.
  intros Hfuel. unfold server_chat.
  set (sessionId := default ("session_" +:+ pretty now) (sreq_sessionId req)).
  destruct (JS.truthy (sreq_message req)) eqn:Hmessage; simpl.
  2:{ eexists. split; [done|]. simpl. split_and!; [done | lia | done]. }
  set (message := default "" (sreq_message req)).
  set (session := default _ (sessions !! sessionId)).
  destruct (genAI (ss_history session) [UserText message])
    as [response0|details] eqn:Hfirst.
  2:{ eexists. split; [done|]. simpl. split_and!; [done | lia |].
      intros _ Hmodel.
      destruct (Hmodel (ss_history session) [UserText message]). congruence. }
  set (st0 := {| response := response0; callCount := 0;
                 sent := [UserText message]; world := w; executed := [] |}).
  set (ctx := {| ctx_sessionId := sessionId |}).
  pose proof (loop_terminates (handled callTool) maxFunctionCalls genAI
                (ss_history session) ctx fuel st0) as Hterm.
  pose proof (loop_counts (handled callTool) maxFunctionCalls genAI
                (ss_history session) ctx fuel st0 eq_refl) as Hcounts.
  specialize (Hterm ltac:(unfold st0, maxFunctionCalls in *; simpl; lia)).
  specialize (Hcounts ltac:(unfold st0; simpl; lia)).
  destruct (functionCallLoop (handled callTool) maxFunctionCalls genAI
              (ss_history session) ctx fuel st0) as [st|details st|] eqn:Hloop;
    [| |done].
  - destruct Hcounts as (Hlen & Hle & Hstop).
    pose proof (loop_keeps_answer (handled callTool) maxFunctionCalls genAI
                  (ss_history session) ctx fuel st0 st Hfirst Hloop) as Hanswer.
    assert (Hasked :
      (∀ history parts r,
         genAI history parts = Return r → is_Some (firstFunctionCall r)) →
      length (executed st) = maxFunctionCalls).
    { intros Hasks. destruct Hstop as [Hnone|Hcap]; [|lia].
      apply Hasks in Hanswer. rewrite Hnone in Hanswer. by destruct Hanswer. }
    destruct (text (response st)) as [finalResponse|details] eqn:Htext.
    + eexists. split; [done|]. simpl. split_and!; [done | lia |].
      intros _ _. split_and!; [| | done].
      * intros _. eexists _, _. split; [done|].
        by exists (ss_history session), (sent st), (response st).
      * intros Htexts. destruct (Htexts _ _ _ Hanswer). congruence.
    + eexists. split; [done|]. simpl. split_and!; [done | lia |].
      intros _ _. split_and!; [| by eexists | done].
      intros Htexts. destruct (Htexts _ _ _ Hanswer). congruence.
  - destruct Hcounts as (Hlen & Hle).
    eexists. split; [done|]. simpl. split_and!; [done | lia |].
    intros _ Hmodel.
    destruct (loop_exits (handled callTool) maxFunctionCalls genAI (ss_history session)
                ctx fuel st0 (Hmodel _)) as [st' Hexit].
    + intros parts r functionCall w0 _ _. apply handled_returns.
    + exact Hfirst.
    + unfold st0, maxFunctionCalls in *. simpl. lia.
    + congruence.
Qed.

End ServerFacts.


(** The tool [view_cart] of the mock mode returns on every world. *)
Lemma executeTool_view_cart args ctx w :
  ∃ result,
    executeTool (new_ToolRegistry true offline) "view_cart" args ctx w
    = (w, Return result).
Proof.
  change (executeTool (new_ToolRegistry true offline) "view_cart" args ctx w)
    with (returned ViewCartResult w
            (Inline.viewCart (mockService w) (ctx_sessionId ctx))).
  unfold returned, Inline.viewCart.
  destruct (Inline.carts (mockService w) !! ctx_sessionId ctx) as [cart|];
    [destruct (0 <? length (Inline.cart_items cart))%nat|]; by eexists.
Qed.




(** * The session history *)

Section HistoryFacts.
Local Open Scope nat_scope.
Implicit Types (turns : list (string * string)).

Lemma length_pairs turns : length (pairs turns) = 2 * length turns.
Proof. induction turns as [|[m r] turns IH]; simpl; lia. Qed.

Lemma pairs_app turns1 turns2 :
  pairs (turns1 ++ turns2) = (pairs turns1 ++ pairs turns2)%list.
Proof. induction turns1 as [|[m r] turns1 IH]; simpl; by rewrite ?IH. Qed.

(** Dropping an even number of messages drops whole turns. *)
Lemma drop_pairs k turns : drop (2 * k) (pairs turns) = pairs (drop k turns).
Proof.
  revert turns. induction k as [|k IH]; intros turns; [done|].
  destruct turns as [|[m r] turns]; [done|].
  replace (2 * S k) with (S (S (2 * k))) by lia. simpl. apply IH.
Qed.

Lemma length_lastTurns n turns :
  length (lastTurns n turns) = Nat.min n (length turns).
Proof. unfold lastTurns. rewrite length_drop. lia. Qed.

Lemma lastTurns_all n turns : length turns ≤ n → lastTurns n turns = turns.
Proof.
  intros H. unfold lastTurns. replace (length turns - n) with 0 by lia. done.
Qed.

(** The newest turn is among the last [S n]. *)
Lemma lastTurns_snoc n turns t :
  lastTurns (S n) (turns ++ [t]) = (lastTurns n turns ++ [t])%list.
Proof.
  unfold lastTurns. rewrite length_app. simpl.
  replace (length turns + 1 - S n) with (length turns - n) by lia.
  rewrite drop_app_le by lia. done.
Qed.

Lemma lastTurns_lastTurns_snoc n turns t :
  lastTurns (S n) (lastTurns (S n) turns ++ [t]) = lastTurns (S n) (turns ++ [t]).
Proof.
  rewrite !lastTurns_snoc. f_equal. unfold lastTurns.
  rewrite length_drop, drop_drop. f_equal. lia.
Qed.

(** One completed turn: the pair is appended and the oldest turns beyond
    twenty are dropped, whole. *)
Lemma updateHistory_pairs turns message finalResponse :
  updateHistory (pairs turns) message finalResponse
  = pairs (lastTurns maxTurns (turns ++ [(message, finalResponse)])).
Proof.
  unfold updateHistory, JS.slice_last, historyCap, maxTurns.
  change [ {| role := user; parts_text := message |};
           {| role := model; parts_text := finalResponse |} ]
    with (pairs [(message, finalResponse)]).
  rewrite <-pairs_app.
  set (turns' := (turns ++ [(message, finalResponse)])%list).
  rewrite length_pairs.
  destruct (Nat.ltb_spec 40 (2 * length turns')) as [Hlong|Hshort].
  - replace (2 * length turns' - 40) with (2 * (length turns' - 20)) by lia.
    apply drop_pairs.
  - rewrite lastTurns_all by lia. done.
Qed.

End HistoryFacts.

Section SessionFacts.
Context {Args ToolResult World : Type}.
Local Open Scope nat_scope.

(** What one request does to the histories: a completed turn updates the
    history of its session with [updateHistory]; any other outcome, and
    every other session, keeps the history. *)
Lemma chat_history (tools : ToolRegistry Args ToolResult World) genAI fuel
    sessions w req now out :
  chat tools genAI fuel sessions w req now = Some out →
  match out_response out with
  | Json200 finalResponse sid _ =>
      ∃ message,
        req_message req = Some message ∧
        ∀ sessionId,
          historyOf (out_sessions out) sessionId
          = if decide (sessionId = sid)
            then updateHistory (historyOf sessions sessionId) message finalResponse
            else historyOf sessions sessionId
  | _ =>
      ∀ sessionId,
        historyOf (out_sessions out) sessionId = historyOf sessions sessionId
  end.
Proof.
  unfold chat.
  set (sid := default ("session_" +:+ pretty now) (req_sessionId req)).
  destruct (JS.truthy (req_message req)) eqn:Hmessage; simpl;
    [|by intros [= <-]].
  destruct (req_message req) as [message|] eqn:Hreq; [|done]. simpl.
  set (session := default {| history := []; createdAt := now |}
                    (sessions !! sid)).
  assert (Hsame : ∀ sessionId,
            historyOf (<[sid := session]> sessions) sessionId
            = historyOf sessions sessionId).
  { intros sessionId. unfold historyOf.
    destruct (decide (sid = sessionId)) as [<-|Hne].
    - rewrite lookup_insert_eq. subst session.
      by destruct (sessions !! sid).
    - by rewrite lookup_insert_ne. }
  destruct (genAI (history session) [UserText message]) as [response0|details];
    [|by intros [= <-]].
  destruct (functionCallLoop _ _ _ _ _ _ _) as [st|details st|];
    [|by intros [= <-]|done].
  intros [= <-]. simpl. exists message. split; [done|]. intros sessionId.
  destruct (decide (sessionId = sid)) as [->|Hne].
  - unfold historyOf at 1. rewrite lookup_insert_eq. simpl. f_equal.
    rewrite <-Hsame. unfold historyOf. by rewrite lookup_insert_eq.
  - rewrite <-Hsame. unfold historyOf. by rewrite !lookup_insert_ne.
Qed.

(** Every history the server holds is made of at most twenty whole turns. *)
Lemma served_pairs sessions sessionId :
  served Args ToolResult World sessions →
  ∃ turns, historyOf sessions sessionId = pairs turns ∧
           length turns ≤ maxTurns.
Proof.
  intros Hserved. revert sessionId.
  induction Hserved as [|tools genAI fuel sessions w req now out _ IH Hchat];
    intros sessionId.
  - exists []. split; [done | simpl; lia].
  - destruct (IH sessionId) as (turns & Hturns & Hlen).
    apply chat_history in Hchat.
    destruct (out_response out) as [finalResponse sid toolsUsed| |];
      [|exists turns; by rewrite Hchat..].
    destruct Hchat as (message & _ & Hnew). rewrite Hnew.
    destruct (decide (sessionId = sid)); [|by exists turns].
    eexists. rewrite Hturns. split; [apply updateHistory_pairs|].
    rewrite length_lastTurns. lia.
Qed.

(** C9. The history of every session the server holds consists of whole
    (user, model) pairs, at most twenty of them: its length is even and at
    most 40.  A completed turn appends exactly the pair of the request's
    message and the final text, and then keeps the last twenty pairs: the
    pairs that go are the oldest, whole, and the new pair is the last one
    kept. *)
Theorem session_history_paired (sessions : gmap string Session) :
  served Args ToolResult World sessions →
  (∀ sessionId session,
     sessions !! sessionId = Some session →
     ∃ turns,
       history session = pairs turns ∧
       length turns ≤ 20 ∧
       length (history session) = 2 * length turns ∧
       length (history session) ≤ 40) ∧
  (∀ (tools : ToolRegistry Args ToolResult World) genAI fuel w req now out
     finalResponse sessionId toolsUsed,
     chat tools genAI fuel sessions w req now = Some out →
     out_response out = Json200 finalResponse sessionId toolsUsed →
     ∃ turns message dropped kept,
       req_message req = Some message ∧
       historyOf sessions sessionId = pairs turns ∧
       turns = (dropped ++ kept)%list ∧
       historyOf (out_sessions out) sessionId
       = pairs (kept ++ [(message, finalResponse)]) ∧
       length (kept ++ [(message, finalResponse)])
       = Nat.min 20 (S (length turns))).
Proof.
  intros Hserved. split.
  - intros sessionId session Hsession.
    destruct (served_pairs sessions sessionId Hserved) as (turns & Hturns & Hlen).
    unfold historyOf in Hturns. rewrite Hsession in Hturns.
    exists turns. rewrite Hturns, length_pairs.
    unfold maxTurns, historyCap in *. split_and!; [done | done | done | lia].
  - intros tools genAI fuel w req now out finalResponse sessionId toolsUsed
      Hchat Hresponse.
    destruct (served_pairs sessions sessionId Hserved) as (turns & Hturns & Hlen).
    apply chat_history in Hchat. rewrite Hresponse in Hchat.
    destruct Hchat as (message & Hmessage & Hnew).
    specialize (Hnew sessionId). rewrite decide_True in Hnew by done.
    exists turns, message,
      (take (length turns - (maxTurns - 1)) turns),
      (lastTurns (maxTurns - 1) turns).
    split_and!; [done | done | | |].
    + unfold lastTurns. by rewrite take_drop.
    + rewrite Hnew, Hturns, updateHistory_pairs. f_equal.
      unfold maxTurns. apply lastTurns_snoc.
    + rewrite length_app, length_lastTurns. unfold maxTurns in *. simpl. lia.
Qed.

End SessionFacts.


Lemma historyAfter_pairs turns :
  historyAfter turns = pairs (lastTurns maxTurns turns).
Proof.
  unfold historyAfter.
  induction turns as [|[message finalResponse] turns IH] using rev_ind; [done|].
  rewrite fold_left_app. simpl. rewrite IH, updateHistory_pairs.
  unfold maxTurns. by rewrite lastTurns_lastTurns_snoc.
Qed.

(** Twenty-one turns: the first one is gone, the last one is there. *)
Example history_after_21_turns :
  let turn (n : nat) := ("question " +:+ pretty n, "answer " +:+ pretty n) in
  let h := historyAfter (turn <$> seq 1 21) in
  length h = 40 ∧
  head h = Some {| role := user; parts_text := "question 2" |} ∧
  last h = Some {| role := model; parts_text := "answer 21" |}.
Proof. vm_compute. split_and!; reflexivity. Qed.

Lemma session_history_paired_witness :
  ∃ out turns message dropped kept,
    chat (new_ToolRegistry true offline) alwaysViewCart 11 ∅ world0
      cartQuestion 1 = Some out ∧
    historyOf ∅ "s1" = pairs turns ∧
    turns = (dropped ++ kept)%list ∧
    historyOf (out_sessions out) "s1"
    = pairs (kept ++ [(message, "I've processed your request. Please let me know if you need any clarification or would like to proceed with your order.")]) ∧
    length (historyOf (out_sessions out) "s1") = 2.
Proof.
  destruct (session_history_paired (Args := Args) (ToolResult := ToolResult)
              (World := World) ∅ served_start) as [_ H2].
  assert (∃ out,
            chat (new_ToolRegistry true offline) alwaysViewCart 11 ∅ world0
              cartQuestion 1 = Some out ∧
            out_response out
            = Json200 "I've processed your request. Please let me know if you need any clarification or would like to proceed with your order."
                "s1" 10) as (out & Hchat & Hresponse).
  { eexists. split; [vm_compute; reflexivity | reflexivity]. }
  destruct (H2 _ _ _ _ _ _ _ _ _ _ Hchat Hresponse)
    as (turns & message & dropped & kept & _ & Hold & Hsplit & Hnew & Hlen).
  exists out, turns, message, dropped, kept.
  split_and!; [exact Hchat | exact Hold | exact Hsplit | exact Hnew |].
  rewrite Hnew, length_pairs, Hlen.
  destruct turns as [|[m r] turns]; [reflexivity | discriminate Hold].
Defined.

(** ** The sessions of server.js *)

Section ServerSessionFacts.
Context {Remote : Type}.
Variable callTool :
  string → list (string * JsVal) → Remote → Remote * Exc ToolResult.
Local Open Scope nat_scope.

Lemma server_chat_history genAI fuel sessions w req now out :
  server_chat callTool genAI fuel sessions w req now = Some out →
  match sout_response out with
  | Server200 finalResponse sid _ =>
      ∃ message,
        sreq_message req = Some message ∧
        ∀ sessionId,
          serverHistoryOf (sout_sessions out) sessionId
          = if decide (sessionId = sid)
            then updateHistory (serverHistoryOf sessions sessionId) message
                   finalResponse
            else serverHistoryOf sessions sessionId
  | _ =>
      ∀ sessionId,
        serverHistoryOf (sout_sessions out) sessionId
        = serverHistoryOf sessions sessionId
  end.
Proof.
  unfold server_chat.
  set (sid := default ("session_" +:+ pretty now) (sreq_sessionId req)).
  destruct (JS.truthy (sreq_message req)) eqn:Hmessage; simpl;
    [|by intros [= <-]].
  destruct (sreq_message req) as [message|] eqn:Hreq; [|done]. simpl.
  set (session := default _ (sessions !! sid)).
  assert (Hsame : ∀ sessionId,
            serverHistoryOf (<[sid := session]> sessions) sessionId
            = serverHistoryOf sessions sessionId).
  { intros sessionId. unfold serverHistoryOf.
    destruct (decide (sid = sessionId)) as [<-|Hne].
    - rewrite lookup_insert_eq. subst session.
      by destruct (sessions !! sid).
    - by rewrite lookup_insert_ne. }
  destruct (genAI (ss_history session) [UserText message])
    as [response0|details]; [|by intros [= <-]].
  destruct (functionCallLoop _ _ _ _ _ _ _) as [st|details st|];
    [|by intros [= <-]|done].
  destruct (text (response st)) as [finalResponse|details];
    [|by intros [= <-]].
  intros [= <-]. simpl. exists message. split; [done|]. intros sessionId.
  destruct (decide (sessionId = sid)) as [->|Hne].
  - unfold serverHistoryOf at 1. rewrite lookup_insert_eq. simpl. f_equal.
    rewrite <-Hsame. unfold serverHistoryOf. by rewrite lookup_insert_eq.
  - rewrite <-Hsame. unfold serverHistoryOf. by rewrite !lookup_insert_ne.
Qed.

(** The histories of server.js obey the same rule: at most twenty whole
    turns. *)
Lemma servedByServer_pairs sessions sessionId :
  servedByServer callTool sessions →
  ∃ turns, serverHistoryOf sessions sessionId = pairs turns ∧
           length turns ≤ maxTurns.
Proof.
  intros Hserved. revert sessionId.
  induction Hserved
    as [|genAI fuel sessions w req now out _ IH Hchat|sessions sid _ IH];
    intros sessionId.
  - exists []. split; [done | simpl; lia].
  - destruct (IH sessionId) as (turns & Hturns & Hlen).
    apply server_chat_history in Hchat.
    destruct (sout_response out) as [finalResponse sid timestamp| |];
      [|exists turns; by rewrite Hchat..].
    destruct Hchat as (message & _ & Hnew). rewrite Hnew.
    destruct (decide (sessionId = sid)); [|by exists turns].
    eexists. rewrite Hturns. split; [apply updateHistory_pairs|].
    rewrite length_lastTurns. lia.
  - unfold serverHistoryOf, deleteSession.
    destruct (decide (sid = sessionId)) as [->|Hne].
    + rewrite lookup_delete_eq. exists []. split; [done | simpl; lia].
    + rewrite lookup_delete_ne by done. apply IH.
Qed.

End ServerSessionFacts.

(** * Menus *)

(** [getMenu] answers with the menu of the restaurant asked for, which has
    at least one category and no empty category, for the four restaurants
    that have a menu.  The table of menus is an object literal, so the
    twelve names that every object inherits are found too: for them the
    answer is a success whose menu is the inherited value.  For every other
    id [getMenu] fails with [Restaurant not found]; it never throws. *)
Theorem getMenu_known_restaurants (restaurantId : string) :
  match getMenu restaurantId with
  | Success (JS.Own menu) =>
      (restaurantId ∈ ["rest_001"; "rest_002"; "rest_003"; "rest_101"]) ∧
      menu_restaurantId menu = restaurantId ∧
      menu_categories menu ≠ [] ∧
      Forall (λ category, cat_items category ≠ []) (menu_categories menu)
  | Success (JS.Inherited key) =>
      key = restaurantId ∧
      (restaurantId
         ∈ ["constructor"; "__defineGetter__"; "__defineSetter__";
            "hasOwnProperty"; "__lookupGetter__"; "__lookupSetter__";
            "isPrototypeOf"; "propertyIsEnumerable"; "toString"; "valueOf";
            "__proto__"; "toLocaleString"])
  | Failure error =>
      (restaurantId ∉ ["rest_001"; "rest_002"; "rest_003"; "rest_101"]) ∧
      (restaurantId
         ∉ ["constructor"; "__defineGetter__"; "__defineSetter__";
            "hasOwnProperty"; "__lookupGetter__"; "__lookupSetter__";
            "isPrototypeOf"; "propertyIsEnumerable"; "toString"; "valueOf";
            "__proto__"; "toLocaleString"]) ∧
      error = RestaurantNotFoundError
  | Thrown _ => False
  end.
Proof.
  unfold getMenu, JS.get.
  destruct (getMenus !! restaurantId) as [menu|] eqn:Hmenu.
  - unfold getMenus in Hmenu. apply elem_of_list_to_map_2 in Hmenu.
    rewrite !elem_of_cons, elem_of_nil in Hmenu.
    destruct Hmenu as [[= -> ->]|[[= -> ->]|[[= -> ->]|[[= -> ->]|[]]]]];
      (split_and!; [rewrite !elem_of_cons; auto 10 | done | done
                   | repeat constructor; done]).
  - unfold getMenus in Hmenu. apply not_elem_of_list_to_map in Hmenu.
    destruct (JS.inherited restaurantId) eqn:Hinherited.
    + split; [done|]. by apply inherited_spec.
    + split_and!; [exact Hmenu | | done].
      intros Hin. apply inherited_spec in Hin. congruence.
Qed.

(** [findItem] returns an item of the menu with the wanted id, the first
    such item in menu order; it returns nothing exactly when no item of
    any category has that id. *)
Theorem findItem_first_match (categories : list Category) (itemId : string) :
  match findItem categories itemId with
  | Some item =>
      mi_id item = itemId ∧
      ∃ before after,
        menuItems categories = (before ++ item :: after)%list ∧
        Forall (λ earlier, mi_id earlier ≠ itemId) before
  | None =>
      ∀ category item,
        category ∈ categories → item ∈ cat_items category →
        mi_id item ≠ itemId
  end.
Proof.
  rewrite findItem_menuItems.
  assert (Hfind : ∀ items : list MenuItem,
    match List.find (λ i, String.eqb (mi_id i) itemId) items with
    | Some item =>
        mi_id item = itemId ∧
        ∃ before after, items = (before ++ item :: after)%list ∧
                        Forall (λ earlier, mi_id earlier ≠ itemId) before
    | None => Forall (λ item, mi_id item ≠ itemId) items
    end).
  { induction items as [|item items IH]; simpl; [constructor|].
    destruct (String.eqb_spec (mi_id item) itemId) as [Heq|Hne].
    - split; [done|]. by exists [], items.
    - destruct (List.find _ items) as [hit|].
      + destruct IH as (Hid & before & after & -> & Hbefore).
        split; [done|]. exists (item :: before), after.
        split; [done | by constructor].
      + by constructor. }
  specialize (Hfind (menuItems categories)).
  destruct (List.find _ (menuItems categories)) as [item|]; [exact Hfind|].
  intros category item Hcategory Hitem.
  rewrite Forall_forall in Hfind. apply Hfind.
  apply elem_of_menuItems. by exists category.
Qed.

(** * Carts *)

(** A successful [addToCart] appends one line that carries the requested
    item id, quantity and customizations, and the name and price of an
    item with that id on the menu of the named restaurant; the lines that
    were there stay, in order. *)
Theorem addToCart_line_from_menu (this : MockZomatoService)
    (sessionId restaurantId itemId : string) (quantity : JS.number)
    (customizations : option string) (payload : AddToCartPayload) :
  (addToCart this sessionId restaurantId itemId quantity customizations).2
  = Success payload →
  ∃ menu item,
    getMenu restaurantId = Success (JS.Own menu) ∧
    item ∈ menuItems (menu_categories menu) ∧
    mi_id item = itemId ∧
    cart_items (atc_cart payload)
    = (linesOf this sessionId
         ++ [ {| ci_itemId := itemId; ci_name := mi_name item;
                 ci_price := mi_price item; ci_quantity := quantity;
                 ci_customizations := customizations;
                 ci_subtotal := JS.mul (mi_price item) quantity |} ])%list ∧
    atc_message payload = addedMessage quantity (mi_name item).
Proof.
  rewrite addToCart_cases. unfold getMenu.
  destruct (JS.get getMenus restaurantId) as [[menu|key]|]; [|done..].
  destruct (findItem (menu_categories menu) itemId) as [item|] eqn:Hitem;
    [|done].
  cbn [snd]. intros [= <-]. exists menu, item.
  destruct (findItem_Some _ _ _ Hitem) as [Hid Hin].
  split_and!; [done | done | done | | done].
  cbn [atc_cart cart_items]. by rewrite linesOf_default.
Qed.

Lemma addToCart_line_from_menu_witness :
  ∃ menu item,
    getMenu "rest_003" = Success (JS.Own menu) ∧
    item ∈ menuItems (menu_categories menu) ∧
    mi_id item = "item_202" ∧
    mi_name item = "Paneer Paratha" ∧ mi_price item = JS.num 80.
Proof.
  destruct (addToCart_line_from_menu new_MockZomatoService "s1" "rest_003"
              "item_202" (JS.num 3) None
              (match (addToCart new_MockZomatoService "s1" "rest_003"
                        "item_202" (JS.num 3) None).2 with
               | Success payload => payload
               | _ => {| atc_message := []; atc_cart := emptyCart "" |}
               end) eq_refl)
    as (menu & item & Hmenu & Hitem & Hid & Hlines & Hmessage).
  exists menu, item. split_and!; [done..| |].
  - apply (f_equal (fmap ci_name)) in Hlines. vm_compute in Hlines.
    by injection Hlines.
  - apply (f_equal (fmap ci_price)) in Hlines. vm_compute in Hlines.
    by injection Hlines.
Defined.

(** [viewCart] after [addToCart]: when the call succeeded, the view is
    the cart the call returned, with no message; when it failed or threw,
    the view is what it was before the call, although the call may have
    stored an empty cart. *)
Theorem viewCart_after_addToCart (this : MockZomatoService)
    (sessionId restaurantId itemId : string) (quantity : JS.number)
    (customizations : option string) :
  let call :=
    addToCart this sessionId restaurantId itemId quantity customizations in
  match call.2 with
  | Success payload =>
      viewCart call.1 sessionId
      = Success {| vc_message := None; vc_cart := viewOf (atc_cart payload) |}
  | Failure _ | Thrown _ => viewCart call.1 sessionId = viewCart this sessionId
  end.
Proof.
  intros call. unfold call. rewrite addToCart_cases.
  assert (Hfail : viewCart
    {| restaurants := restaurants this;
       carts := <[sessionId :=
                    default (emptyCart restaurantId) (carts this !! sessionId)]>
                  (carts this);
       orders := orders this |} sessionId = viewCart this sessionId).
  { unfold viewCart. cbn [carts]. rewrite lookup_insert_eq.
    by destruct (carts this !! sessionId). }
  destruct (JS.get getMenus restaurantId) as [[menu|key]|];
    [|exact Hfail..].
  destruct (findItem (menu_categories menu) itemId) as [item|]; [|exact Hfail].
  cbn [fst snd]. unfold viewCart. cbn [carts]. rewrite lookup_insert_eq.
  cbn [cart_items]. by rewrite length_app, Nat.add_comm.
Qed.

(** On every service a program can reach, the total that [viewCart]
    shows is what the code's [reduce] gives on the lines it shows: the
    sum of their subtotals, added in double precision from 0 in line
    order, each subtotal being the double product of the line's price and
    quantity.  The message [Your cart is empty] comes exactly with a view
    without lines. *)
Theorem viewCart_total_is_sum (this : MockZomatoService) (sessionId : string) :
  reachable this →
  ∃ payload,
    viewCart this sessionId = Success payload ∧
    cv_items (vc_cart payload) = linesOf this sessionId ∧
    cv_total (vc_cart payload)
    = fold_left (λ sum line, JS.add sum (ci_subtotal line))
        (cv_items (vc_cart payload)) JS.zero ∧
    Forall (λ line,
              ci_subtotal line = JS.mul (ci_price line) (ci_quantity line))
      (cv_items (vc_cart payload)) ∧
    (vc_message payload = Some "Your cart is empty"
     ↔ cv_items (vc_cart payload) = []) ∧
    (vc_message payload = None ↔ cv_items (vc_cart payload) ≠ []).
Proof.
  intros (_ & Hcarts & _)%reachable_ok. unfold viewCart, linesOf.
  destruct (carts this !! sessionId) as [cart|] eqn:Hcart.
  - destruct (Hcarts _ _ Hcart) as [Hlines Htotal].
    destruct (cart_items cart) as [|line lines] eqn:Hitems; simpl.
    + eexists. split; [done|]. simpl. split_and!; done.
    + eexists. split; [done|]. simpl. rewrite Hitems.
      split_and!; [done | by rewrite Htotal | done | done | done].
  - eexists. split; [done|]. simpl. split_and!; done.
Qed.

Lemma viewCart_total_is_sum_witness :
  let add := CallAddToCart "s1" "rest_002" "item_101" (JS.num 2) None in
  ∃ payload,
    viewCart (after_all new_MockZomatoService [add; add]) "s1" = Success payload ∧
    cv_total (vc_cart payload) = JS.num 1120 ∧
    vc_message payload = None.
Proof.
  intros add.
  destruct (viewCart_total_is_sum (after_all new_MockZomatoService [add; add])
              "s1" (reachable_after_all _ _ reachable_new))
    as (payload & Hview & Hitems & Htotal & _ & _ & Hmessage).
  exists payload. split; [done|].
  rewrite Htotal, Hitems. split; [by vm_compute|].
  apply Hmessage. rewrite Hitems. by vm_compute.
Defined.

(** * Orders *)

(** Every order held by a service a program can reach is stored under its
    own id, has a status of the sequence and at least one line, each line
    has the double product of its price and quantity as subtotal, and the
    total is what the code's [reduce] gave on the cart: the sum of the
    subtotals, added in double precision from 0 in line order. *)
Theorem stored_orders_well_formed (this : MockZomatoService)
    (orderId : string) (order : Order) :
  reachable this →
  orders this !! orderId = Some order →
  ord_orderId order = orderId ∧
  ord_status order ∈ statuses ∧
  ord_items order ≠ [] ∧
  ord_total order
  = fold_left (λ sum line, JS.add sum (ci_subtotal line)) (ord_items order)
      JS.zero ∧
  Forall (λ line, ci_subtotal line = JS.mul (ci_price line) (ci_quantity line))
    (ord_items order).
Proof.
  intros (_ & _ & Horders)%reachable_ok Horder.
  destruct (Horders _ _ Horder) as (? & ? & ? & ? & ?). done.
Qed.

Lemma stored_orders_well_formed_witness :
  let this :=
    after_all new_MockZomatoService
      [CallAddToCart "s1" "rest_001" "item_004" (JS.num 2) None;
       CallPlaceOrder "s1" "123 Main St" "card" 17 "t";
       CallTrackOrder "ORD17"] in
  ∃ order,
    orders this !! "ORD17" = Some order ∧
    ord_orderId order = "ORD17" ∧
    ord_total order = JS.num 400.
Proof.
  intros this.
  assert (Horder : ∃ order, orders this !! "ORD17" = Some order).
  { eexists. vm_compute. reflexivity. }
  destruct Horder as [order Horder]. exists order.
  destruct (stored_orders_well_formed this "ORD17" order
              (reachable_after_all _ _ reachable_new) Horder)
    as (Hid & _ & _ & Htotal & _).
  split; [exact Horder|]. split; [exact Hid|].
  rewrite Htotal. vm_compute in Horder. injection Horder as <-. by vm_compute.
Defined.

Lemma after_orders_other this c orderId :
  ¬ placesUnder orderId c →
  (∀ o, c = CallTrackOrder o → o ≠ orderId) →
  orders (after this c) !! orderId = orders this !! orderId.
Proof.
  intros Hplace Htrack.
  destruct c as [| |s r i q cu| |s a p now iso|o]; simpl; try done.
  - rewrite addToCart_cases.
    destruct (JS.get getMenus r) as [[menu|key]|]; [|done..].
    by destruct (findItem (menu_categories menu) i).
  - unfold placeOrder. destruct (carts this !! s) as [cart|]; [|done].
    destruct (length (cart_items cart) =? 0)%nat; [done|].
    simpl. by rewrite lookup_insert_ne.
  - unfold trackOrder. destruct (orders this !! o); [|done].
    simpl. rewrite lookup_insert_ne; [done|]. by apply Htrack.
Qed.

(** No call removes an order: an order stays in the store through every
    sequence of calls.  When no [placeOrder] of the sequence draws the same
    id from the clock, the stored order keeps its items, total, address,
    payment method and time, and its status has advanced once for each
    [trackOrder] call on its id. *)
Theorem orders_never_lost (this : MockZomatoService) (cs : list Call)
    (orderId : string) (order : Order) :
  orders this !! orderId = Some order →
  is_Some (orders (after_all this cs) !! orderId) ∧
  (Forall (λ c, ¬ placesUnder orderId c) cs →
   orders (after_all this cs) !! orderId
   = Some (withStatus order
             (advanceTimes (tracked orderId cs) (ord_status order)))).
Proof.
  intros Horder. split.
  - revert this order Horder.
    induction cs as [|c cs IH]; intros this order Horder; simpl; [by eexists|].
    assert (is_Some (orders (after this c) !! orderId)) as [order' Horder'];
      [|by eapply IH].
    destruct c as [| |s r i q cu| |s a p now iso|o]; simpl; try by eexists.
    + rewrite addToCart_cases.
      destruct (JS.get getMenus r) as [[menu|key]|]; [|by eexists..].
      destruct (findItem (menu_categories menu) i); by eexists.
    + unfold placeOrder. destruct (carts this !! s) as [cart|]; [|by eexists].
      destruct (length (cart_items cart) =? 0)%nat; [by eexists|]. simpl.
      destruct (decide (makeOrderId now = orderId)) as [<-|Hne].
      * rewrite lookup_insert_eq. by eexists.
      * rewrite lookup_insert_ne by done. by eexists.
    + unfold trackOrder. destruct (orders this !! o) as [tracked|] eqn:Ho;
        [|by eexists]. simpl.
      destruct (decide (o = orderId)) as [->|Hne].
      * rewrite lookup_insert_eq. by eexists.
      * rewrite lookup_insert_ne by done. by eexists.
  - intros Hcs. revert this order Horder.
    induction Hcs as [|c cs Hc _ IH]; intros this order Horder.
    { simpl. by rewrite withStatus_same. }
    cbn [after_all fold_left]. fold (after_all (after this c) cs).
    assert (Hsame : ∀ o, c = CallTrackOrder o → o ≠ orderId →
              orders (after_all (after this c) cs) !! orderId
              = Some (withStatus order
                        (advanceTimes (tracked orderId cs) (ord_status order)))).
    { intros o Hcall Hne. apply IH. rewrite after_orders_other; [done..|].
      intros o' Ho'. congruence. }
    destruct c as [| |s r i q cu| |s a p now iso|o];
      try (apply IH; rewrite after_orders_other; done).
    destruct (decide (o = orderId)) as [->|Hne].
    + unfold tracked. cbn [List.filter]. rewrite String.eqb_refl.
      cbn [length]. fold (tracked orderId cs).
      cbn [after]. rewrite (trackOrder_known _ _ _ Horder). cbn [fst].
      erewrite IH; [|cbn [orders]; apply lookup_insert_eq].
      by destruct order.
    + unfold tracked. cbn [List.filter].
      destruct (String.eqb_spec o orderId) as [|_]; [done|].
      fold (tracked orderId cs). by eapply Hsame.
Qed.

Lemma orders_never_lost_witness :
  let this :=
    after_all new_MockZomatoService
      [CallAddToCart "s1" "rest_001" "item_004" (JS.num 2) None;
       CallPlaceOrder "s1" "123 Main St" "card" 17 "t"] in
  let later :=
    after_all this
      [CallTrackOrder "ORD17";
       CallAddToCart "s2" "rest_002" "item_101" (JS.num 1) None;
       CallPlaceOrder "s2" "9 Side St" "cash" 18 "t";
       CallTrackOrder "ORD18";
       CallTrackOrder "ORD17"] in
  (ord_status <$> orders later !! "ORD17") = Some "out_for_delivery" ∧
  (ord_total <$> orders later !! "ORD17") = Some (JS.num 400).
Proof.
  intros this later.
  assert (Horder : ∃ order, orders this !! "ORD17" = Some order ∧
                            ord_status order = "confirmed" ∧
                            ord_total order = JS.num 400).
  { eexists. split; [vm_compute; reflexivity|]. by split. }
  destruct Horder as (order & Horder & Hstatus & Htotal).
  destruct (orders_never_lost this
              [CallTrackOrder "ORD17";
               CallAddToCart "s2" "rest_002" "item_101" (JS.num 1) None;
               CallPlaceOrder "s2" "9 Side St" "cash" 18 "t";
               CallTrackOrder "ORD18";
               CallTrackOrder "ORD17"] "ORD17" order Horder) as [_ Hkept].
  unfold later. rewrite Hkept.
  - simpl. rewrite Hstatus, Htotal. split; [by vm_compute | done].
  - repeat constructor; simpl; try tauto. by vm_compute.
Defined.

(** * Sessions and carts *)

Lemma after_carts_other this c sessionId :
  cartSession c ≠ Some sessionId →
  carts (after this c) !! sessionId = carts this !! sessionId.
Proof.
  intros Hc. destruct c as [| |s r i q cu| |s a p now iso|o]; simpl; try done.
  - assert (s ≠ sessionId) as Hne by (intros ->; by apply Hc).
    rewrite addToCart_cases.
    destruct (JS.get getMenus r) as [[menu|key]|]; simpl;
      [destruct (findItem (menu_categories menu) i); simpl| |];
      by rewrite lookup_insert_ne.
  - assert (s ≠ sessionId) as Hne by (intros ->; by apply Hc).
    unfold placeOrder. destruct (carts this !! s) as [cart|]; [|done].
    destruct (length (cart_items cart) =? 0)%nat; [done|].
    simpl. by rewrite lookup_delete_ne.
  - unfold trackOrder. by destruct (orders this !! o).
Qed.

(** The carts of different sessions do not interfere: a sequence of calls
    none of which is an [addToCart] or a [placeOrder] of a given session
    leaves that session's cart, and what [viewCart] shows for it, as they
    were. *)
Theorem carts_are_per_session (this : MockZomatoService) (cs : list Call)
    (sessionId : string) :
  Forall (λ c, cartSession c ≠ Some sessionId) cs →
  carts (after_all this cs) !! sessionId = carts this !! sessionId ∧
  viewCart (after_all this cs) sessionId = viewCart this sessionId.
Proof.
  intros Hcs.
  assert (Hcarts : carts (after_all this cs) !! sessionId
                   = carts this !! sessionId).
  { revert this. induction Hcs as [|c cs Hc _ IH]; intros this; simpl; [done|].
    fold (after_all (after this c) cs). rewrite IH.
    by apply after_carts_other. }
  split; [done|]. unfold viewCart. by rewrite Hcarts.
Qed.

Lemma carts_are_per_session_witness :
  let this :=
    after_all new_MockZomatoService
      [CallAddToCart "alice" "rest_001" "item_001" (JS.num 2) None] in
  let later :=
    after_all this
      [CallAddToCart "bob" "rest_002" "item_101" (JS.num 1) None;
       CallPlaceOrder "bob" "2 Second St" "cash" 5 "t";
       CallTrackOrder "ORD5";
       CallViewCart "bob"] in
  viewCart later "alice" = viewCart this "alice" ∧
  (cart_total <$> carts later !! "alice") = Some (JS.num 160).
Proof.
  intros this later.
  destruct (carts_are_per_session this
              [CallAddToCart "bob" "rest_002" "item_101" (JS.num 1) None;
               CallPlaceOrder "bob" "2 Second St" "cash" 5 "t";
               CallTrackOrder "ORD5";
               CallViewCart "bob"] "alice") as [Hcarts Hview].
  { repeat constructor; simpl; congruence. }
  split; [exact Hview|]. unfold later. rewrite Hcarts. by vm_compute.
Defined.

(** A session cannot place two orders in a row: whatever the first
    [placeOrder] did, a second one on the same session, with no
    [addToCart] between them, fails with [Cart is empty]. *)
Theorem placeOrder_twice_fails (this : MockZomatoService)
    (sessionId address1 payment1 address2 payment2 : string)
    (now1 now2 : Z) (iso1 iso2 : string) :
  let first := placeOrder this sessionId address1 payment1 now1 iso1 in
  let second := placeOrder first.1 sessionId address2 payment2 now2 iso2 in
  second.2 = Failure EmptyCartError ∧ second.1 = first.1.
Proof.
  intros first second. unfold second, first, placeOrder.
  destruct (carts this !! sessionId) as [cart|] eqn:Hcart; simpl.
  - destruct (length (cart_items cart) =? 0)%nat eqn:Hlen; simpl.
    + by rewrite Hcart, Hlen.
    + by rewrite lookup_delete_eq.
  - by rewrite Hcart.
Qed.

(** After a placed order the session starts afresh: the next [addToCart]
    creates a new cart bound to the restaurant it names, holding at most
    the one line it adds, whose subtotal added to 0 is the total, and the
    placed order is not touched. *)
Theorem addToCart_after_placeOrder (this : MockZomatoService)
    (sessionId deliveryAddress paymentMethod : string) (now : Z)
    (isoNow : string) (placed : PlaceOrderPayload)
    (restaurantId itemId : string) (quantity : JS.number)
    (customizations : option string) :
  let ordered :=
    placeOrder this sessionId deliveryAddress paymentMethod now isoNow in
  let call :=
    addToCart ordered.1 sessionId restaurantId itemId quantity customizations in
  ordered.2 = Success placed →
  orders call.1 = orders ordered.1 ∧
  orders call.1 !! makeOrderId now = Some (po_order placed) ∧
  ∃ cart,
    carts call.1 !! sessionId = Some cart ∧
    cart_restaurantId cart = restaurantId ∧
    match call.2 with
    | Success payload =>
        atc_cart payload = cart ∧
        ∃ line, cart_items cart = [line] ∧ ci_itemId line = itemId ∧
                cart_total cart = JS.add JS.zero (ci_subtotal line)
    | Failure _ | Thrown _ => cart = emptyCart restaurantId
    end.
Proof.
  intros ordered call Hplaced.
  assert (Hnone : carts ordered.1 !! sessionId = None).
  { revert Hplaced. unfold ordered, placeOrder.
    destruct (carts this !! sessionId) as [cart|]; [|done].
    destruct (length (cart_items cart) =? 0)%nat; [done|].
    intros _. simpl. apply lookup_delete_eq. }
  assert (Horder : orders ordered.1 !! makeOrderId now = Some (po_order placed)).
  { revert Hplaced. unfold ordered, placeOrder.
    destruct (carts this !! sessionId) as [cart|]; [|done].
    destruct (length (cart_items cart) =? 0)%nat; [done|].
    intros [= <-]. simpl. apply lookup_insert_eq. }
  unfold call. rewrite addToCart_cases. rewrite Hnone. cbn [default].
  destruct (JS.get getMenus restaurantId) as [[menu|key]|];
    cbn [fst snd orders carts].
  2,3:(split_and!; [done | done |]; eexists;
       split; [apply lookup_insert_eq | done]).
  destruct (findItem (menu_categories menu) itemId) as [item|];
    cbn [fst snd orders carts].
  2:{ split_and!; [done | done |]. eexists.
      split; [apply lookup_insert_eq | done]. }
  split_and!; [done | done |]. eexists.
  split; [apply lookup_insert_eq|]. split; [done|]. split; [done|].
  eexists. split; [done|]. split; [done|].
  reflexivity.
Qed.

Lemma addToCart_after_placeOrder_witness :
  let this :=
    after_all new_MockZomatoService
      [CallAddToCart "s1" "rest_001" "item_004" (JS.num 2) None;
       CallPlaceOrder "s1" "123 Main St" "card" 17 "t";
       CallAddToCart "s1" "rest_101" "item_301" (JS.num 1) None] in
  (cart_restaurantId <$> carts this !! "s1") = Some "rest_101" ∧
  (ord_total <$> orders this !! "ORD17") = Some (JS.num 400).
Proof.
  intros this.
  pose (before := after_all new_MockZomatoService
                    [CallAddToCart "s1" "rest_001" "item_004" (JS.num 2) None]).
  assert (Hplaced : ∃ placed,
            (placeOrder before "s1" "123 Main St" "card" 17 "t").2
            = Success placed ∧ ord_total (po_order placed) = JS.num 400).
  { eexists. split; [vm_compute; reflexivity | reflexivity]. }
  destruct Hplaced as (placed & Hplaced & Htotal).
  destruct (addToCart_after_placeOrder before "s1" "123 Main St" "card" 17 "t"
              placed "rest_101" "item_301" (JS.num 1) None Hplaced)
    as (_ & Horder & cart & Hcart & Hbound & _).
  change (after_all new_MockZomatoService _) with
    (addToCart (placeOrder before "s1" "123 Main St" "card" 17 "t").1
       "s1" "rest_101" "item_301" (JS.num 1) None).1 in this.
  unfold this. split.
  - rewrite Hcart. simpl. by rewrite Hbound.
  - change "ORD17" with (makeOrderId 17). rewrite Horder. simpl.
    by rewrite Htotal.
Defined.

(** [trackOrder] advances the status before it reports it, so it never
    reports [confirmed]: the first call on a newly placed order answers
    [preparing], with the address of the order and the total of the cart
    it was placed from. *)
Theorem trackOrder_never_reports_confirmed (this : MockZomatoService)
    (orderId : string) (payload : TrackPayload) :
  reachable this →
  (trackOrder this orderId).2 = Success payload →
  tp_status payload ∈ ["preparing"; "out_for_delivery"; "delivered"] ∧
  tp_orderId payload = orderId ∧
  (∀ order, orders this !! orderId = Some order →
     ord_status order = "confirmed" → tp_status payload = "preparing").
Proof.
  intros (_ & _ & Horders)%reachable_ok.
  destruct (orders this !! orderId) as [order|] eqn:Horder.
  2:{ unfold trackOrder. by rewrite Horder. }
  rewrite (trackOrder_known _ _ _ Horder). intros [= <-]. simpl.
  destruct (Horders _ _ Horder) as (Hid & Hstatus & _).
  split_and!; [|done|].
  - destruct (advance_cases _ Hstatus)
      as [[_ ->]|[[_ ->]|[[_ ->]|[_ ->]]]]; rewrite !elem_of_cons; auto.
  - intros ? [= <-] ->. done.
Qed.

Lemma trackOrder_never_reports_confirmed_witness :
  let this :=
    after_all new_MockZomatoService
      [CallAddToCart "s1" "rest_001" "item_004" (JS.num 2) None;
       CallPlaceOrder "s1" "123 Main St" "card" 17 "t"] in
  ∃ payload,
    (trackOrder this "ORD17").2 = Success payload ∧
    tp_status payload = "preparing" ∧ tp_total payload = JS.num 400.
Proof.
  intros this.
  assert (Htrack : ∃ payload, (trackOrder this "ORD17").2 = Success payload ∧
                              tp_total payload = JS.num 400).
  { eexists. split; [vm_compute; reflexivity | reflexivity]. }
  destruct Htrack as (payload & Htrack & Htotal).
  assert (Horder : ∃ order, orders this !! "ORD17" = Some order ∧
                            ord_status order = "confirmed").
  { eexists. split; [vm_compute; reflexivity | reflexivity]. }
  destruct Horder as (order & Horder & Hstatus).
  destruct (trackOrder_never_reports_confirmed this "ORD17" payload
              (reachable_after_all _ _ reachable_new) Htrack)
    as (_ & _ & Hfirst).
  exists payload. split; [exact Htrack|]. split; [|exact Htotal].
  exact (Hfirst order Horder Hstatus).
Defined.


(** * Search *)

Lemma restaurantsAt_region this key :
  reachable this →
  JS.inherited key = false →
  ∃ region rs,
    region ∈ ["vadodara"; "mumbai"; "delhi"] ∧
    (generateMockRestaurants !! key = None → region = "vadodara") ∧
    generateMockRestaurants !! region = Some rs ∧
    restaurantsAt this key = Some (JS.Own rs).
Proof.
  intros Hreach Hown. rewrite (restaurantsAt_reachable _ _ Hreach), Hown.
  destruct (generateMockRestaurants !! key) as [rs|] eqn:Hkey.
  - pose proof Hkey as Hin. unfold generateMockRestaurants in Hin.
    apply elem_of_list_to_map_2 in Hin.
    rewrite !elem_of_cons, elem_of_nil in Hin.
    destruct Hin as [[= -> ->]|[[= -> ->]|[[= -> ->]|[]]]];
      [exists "vadodara" | exists "mumbai" | exists "delhi"];
      eexists; (split; [rewrite !elem_of_cons; auto|]);
      (split; [intros Hnone; congruence|]); (split; [exact Hkey | done]).
  - exists "vadodara". eexists. split; [left|]. split; [done|].
    split; reflexivity.
Qed.

Lemma restaurantsAt_all this key rs r :
  reachable this → restaurantsAt this key = Some (JS.Own rs) →
  r ∈ rs → r ∈ allRestaurants.
Proof.
  intros Hreach. rewrite (restaurantsAt_reachable _ _ Hreach).
  unfold allRestaurants. rewrite !elem_of_app.
  destruct (generateMockRestaurants !! key) as [rs'|] eqn:Hkey.
  - intros [= <-] Hr. unfold generateMockRestaurants in Hkey.
    apply elem_of_list_to_map_2 in Hkey.
    rewrite !elem_of_cons, elem_of_nil in Hkey.
    destruct Hkey as [[= -> ->]|[[= -> ->]|[[= -> ->]|[]]]]; auto.
  - destruct (JS.inherited key); [done|]. intros [= <-] Hr. auto.
Qed.

(** What a search finds does not depend on the carts and orders of the
    service: on every service a program can reach, every search answers as
    on a new service. *)
Theorem search_ignores_carts_and_orders (this : MockZomatoService)
    (location : string) (cuisine priceRange : option string) :
  reachable this →
  searchRestaurants this location cuisine priceRange
  = searchRestaurants new_MockZomatoService location cuisine priceRange.
Proof.
  intros Hrest%reachable_restaurants.
  unfold searchRestaurants, restaurantsAt. by rewrite Hrest.
Qed.

Lemma search_ignores_carts_and_orders_witness :
  let this :=
    after_all new_MockZomatoService
      [CallAddToCart "s1" "rest_001" "item_004" (JS.num 2) None;
       CallPlaceOrder "s1" "123 Main St" "card" 17 "t";
       CallTrackOrder "ORD17"] in
  rest_id <$> found (searchRestaurants this "Delhi" (Some "biryani") None)
  = ["rest_201"].
Proof.
  intros this.
  rewrite (search_ignores_carts_and_orders this "Delhi" (Some "biryani") None
             (reachable_after_all _ _ reachable_new)).
  by vm_compute.
Defined.

(** Search and menus disagree.  For an ASCII location whose normalised
    form is not the name of an inherited property, the unfiltered search
    of a reachable service lists at least one restaurant, and among those
    it lists there is one whose menu [getMenu] does not find.  For the two
    locations that are such names, [constructor] and [__proto__], the
    search succeeds with the inherited value, which lists no restaurant. *)
Theorem search_lists_restaurant_without_menu (this : MockZomatoService)
    (location : string) :
  reachable this →
  JS.isAscii location = true →
  let key := JS.stripWhitespace (JS.toLowerCase location) in
  (key ∉ inheritedLocations →
   ∃ rs r,
     searchRestaurants this location None None
     = Success {| sp_location := location; sp_count := Some (length rs);
                  sp_restaurants := JS.Own rs |} ∧
     r ∈ rs ∧
     getMenu (rest_id r) = Failure RestaurantNotFoundError) ∧
  (key ∈ inheritedLocations →
   searchRestaurants this location None None
   = Success {| sp_location := location; sp_count := JS.lengthOf key;
                sp_restaurants := JS.Inherited key |}).
Proof.
  intros Hreach _ key. split.
  - intros Hkey.
    assert (Hown : JS.inherited key = false).
    { destruct (JS.inherited key) eqn:H; [|done].
      by apply inherited_location in H. }
    destruct (restaurantsAt_region this key Hreach Hown)
      as (region & rs & Hregion & _ & Hrs & Hat).
    exists rs.
    assert (Hsearch : searchRestaurants this location None None
      = Success {| sp_location := location; sp_count := Some (length rs);
                   sp_restaurants := JS.Own rs |}).
    { unfold searchRestaurants. fold key. by rewrite Hat. }
    rewrite !elem_of_cons, elem_of_nil in Hregion.
    destruct Hregion as [->|[->|[->|[]]]];
      vm_compute in Hrs; injection Hrs as <-; eexists;
      (split; [exact Hsearch|]); (split; [|]);
      [do 3 right; left | | right; left | | left |]; reflexivity.
  - intros Hkey. unfold searchRestaurants. fold key.
    rewrite (restaurantsAt_reachable _ _ Hreach).
    assert (generateMockRestaurants !! key = None) as ->.
    { unfold inheritedLocations in Hkey.
      rewrite !elem_of_cons, elem_of_nil in Hkey.
      by destruct Hkey as [->|[->|[]]]. }
    apply inherited_location in Hkey. fold key in Hkey. by rewrite Hkey.
Qed.

Lemma search_lists_restaurant_without_menu_witness :
  ∃ rs r,
    searchRestaurants new_MockZomatoService "Delhi" None None
    = Success {| sp_location := "Delhi"; sp_count := Some (length rs);
                 sp_restaurants := JS.Own rs |} ∧
    r ∈ rs ∧
    getMenu (rest_id r) = Failure RestaurantNotFoundError.
Proof.
  apply (search_lists_restaurant_without_menu new_MockZomatoService "Delhi"
           reachable_new eq_refl).
  unfold inheritedLocations. rewrite !elem_of_cons, elem_of_nil.
  intros [|[|[]]]; discriminate.
Defined.

(** The location is matched up to letter case and whitespace, and the
    cuisine up to letter case: lower-casing the location, removing its
    whitespace, or lower-casing the cuisine does not change the restaurants
    found. *)
Theorem search_is_case_insensitive (this : MockZomatoService)
    (location : string) (cuisine priceRange : option string) :
  let result := found (searchRestaurants this location cuisine priceRange) in
  found (searchRestaurants this (JS.toLowerCase location) cuisine priceRange)
  = result ∧
  found (searchRestaurants this (JS.stripWhitespace location) cuisine priceRange)
  = result ∧
  found (searchRestaurants this location (JS.toLowerCase <$> cuisine) priceRange)
  = result.
Proof.
  intros result. unfold result. rewrite !found_searchRestaurants.
  split_and!.
  - by rewrite toLowerCase_idem.
  - by rewrite <-stripWhitespace_toLowerCase, stripWhitespace_idem,
      stripWhitespace_toLowerCase.
  - destruct (restaurantsAt this _) as [[rs|key]|]; [|done..].
    destruct cuisine as [c|]; simpl; [|done]. by rewrite toLowerCase_idem.
Qed.

(** The price range is matched exactly.  With a non-empty price range
    other than [budget], [mid-range] and [premium], for instance one of
    these in another letter case, the search of a reachable service finds
    no restaurant at any ASCII location whose normalised form is not the
    name of an inherited property; at [constructor] and [__proto__] it
    throws a [TypeError]. *)
Theorem search_priceRange_is_exact (this : MockZomatoService)
    (location : string) (cuisine : option string) (priceRange : string) :
  reachable this →
  JS.isAscii location = true →
  priceRange ≠ "" →
  priceRange ∉ priceRanges →
  let key := JS.stripWhitespace (JS.toLowerCase location) in
  (key ∉ inheritedLocations →
   searchRestaurants this location cuisine (Some priceRange)
   = Success {| sp_location := location; sp_count := Some 0%nat;
                sp_restaurants := JS.Own [] |}) ∧
  (key ∈ inheritedLocations →
   searchRestaurants this location cuisine (Some priceRange)
   = Thrown "restaurants.filter is not a function").
Proof.
  intros Hreach _ Hnonempty Hother key.
  assert (Hall : Forall (λ r, rest_priceRange r ∈ priceRanges) allRestaurants).
  { unfold priceRanges. repeat constructor; rewrite !elem_of_cons; auto. }
  rewrite Forall_forall in Hall.
  assert (Hnone : ∀ rs : list Restaurant,
            (∀ r, r ∈ rs → r ∈ allRestaurants) →
            List.filter (λ r, String.eqb (rest_priceRange r) priceRange) rs = []).
  { induction rs as [|r rs IH]; intros Hrs; simpl; [done|].
    destruct (String.eqb_spec (rest_priceRange r) priceRange) as [Heq|_].
    - destruct Hother. rewrite <-Heq. apply Hall, Hrs. left.
    - apply IH. intros r' Hr'. apply Hrs. by right. }
  assert (Htruthy : JS.truthy (Some priceRange) = true).
  { cbn [JS.truthy]. by destruct (String.eqb_spec priceRange ""). }
  split.
  - intros Hkey.
    assert (Hown : JS.inherited key = false).
    { destruct (JS.inherited key) eqn:H; [|done].
      by apply inherited_location in H. }
    destruct (restaurantsAt_region this key Hreach Hown)
      as (region & rs & _ & _ & _ & Hat).
    unfold searchRestaurants. fold key. rewrite Hat.
    unfold filterByPriceRange. rewrite Htruthy.
    rewrite Hnone; [done|]. intros r Hr.
    apply (restaurantsAt_all this key rs); [done | done |].
    rewrite filterByCuisine_filter in Hr.
    apply list_elem_of_In, List.filter_In in Hr as [Hr _].
    by apply list_elem_of_In.
  - intros Hkey. unfold searchRestaurants. fold key.
    rewrite (restaurantsAt_reachable _ _ Hreach).
    assert (generateMockRestaurants !! key = None) as ->.
    { unfold inheritedLocations in Hkey.
      rewrite !elem_of_cons, elem_of_nil in Hkey.
      by destruct Hkey as [->|[->|[]]]. }
    apply inherited_location in Hkey. fold key in Hkey. rewrite Hkey, Htruthy.
    by rewrite orb_true_r.
Qed.

Lemma search_priceRange_is_exact_witness :
  searchRestaurants new_MockZomatoService "Vadodara" None (Some "Budget")
  = Success {| sp_location := "Vadodara"; sp_count := Some 0%nat;
               sp_restaurants := JS.Own [] |} ∧
  searchRestaurants new_MockZomatoService "Constructor" None (Some "Budget")
  = Thrown "restaurants.filter is not a function".
Proof.
  assert (Hother : "Budget" ∉ priceRanges).
  { unfold priceRanges. rewrite !elem_of_cons, elem_of_nil.
    intros [|[|[|[]]]]; discriminate. }
  split.
  - apply (search_priceRange_is_exact new_MockZomatoService "Vadodara" None
             "Budget" reachable_new eq_refl); [done | done |].
    unfold inheritedLocations. rewrite !elem_of_cons, elem_of_nil.
    intros [|[|[]]]; discriminate.
  - apply (search_priceRange_is_exact new_MockZomatoService "Constructor" None
             "Budget" reachable_new eq_refl); [done | done |].
    unfold inheritedLocations. simpl. left.
Defined.


(** * The listing of the tools *)

Section ListingFacts.
Context {Args ToolResult World : Type}.
Implicit Types (tools : ToolRegistry Args ToolResult World).

Lemma JsMap_set_elem {V} (m : JsMap.t V) k v k' v' :
  (k', v') ∈ JsMap.set m k v → (k', v') = (k, v) ∨ (k', v') ∈ m.
Proof.
  induction m as [|[k0 v0] m IH]; simpl.
  - intros ->%list_elem_of_singleton. by left.
  - destruct (String.eqb_spec k0 k) as [->|Hne].
    + intros [->|Hin]%elem_of_cons; [by left | right; by right].
    + intros [->|Hin]%elem_of_cons; [right; left|].
      destruct (IH Hin) as [->|Hm]; [by left | right; by right].
Qed.

Lemma JsMap_elem_get {V} (m : JsMap.t V) k v :
  NoDup (JsMap.keys m) → (k, v) ∈ m → JsMap.get m k = Some v.
Proof.
  unfold JsMap.keys. induction m as [|[k0 v0] m IH]; simpl.
  - by intros _ ?%elem_of_nil.
  - rewrite NoDup_cons. intros [Hk0 Hm] [[= -> ->]|Hin]%elem_of_cons.
    + by rewrite String.eqb_refl.
    + destruct (String.eqb_spec k0 k) as [->|Hne]; [|by apply IH].
      destruct Hk0. apply list_elem_of_fmap. by exists (k, v).
Qed.

Lemma registered_named tools toolName definition :
  registered tools → (toolName, definition) ∈ tools → name definition = toolName.
Proof.
  intros Hreg. revert toolName definition.
  induction Hreg as [|tools d _ IH]; intros toolName definition.
  - by intros ?%elem_of_nil.
  - intros [[= -> ->]|Hin]%JsMap_set_elem; [done | by apply IH].
Qed.

(** What is advertised is what is run.  For a registry built by
    [registerTool], [getGeminiTools] declares one function for each
    registered name, in registration order and without repetition, and
    each declaration carries the description and the schema of the very
    definition that [executeTool] runs under that name. *)
Theorem getGeminiTools_lists_the_registry tools :
  registered tools →
  fd_name <$> getGeminiTools tools = JsMap.keys tools ∧
  NoDup (fd_name <$> getGeminiTools tools) ∧
  ∀ declaration,
    declaration ∈ getGeminiTools tools →
    ∃ tool,
      JsMap.get tools (fd_name declaration) = Some tool ∧
      fd_description declaration = description tool ∧
      fd_parameters declaration = inputSchema tool ∧
      ∀ args ctx w,
        executeTool tools (fd_name declaration) args ctx w
        = handler tool args ctx w.
Proof.
  intros Hreg.
  assert (Hnames : fd_name <$> getGeminiTools tools = JsMap.keys tools).
  { unfold getGeminiTools, JsMap.keys.
    pose proof (registered_named tools) as Hnamed.
    specialize (λ toolName definition, Hnamed toolName definition Hreg).
    clear Hreg. induction tools as [|[k d] tools IH]; simpl; [done|].
    f_equal.
    - apply Hnamed. left.
    - apply IH. intros toolName definition Hin. apply Hnamed. by right. }
  split; [done|]. split; [rewrite Hnames; by apply registered_NoDup|].
  intros declaration Hin. unfold getGeminiTools in Hin.
  apply list_elem_of_fmap in Hin as ([k tool] & -> & Hin). simpl.
  exists tool.
  assert (Hget : JsMap.get tools (name tool) = Some tool).
  { apply JsMap_elem_get; [by apply registered_NoDup|].
    by rewrite (registered_named tools k tool Hreg Hin). }
  split_and!; [done | done | done |].
  intros args ctx w. unfold executeTool. by rewrite Hget.
Qed.

End ListingFacts.

Lemma getGeminiTools_lists_the_registry_witness :
  fd_name <$> getGeminiTools (new_ToolRegistry true offline) = toolNames ∧
  NoDup (fd_name <$> getGeminiTools (new_ToolRegistry true offline)).
Proof.
  assert (Hreg : registered (new_ToolRegistry true offline)).
  { unfold new_ToolRegistry, registerDefaultTools. repeat constructor. }
  destruct (getGeminiTools_lists_the_registry _ Hreg) as (Hnames & Hnodup & _).
  split; [|exact Hnodup]. rewrite Hnames. reflexivity.
Defined.

(** * The default tools *)

Section DefaultToolFacts.
Variable callMCP :
  string → list (string * JsVal) → World → World * Exc ToolResult.

Lemma default_tool_cases (USE_MOCK : bool) toolName :
  let tools := new_ToolRegistry USE_MOCK callMCP in
  (toolName = "search_restaurants" ∧
   JsMap.get tools toolName = Some (search_restaurants USE_MOCK callMCP)) ∨
  (toolName = "get_menu" ∧
   JsMap.get tools toolName = Some (get_menu USE_MOCK callMCP)) ∨
  (toolName = "add_to_cart" ∧
   JsMap.get tools toolName = Some (add_to_cart USE_MOCK callMCP)) ∨
  (toolName = "view_cart" ∧
   JsMap.get tools toolName = Some (view_cart USE_MOCK callMCP)) ∨
  (toolName = "place_order" ∧
   JsMap.get tools toolName = Some (place_order USE_MOCK callMCP)) ∨
  (toolName = "track_order" ∧
   JsMap.get tools toolName = Some (track_order USE_MOCK callMCP)) ∨
  ((toolName ∉ toolNames) ∧ JsMap.get tools toolName = None).
Proof.
  intros tools. unfold tools, new_ToolRegistry, registerDefaultTools, registerTool.
  cbn [JsMap.set JsMap.empty name search_restaurants get_menu add_to_cart
       view_cart place_order track_order String.eqb Ascii.eqb Bool.eqb].
  cbn [JsMap.get].
  destruct (String.eqb_spec "search_restaurants" toolName) as [<-|H1]; [by left|].
  destruct (String.eqb_spec "get_menu" toolName) as [<-|H2]; [right; by left|].
  destruct (String.eqb_spec "add_to_cart" toolName) as [<-|H3];
    [do 2 right; by left|].
  destruct (String.eqb_spec "view_cart" toolName) as [<-|H4];
    [do 3 right; by left|].
  destruct (String.eqb_spec "place_order" toolName) as [<-|H5];
    [do 4 right; by left|].
  destruct (String.eqb_spec "track_order" toolName) as [<-|H6];
    [do 5 right; by left|].
  do 6 right. split; [|done]. unfold toolNames.
  rewrite !not_elem_of_cons. split_and!; try done. apply not_elem_of_nil.
Qed.

End DefaultToolFacts.

(** * A turn of POST /chat and the world *)

Section TurnFacts.
Context {Args ToolResult World : Type}.
Implicit Types (tools : ToolRegistry Args ToolResult World).
Implicit Types (genAI : GenerativeModel Args ToolResult).
Implicit Types (st : LoopState Args ToolResult World).

Local Open Scope nat_scope.

Lemma loopBody_world execute genAI h ctx st functionCall :
  let w' :=
    (execute (fc_name functionCall) (fc_args functionCall) ctx (world st)).1 in
  match loopBody execute genAI h ctx st functionCall with
  | inl st' | inr (_, st') =>
      world st' = w' ∧ executed st' = (executed st ++ [functionCall])%list
  end.
Proof.
  unfold loopBody.
  destruct (execute _ _ _ _) as [w1 [result|message]]; simpl; [|done].
  by destruct (genAI h _).
Qed.

(** A property of the world that every tool call keeps is kept by the
    loop, however it ends. *)
Lemma loop_world_invariant execute cap genAI h ctx (P : World → Prop) fuel st :
  (∀ toolName args w, P w → P (execute toolName args ctx w).1) →
  P (world st) →
  match functionCallLoop execute cap genAI h ctx fuel st with
  | Exited st' | Raised _ st' => P (world st')
  | OutOfFuel => True
  end.
Proof.
  intros Hstep. revert st. induction fuel as [|fuel IH]; intros st HP; simpl;
    [done|].
  destruct (firstFunctionCall (response st)) as [functionCall|]; [|done].
  destruct (callCount st <? cap); [|done].
  pose proof (loopBody_world execute genAI h ctx st functionCall) as Hbody.
  destruct (loopBody execute genAI h ctx st functionCall) as [st'|[message st']];
    simpl in Hbody; destruct Hbody as [Hworld _].
  - apply IH. rewrite Hworld. by apply Hstep.
  - rewrite Hworld. by apply Hstep.
Qed.

Lemma loop_replay execute cap genAI h ctx w0 fuel st :
  world st = replay execute ctx w0 (executed st) →
  match functionCallLoop execute cap genAI h ctx fuel st with
  | Exited st' | Raised _ st' =>
      world st' = replay execute ctx w0 (executed st')
  | OutOfFuel => True
  end.
Proof.
  revert st. induction fuel as [|fuel IH]; intros st Hst; simpl; [done|].
  destruct (firstFunctionCall (response st)) as [functionCall|]; [|done].
  destruct (callCount st <? cap); [|done].
  pose proof (loopBody_world execute genAI h ctx st functionCall) as Hbody.
  assert (Hnext : ∀ st',
    world st' = (execute (fc_name functionCall) (fc_args functionCall) ctx
                   (world st)).1 →
    executed st' = (executed st ++ [functionCall])%list →
    world st' = replay execute ctx w0 (executed st')).
  { intros st' -> ->. unfold replay. rewrite fold_left_app. simpl.
    by rewrite Hst. }
  destruct (loopBody execute genAI h ctx st functionCall) as [st'|[message st']];
    simpl in Hbody; destruct Hbody as [Hworld Hexecuted].
  - apply IH. by apply Hnext.
  - by apply Hnext.
Qed.

(** The service changes only through the tool calls of the turn: the
    world after a turn is the world before it with the calls that were
    run applied in order, each with the session id of the turn as its
    context; a turn that runs no tool leaves the world as it was. *)
Theorem chat_world_is_replay tools genAI (fuel : nat)
    (sessions : gmap string Session) (w : World) (req : ChatRequest)
    (now : Z) (out : Outcome Args World) :
  chat tools genAI fuel sessions w req now = Some out →
  out_world out
  = replay (executeTool tools)
      {| ctx_sessionId := sessionIdOf (req_sessionId req) now |} w
      (out_executed out) ∧
  (out_executed out = [] → out_world out = w).
Proof.
  intros Hchat.
  assert (Hreplay : out_world out
    = replay (executeTool tools)
        {| ctx_sessionId := sessionIdOf (req_sessionId req) now |} w
        (out_executed out)).
  { revert Hchat. unfold chat, sessionIdOf.
    destruct (negb (JS.truthy (req_message req))); [by intros [= <-]|].
    match goal with
    | |- context [genAI ?h ?parts] => destruct (genAI h parts) as [r|details]
    end; [|by intros [= <-]].
    match goal with
    | |- context [functionCallLoop ?e ?c ?g ?h ?ctx ?f ?st] =>
        pose proof (loop_replay e c g h ctx w f st eq_refl) as Hloop;
        destruct (functionCallLoop e c g h ctx f st) as [st'|message st'|]
    end; [by intros [= <-]..|done]. }
  split; [done|]. intros Hnone. by rewrite Hreplay, Hnone.
Qed.

End TurnFacts.

Lemma chat_world_is_replay_witness :
  ∃ out,
    chat (new_ToolRegistry true offline) addThenOrder 11 ∅ world0
      orderRequest 0 = Some out ∧
    length (out_executed out) = 2 ∧
    ticks (out_world out) = 1 ∧
    (Inline.ord_total <$> Inline.orders (mockService (out_world out)) !! "ORD0")
    = Some (JS.num 160).
Proof.
  assert (Hout : ∃ out,
            chat (new_ToolRegistry true offline) addThenOrder 11 ∅ world0
              orderRequest 0 = Some out).
  { eexists. vm_compute. reflexivity. }
  destruct Hout as (out & Hout). exists out.
  destruct (chat_world_is_replay _ _ _ _ _ _ _ _ Hout) as [Hworld _].
  split; [exact Hout|]. rewrite Hworld. clear Hworld.
  vm_compute in Hout. injection Hout as <-.
  split_and!; vm_compute; reflexivity.
Defined.

(** * The default tools on the mock service *)

Section MockToolFacts.
Variable callMCP :
  string → list (string * JsVal) → World → World * Exc ToolResult.

Lemma returned_world {A} (wrap : Result A → ToolResult) w r :
  (returned wrap w r).1 = w.
Proof. by destruct r. Qed.

Lemma inline_after_carts_other this c sessionId :
  Inline.cartSession c ≠ sessionId →
  Inline.carts (Inline.after this c) !! sessionId
  = Inline.carts this !! sessionId.
Proof.
  intros Hc. destruct c as [s r i q cu|s a p now]; simpl in *.
  - by rewrite lookup_insert_ne.
  - unfold Inline.placeOrder.
    destruct (Inline.carts this !! s) as [cart|]; [|done].
    destruct (length (Inline.cart_items cart) =? 0)%nat; [done|].
    simpl. by rewrite lookup_delete_ne.
Qed.

(** One call of a default tool in mock mode: the clock is kept, and the
    object [mockService] is as it was or has gone through one call of
    [addToCart] or [placeOrder] on the session of the context. *)
Lemma mock_tool_step toolName args ctx w :
  let w' :=
    (executeTool (new_ToolRegistry true callMCP) toolName args ctx w).1 in
  clock w' = clock w ∧
  (mockService w' = mockService w ∨
   ∃ c, Inline.cartSession c = ctx_sessionId ctx ∧
        mockService w' = Inline.after (mockService w) c).
Proof.
  intros w'. unfold w', executeTool.
  destruct (default_tool_cases callMCP true toolName)
    as [[-> ->]|[[-> ->]|[[-> ->]|[[-> ->]|[[-> ->]|[[-> ->]|[_ ->]]]]]]];
    cbn [handler search_restaurants get_menu add_to_cart view_cart
         place_order track_order].
  - rewrite returned_world. auto.
  - rewrite returned_world. auto.
  - destruct (Inline.addToCart (mockService w) (ctx_sessionId ctx)
                (arg_restaurantId args) (arg_itemId args) (arg_quantity args)
                (arg_customizations args)) as [s result] eqn:Hcall.
    rewrite returned_world. split; [done|]. right.
    exists (Inline.CallAddToCart (ctx_sessionId ctx) (arg_restaurantId args)
              (arg_itemId args) (arg_quantity args) (arg_customizations args)).
    split; [done|]. cbn [Inline.after mockService withService].
    by rewrite Hcall.
  - rewrite returned_world. auto.
  - destruct (Inline.placeOrder (mockService w) (ctx_sessionId ctx)
                (arg_deliveryAddress args) (arg_paymentMethod args)
                (clock w (ticks w)).1) as [s result] eqn:Hcall.
    rewrite returned_world. destruct (is_success result); [|auto].
    split; [done|]. right.
    exists (Inline.CallPlaceOrder (ctx_sessionId ctx) (arg_deliveryAddress args)
              (arg_paymentMethod args) (clock w (ticks w)).1).
    split; [done|]. cbn [Inline.after mockService withService tick].
    by rewrite Hcall.
  - rewrite returned_world. auto.
  - simpl. auto.
Qed.


(** A conversation acts on its own cart only: in mock mode a turn of
    [POST /chat] leaves the cart of every session other than the one of
    the request as it was, whatever the model asks for. *)
Theorem chat_touches_only_own_cart
    (genAI : GenerativeModel Args ToolResult) (fuel : nat)
    (sessions : gmap string Session) (w : World) (req : ChatRequest)
    (now : Z) (out : Outcome Args World) (other : string) :
  chat (new_ToolRegistry true callMCP) genAI fuel sessions w req now = Some out →
  other ≠ sessionIdOf (req_sessionId req) now →
  Inline.carts (mockService (out_world out)) !! other
  = Inline.carts (mockService w) !! other ∧
  Inline.viewCart (mockService (out_world out)) other
  = Inline.viewCart (mockService w) other.
Proof.
  intros Hchat Hother.
  pose (P := λ w' : World,
          Inline.carts (mockService w') !! other
          = Inline.carts (mockService w) !! other).
  assert (Hstep : ∀ toolName args w0,
    P w0 →
    P (executeTool (new_ToolRegistry true callMCP) toolName args
         {| ctx_sessionId := sessionIdOf (req_sessionId req) now |} w0).1).
  { intros toolName args w0 Hw0.
    destruct (mock_tool_step toolName args
                {| ctx_sessionId := sessionIdOf (req_sessionId req) now |} w0)
      as [_ Hservice].
    unfold P. destruct Hservice as [->|(c & Hc & ->)]; [done|].
    rewrite inline_after_carts_other; [done|]. rewrite Hc. simpl. congruence. }
  assert (Hcarts : P (out_world out)).
  { revert Hchat. unfold chat. fold (sessionIdOf (req_sessionId req) now).
    destruct (negb (JS.truthy (req_message req))); [by intros [= <-]|].
    match goal with
    | |- context [genAI ?h ?parts] => destruct (genAI h parts) as [r|details]
    end; [|by intros [= <-]].
    match goal with
    | |- context [functionCallLoop ?e ?c ?g ?h ?ctx ?f ?st] =>
        pose proof (loop_world_invariant e c g h ctx P f st Hstep) as Hloop;
        destruct (functionCallLoop e c g h ctx f st) as [st'|message st'|]
    end; [intros [= <-]; by apply Hloop..|done]. }
  split; [exact Hcarts|]. unfold Inline.viewCart. by rewrite Hcarts.
Qed.

End MockToolFacts.


Lemma chat_touches_only_own_cart_witness :
  let w :=
    withService world0
      (Inline.after Inline.new_MockZomatoService
         (Inline.CallAddToCart "s2" (Some "rest_001") (Some "item_002")
            (Some (JS.num 1)) None)) in
  ∃ out,
    chat (new_ToolRegistry true offline) addThenOrder 11 ∅ w orderRequest 0
    = Some out ∧
    (Inline.cart_total <$> Inline.carts (mockService (out_world out)) !! "s2")
    = Some (JS.num 80).
Proof.
  intros w.
  assert (Hout : ∃ out,
            chat (new_ToolRegistry true offline) addThenOrder 11 ∅ w
              orderRequest 0 = Some out).
  { eexists. vm_compute. reflexivity. }
  destruct Hout as (out & Hout). exists out. split; [exact Hout|].
  destruct (chat_touches_only_own_cart offline _ _ _ _ _ _ _ "s2" Hout)
    as [Hcarts _]; [done|].
  rewrite Hcarts. by vm_compute.
Defined.

(** * A turn of POST /chat and the sessions *)

Section TurnSessionFacts.
Context {Args ToolResult World : Type}.
Implicit Types (tools : ToolRegistry Args ToolResult World).
Implicit Types (genAI : GenerativeModel Args ToolResult).
Implicit Types (st : LoopState Args ToolResult World).

Local Open Scope nat_scope.

Lemma firstFunctionCall_dropOtherCalls (r : Response Args) :
  firstFunctionCall (dropOtherCalls r) = firstFunctionCall r.
Proof.
  unfold firstFunctionCall, dropOtherCalls. simpl.
  by destruct (functionCalls r) as [[|functionCall rest]|].
Qed.

(** The loop on two states that differ only in the calls after the first
    of the response they hold. *)
Lemma loop_firstCallOnly execute cap genAI h ctx fuel st1 st2 :
  response st1 = dropOtherCalls (response st2) →
  callCount st1 = callCount st2 → sent st1 = sent st2 →
  world st1 = world st2 → executed st1 = executed st2 →
  match functionCallLoop execute cap (firstCallOnly genAI) h ctx fuel st1,
        functionCallLoop execute cap genAI h ctx fuel st2 with
  | Exited st1', Exited st2' =>
      text (response st1') = text (response st2') ∧
      callCount st1' = callCount st2' ∧ world st1' = world st2' ∧
      executed st1' = executed st2'
  | Raised message1 st1', Raised message2 st2' =>
      message1 = message2 ∧ world st1' = world st2' ∧
      executed st1' = executed st2'
  | OutOfFuel, OutOfFuel => True
  | _, _ => False
  end.
Proof.
  revert st1 st2. induction fuel as [|fuel IH];
    intros st1 st2 Hresponse Hcount Hsent Hworld Hexecuted; simpl; [done|].
  rewrite Hresponse, firstFunctionCall_dropOtherCalls, Hcount.
  destruct (firstFunctionCall (response st2)) as [functionCall|];
    [|by rewrite Hresponse].
  destruct (callCount st2 <? cap); [|by rewrite Hresponse].
  unfold loopBody. rewrite Hworld, Hsent, Hexecuted, Hcount.
  destruct (execute _ _ _ _) as [w' [result|message]]; [|done].
  unfold firstCallOnly at 1.
  destruct (genAI h _) as [r|message]; [|done].
  by apply IH.
Qed.

(** Only the first function call of a response is run: the calls that a
    response holds after its first one are never looked at, so a model
    whose responses are cut down to their first call gives the same
    turn, with the same calls run, the same answer and the same sessions. *)
Theorem chat_runs_first_call_only tools genAI (fuel : nat)
    (sessions : gmap string Session) (w : World) (req : ChatRequest) (now : Z) :
  chat tools (firstCallOnly genAI) fuel sessions w req now
  = chat tools genAI fuel sessions w req now.
Proof.
  unfold chat.
  destruct (negb (JS.truthy (req_message req))); [done|].
  unfold firstCallOnly at 1.
  match goal with
  | |- context [genAI ?h ?parts] => destruct (genAI h parts) as [r|details]
  end; [|done].
  match goal with
  | |- match functionCallLoop ?e ?c _ ?h ?ctx ?f ?st1 with _ => _ end
       = match functionCallLoop _ _ _ _ _ _ ?st2 with _ => _ end =>
      pose proof (loop_firstCallOnly e c genAI h ctx f st1 st2
                    eq_refl eq_refl eq_refl eq_refl eq_refl) as Hloop;
      destruct (functionCallLoop e c (firstCallOnly genAI) h ctx f st1)
        as [st1'|message1 st1'|];
      destruct (functionCallLoop e c genAI h ctx f st2)
        as [st2'|message2 st2'|]
  end; try done.
  - destruct Hloop as (Htext & Hcount & Hworld & Hexecuted).
    unfold finalText. by rewrite Htext, Hcount, Hworld, Hexecuted.
  - destruct Hloop as (-> & Hworld & Hexecuted). by rewrite Hworld, Hexecuted.
Qed.

(** A turn touches one session: the entries of the other session ids are
    as they were, the time of creation of an existing session is kept, a
    turn that is refused for its message changes nothing at all, and any
    other turn on a new session id, failed turns included, leaves a
    session created at the time of the request. *)
Theorem chat_touches_one_session tools genAI (fuel : nat)
    (sessions : gmap string Session) (w : World) (req : ChatRequest)
    (now : Z) (out : Outcome Args World) :
  chat tools genAI fuel sessions w req now = Some out →
  let sessionId := sessionIdOf (req_sessionId req) now in
  (∀ other, other ≠ sessionId →
     out_sessions out !! other = sessions !! other) ∧
  (JS.truthy (req_message req) = false →
     out = {| out_sessions := sessions; out_world := w; out_executed := [];
              out_response := Json400 "Message required" |}) ∧
  (JS.truthy (req_message req) = true →
     ∃ session,
       out_sessions out !! sessionId = Some session ∧
       createdAt session
       = default now (createdAt <$> sessions !! sessionId)).
Proof.
  intros Hchat sessionId. revert Hchat. unfold chat.
  fold (sessionIdOf (req_sessionId req) now). fold sessionId.
  destruct (JS.truthy (req_message req)); cbn [negb].
  2:{ intros [= <-]. split_and!; [done | done | done]. }
  assert (Hcreated : ∀ h,
    createdAt (default {| history := h; createdAt := now |}
                 (sessions !! sessionId))
    = default now (createdAt <$> sessions !! sessionId)).
  { intros h. by destruct (sessions !! sessionId). }
  match goal with
  | |- context [genAI ?h ?parts] => destruct (genAI h parts) as [r|details]
  end.
  2:{ intros [= <-]. cbn [out_sessions]. split_and!; [|done|].
      - intros other Hother. by rewrite lookup_insert_ne.
      - intros _. eexists. split; [apply lookup_insert_eq | apply Hcreated]. }
  match goal with
  | |- context [functionCallLoop ?e ?c ?g ?h ?ctx ?f ?st] =>
      destruct (functionCallLoop e c g h ctx f st) as [st'|message st'|]
  end; [| |done].
  - intros [= <-]. cbn [out_sessions]. split_and!; [|done|].
    + intros other Hother. by rewrite !lookup_insert_ne.
    + intros _. eexists. split; [apply lookup_insert_eq | apply Hcreated].
  - intros [= <-]. cbn [out_sessions]. split_and!; [|done|].
    + intros other Hother. by rewrite lookup_insert_ne.
    + intros _. eexists. split; [apply lookup_insert_eq | apply Hcreated].
Qed.

(** A call of an unregistered tool fails the whole turn: when the first
    answer of the model asks for a name the registry does not hold, the
    turn ends with the 500 answer [Tool not found], no tool has run, the
    service and the history are as they were, and the model is not told:
    it is sent nothing after the user's message, so the turn is the same
    for every model that gives this first answer. *)
Theorem chat_unknown_tool_fails_turn tools genAI (fuel : nat)
    (sessions : gmap string Session) (w : World) (req : ChatRequest)
    (now : Z) (message : string) (r : Response Args)
    (functionCall : FunctionCall Args) :
  let sessionId := sessionIdOf (req_sessionId req) now in
  req_message req = Some message → message ≠ "" →
  genAI (historyOf sessions sessionId) [UserText message] = Return r →
  firstFunctionCall r = Some functionCall →
  JsMap.get tools (fc_name functionCall) = None →
  ∃ out,
    chat tools genAI (S fuel) sessions w req now = Some out ∧
    out_response out
    = Json500 "Request failed" ("Tool not found: " +:+ fc_name functionCall) ∧
    out_world out = w ∧
    (∀ other, historyOf (out_sessions out) other = historyOf sessions other) ∧
    (∀ genAI' : GenerativeModel Args ToolResult,
       genAI' (historyOf sessions sessionId) [UserText message] = Return r →
       chat tools genAI' (S fuel) sessions w req now = Some out).
Proof.
  intros sessionId Hmessage Hnonempty Hanswer Hfirst Hget.
  assert (Hturn : ∀ genAI' : GenerativeModel Args ToolResult,
    genAI' (historyOf sessions sessionId) [UserText message] = Return r →
    chat tools genAI' (S fuel) sessions w req now
    = Some {| out_sessions :=
                <[sessionId := default {| history := []; createdAt := now |}
                                 (sessions !! sessionId)]> sessions;
              out_world := w;
              out_executed := [functionCall];
              out_response :=
                Json500 "Request failed"
                  ("Tool not found: " +:+ fc_name functionCall) |}).
  { intros genAI' Hanswer'. unfold chat.
    fold (sessionIdOf (req_sessionId req) now). fold sessionId.
    rewrite Hmessage. cbn [JS.truthy default from_option id].
    destruct (String.eqb_spec message "") as [|_]; [done|]. cbn [negb].
    assert (Hhistory :
      history (default {| history := []; createdAt := now |}
                 (sessions !! sessionId)) = historyOf sessions sessionId).
    { unfold historyOf. by destruct (sessions !! sessionId). }
    rewrite Hhistory, Hanswer'. cbn [functionCallLoop response callCount].
    rewrite Hfirst. cbn [maxCalls Nat.ltb Nat.leb].
    unfold loopBody, executeTool. cbn [world]. by rewrite Hget. }
  eexists. split; [by apply Hturn|].
  cbn [out_response out_world out_sessions].
  split_and!; [done | done | | exact Hturn].
  intros other. unfold historyOf.
  destruct (decide (other = sessionId)) as [->|Hother].
  - rewrite lookup_insert_eq. by destruct (sessions !! sessionId).
  - by rewrite lookup_insert_ne.
Qed.

End TurnSessionFacts.

Lemma chat_touches_one_session_witness :
  ∃ out session,
    chat (new_ToolRegistry true offline) addThenOrder 11 ∅ world0
      orderRequest 7 = Some out ∧
    out_sessions out !! "s1" = Some session ∧
    createdAt session = 7%Z ∧
    out_sessions out !! "s2" = None.
Proof.
  assert (Hout : ∃ out,
            chat (new_ToolRegistry true offline) addThenOrder 11 ∅ world0
              orderRequest 7 = Some out).
  { eexists. vm_compute. reflexivity. }
  destruct Hout as (out & Hout).
  destruct (chat_touches_one_session _ _ _ _ _ _ _ _ Hout)
    as (Hothers & _ & Hsession).
  destruct (Hsession eq_refl) as (session & Hstored & Hcreated).
  exists out, session. split_and!; [done | done | done |].
  by rewrite (Hothers "s2").
Defined.

Lemma chat_unknown_tool_fails_turn_witness :
  ∃ out,
    chat (new_ToolRegistry true offline) askForRating 1 ∅ world0
      cartQuestion 0 = Some out ∧
    out_response out
    = Json500 "Request failed" "Tool not found: rate_restaurant" ∧
    out_world out = world0.
Proof.
  destruct (chat_unknown_tool_fails_turn (new_ToolRegistry true offline)
              askForRating 0 ∅ world0 cartQuestion 0 "What is in my cart?"
              {| functionCalls :=
                   Some [ {| fc_name := "rate_restaurant"; fc_args := noArgs |} ];
                 text := Return "" |}
              {| fc_name := "rate_restaurant"; fc_args := noArgs |})
    as (out & Hout & Hresponse & Hworld & _ & _); [done..|].
  exists out. by split_and!.
Defined.

(** * The default tools and the two modes *)

Lemma default_tool_unknown callMCP (USE_MOCK : bool) toolName :
  toolName ∉ toolNames →
  JsMap.get (new_ToolRegistry USE_MOCK callMCP) toolName = None.
Proof.
  intros Hunknown.
  destruct (default_tool_cases callMCP USE_MOCK toolName)
    as [[-> _]|[[-> _]|[[-> _]|[[-> _]|[[-> _]|[[-> _]|[_ Hnone]]]]]]];
    [destruct Hunknown; unfold toolNames; rewrite !elem_of_cons; auto 10..|done].
Qed.

(** The mode decides where a default tool runs.  In mock mode no tool
    reaches the remote client: the outcome of a call does not depend on
    it.  In production mode each of the six tools is forwarded to the
    remote client under its own name and nothing else is done, and the
    three cart tools send the session id of the context.  In both modes
    any other name throws [Tool not found] and changes nothing. *)
Theorem default_tools_follow_mode
    (callMCP callMCP' :
       string → list (string * JsVal) → World → World * Exc ToolResult)
    (toolName : string) (args : Args) (ctx : Context) (w : World) :
  executeTool (new_ToolRegistry true callMCP) toolName args ctx w
  = executeTool (new_ToolRegistry true callMCP') toolName args ctx w ∧
  (toolName ∈ toolNames →
   ∃ params,
     executeTool (new_ToolRegistry false callMCP) toolName args ctx w
     = callMCP toolName params w ∧
     (toolName ∈ ["add_to_cart"; "view_cart"; "place_order"] →
      ("session_id", Str (ctx_sessionId ctx)) ∈ params)) ∧
  (toolName ∉ toolNames →
   ∀ USE_MOCK,
     executeTool (new_ToolRegistry USE_MOCK callMCP) toolName args ctx w
     = (w, Throw ("Tool not found: " +:+ toolName))).
Proof.
  split_and!.
  - reflexivity.
  - unfold toolNames. rewrite !elem_of_cons, elem_of_nil.
    intros [->|[->|[->|[->|[->|[->|[]]]]]]];
      (eexists; split; [reflexivity|]);
      rewrite !elem_of_cons, elem_of_nil;
      try (intros [|[|[|[]]]]; discriminate);
      intros _; left; reflexivity.
  - intros Hunknown USE_MOCK. unfold executeTool.
    by rewrite default_tool_unknown.
Qed.

(** * server.js: the dispatch of function calls and the sessions *)

Section DispatchFacts.
Context {Remote : Type}.
Variable callTool :
  string → list (string * JsVal) → Remote → Remote * Exc ToolResult.
Local Open Scope nat_scope.

(** [handleFunctionCall] never throws.  Each of the six function names is
    forwarded to the remote service under the same name, the three cart
    functions with the session id of the turn, and an error of the remote
    service comes back as the payload [{error, message}]; any other name is
    answered with the payload [Unknown function] without reaching the
    remote service. *)
Theorem handleFunctionCall_forwards (functionName : string) (args : Args)
    (sessionId : string) (w : Remote) :
  (functionName ∈ toolNames →
   ∃ params,
     handleFunctionCall callTool functionName args sessionId w
     = caught (callTool functionName params w) ∧
     (functionName ∈ ["add_to_cart"; "view_cart"; "place_order"] →
      ("session_id", Str sessionId) ∈ params)) ∧
  (functionName ∉ toolNames →
   handleFunctionCall callTool functionName args sessionId w
   = (w, ErrorResult ("Unknown function: " +:+ functionName))).
Proof.
  split.
  - unfold toolNames. rewrite !elem_of_cons, elem_of_nil.
    intros [->|[->|[->|[->|[->|[->|[]]]]]]];
      unfold handleFunctionCall, dispatch; simpl;
      unfold client_searchRestaurants, client_getMenu, client_addToCart,
        client_viewCart, client_placeOrder, client_trackOrder;
      (eexists; split; [reflexivity|]);
      rewrite !elem_of_cons, elem_of_nil;
      try (intros [|[|[|[]]]]; discriminate);
      intros _; left; reflexivity.
  - unfold toolNames. rewrite !not_elem_of_cons.
    intros (H1 & H2 & H3 & H4 & H5 & H6 & _).
    unfold handleFunctionCall, dispatch.
    repeat match goal with
           | |- context [String.eqb functionName ?n] =>
               destruct (String.eqb_spec functionName n); [done|]
           end.
    done.
Qed.

(** A turn of server.js touches one session: the entries of the other
    session ids are as they were, and an existing session keeps the user
    id and the time of creation of the request that created it, whatever
    user id later requests carry. *)
Theorem server_session_keeps_first_user
    (genAI : GenerativeModel Args ToolResult) (fuel : nat)
    (sessions : gmap string ServerSession) (w : Remote)
    (req : ServerRequest) (now : Z) (out : ServerOutcome) :
  server_chat callTool genAI fuel sessions w req now = Some out →
  let sessionId := sessionIdOf (sreq_sessionId req) now in
  (∀ other, other ≠ sessionId →
     sout_sessions out !! other = sessions !! other) ∧
  (∀ session,
     sessions !! sessionId = Some session →
     ∃ session',
       sout_sessions out !! sessionId = Some session' ∧
       ss_userId session' = ss_userId session ∧
       ss_createdAt session' = ss_createdAt session) ∧
  (sessions !! sessionId = None →
   JS.truthy (sreq_message req) = true →
   ∃ session',
     sout_sessions out !! sessionId = Some session' ∧
     ss_userId session' = sreq_userId req ∧
     ss_createdAt session' = now).
Proof.
  intros Hchat sessionId. revert Hchat. unfold server_chat.
  fold (sessionIdOf (sreq_sessionId req) now). fold sessionId.
  destruct (JS.truthy (sreq_message req)); cbn [negb].
  2:{ intros [= <-]. cbn [sout_sessions]. split_and!; [done | | done].
      intros session Hsession. by exists session. }
  set (session0 := default {| ss_history := []; ss_userId := sreq_userId req;
                              ss_createdAt := now |} (sessions !! sessionId)).
  assert (Hkept : ∀ session' : ServerSession,
    ss_userId session' = ss_userId session0 →
    ss_createdAt session' = ss_createdAt session0 →
    (∀ session, sessions !! sessionId = Some session →
       ∃ session'', Some session' = Some session'' ∧
         ss_userId session'' = ss_userId session ∧
         ss_createdAt session'' = ss_createdAt session) ∧
    (sessions !! sessionId = None → true = true →
       ∃ session'', Some session' = Some session'' ∧
         ss_userId session'' = sreq_userId req ∧
         ss_createdAt session'' = now)).
  { intros session' Huser Hcreated. unfold session0 in *. split.
    - intros session Hsession. rewrite Hsession in *. by exists session'.
    - intros Hnone _. rewrite Hnone in *. by exists session'. }
  assert (Hfailed : ∀ (w' : Remote) executed response,
    let out := {| sout_sessions := <[sessionId := session0]> sessions;
                  sout_world := w'; sout_executed := executed;
                  sout_response := response |} in
    (∀ other, other ≠ sessionId →
       sout_sessions out !! other = sessions !! other) ∧
    (∀ session, sessions !! sessionId = Some session →
       ∃ session', sout_sessions out !! sessionId = Some session' ∧
         ss_userId session' = ss_userId session ∧
         ss_createdAt session' = ss_createdAt session) ∧
    (sessions !! sessionId = None → true = true →
       ∃ session', sout_sessions out !! sessionId = Some session' ∧
         ss_userId session' = sreq_userId req ∧
         ss_createdAt session' = now)).
  { intros w' executed response out'. unfold out'. cbn [sout_sessions].
    split; [intros other Hother; by rewrite lookup_insert_ne|].
    rewrite lookup_insert_eq. by apply Hkept. }
  match goal with
  | |- context [genAI ?h ?parts] => destruct (genAI h parts) as [r|details]
  end; [|intros [= <-]; apply Hfailed].
  match goal with
  | |- context [functionCallLoop ?e ?c ?g ?h ?ctx ?f ?st] =>
      destruct (functionCallLoop e c g h ctx f st) as [st'|message st'|]
  end; [|intros [= <-]; apply Hfailed|done].
  destruct (text (response st')) as [finalResponse|details];
    [|intros [= <-]; apply Hfailed].
  intros [= <-]. cbn [sout_sessions].
  split; [intros other Hother; by rewrite !lookup_insert_ne|].
  rewrite lookup_insert_eq. by apply Hkept.
Qed.


End DispatchFacts.

Lemma server_session_keeps_first_user_witness :
  let later :=
    {| sreq_message := Some "And now?"; sreq_sessionId := Some "s1";
       sreq_userId := Some "u2" |} in
  ∃ out session,
    server_chat countingRemote plainAnswer 11 afterOneTurn 0 later 9 = Some out ∧
    sout_sessions out !! "s1" = Some session ∧
    ss_userId session = Some "u1" ∧
    ss_createdAt session = 5%Z.
Proof.
  intros later.
  assert (Hout : ∃ out,
            server_chat countingRemote plainAnswer 11 afterOneTurn 0 later 9
            = Some out).
  { eexists. vm_compute. reflexivity. }
  destruct Hout as (out & Hout).
  assert (Hfirst : ∃ session, afterOneTurn !! "s1" = Some session ∧
                     ss_userId session = Some "u1" ∧ ss_createdAt session = 5%Z).
  { eexists. split; [vm_compute; reflexivity | by split]. }
  destruct Hfirst as (session & Hsession & Huser & Hcreated).
  destruct (server_session_keeps_first_user countingRemote _ _ _ _ _ _ _ Hout)
    as (_ & Hkept & _).
  destruct (Hkept session Hsession) as (session' & Hstored & Huser' & Hcreated').
  exists out, session'. split_and!; [done | done | congruence | congruence].
Defined.


(** * The history update on any history *)

(** Whatever the history holds, also one that is not made of whole turns,
    the update keeps its last 38 entries and appends the two entries of
    the turn: the result has at most 40 entries, ends with the new turn,
    and loses nothing when the history had at most 38 entries. *)
Theorem updateHistory_keeps_last_entries (h : list Content)
    (message finalResponse : string) :
  let h' := updateHistory h message finalResponse in
  h' = (drop (length h - 38) h
        ++ [ {| role := user; parts_text := message |};
             {| role := model; parts_text := finalResponse |} ])%list ∧
  length h' = Nat.min 40 (length h + 2) ∧
  ((length h ≤ 38)%nat →
   h' = (h ++ [ {| role := user; parts_text := message |};
                {| role := model; parts_text := finalResponse |} ])%list).
Proof.
  intros h'.
  assert (Hform : h' = (drop (length h - 38) h
        ++ [ {| role := user; parts_text := message |};
             {| role := model; parts_text := finalResponse |} ])%list).
  { unfold h', updateHistory, JS.slice_last, historyCap.
    rewrite length_app. cbn [length].
    destruct (Nat.ltb_spec 40 (length h + 2)) as [Hlong|Hshort].
    - rewrite drop_app_le by lia. do 2 f_equal. lia.
    - replace (length h - 38)%nat with 0%nat by lia. done. }
  split; [exact Hform|]. split.
  - rewrite Hform, length_app, length_drop. cbn [length]. lia.
  - intros Hshort. rewrite Hform.
    replace (length h - 38)%nat with 0%nat by lia. done.
Qed.

(** * The mock service of gemini-food-ordering.js *)

(** [addToCart] of the class that gemini-food-ordering.js declares looks
    nothing up: it succeeds for every restaurant id and item id, known,
    unknown or undefined, and the line it appends is always named
    [Sev Usal] and priced 80, so an item that the menu of the same class
    lists under another name and price enters the cart as [Sev Usal] at
    80. *)
Theorem inline_addToCart_ignores_menu (this : Inline.MockZomatoService)
    (sessionId : string) (restaurantId itemId : option string)
    (quantity : option JS.number) (customizations : option string) :
  let call :=
    Inline.addToCart this sessionId restaurantId itemId quantity
      customizations in
  (∃ payload cart,
     call.2 = Success payload ∧ Inline.atc_cart payload = cart ∧
     Inline.carts call.1 !! sessionId = Some cart ∧
     ∃ before,
       Inline.cart_items cart
       = (before ++ [ {| Inline.ci_itemId := itemId;
                         Inline.ci_name := "Sev Usal";
                         Inline.ci_price := JS.num 80;
                         Inline.ci_quantity := quantity;
                         Inline.ci_customizations := customizations |} ])%list ∧
       (before = match Inline.carts this !! sessionId with
                 | Some old => Inline.cart_items old
                 | None => []
                 end)) ∧
  (∃ menu item,
     Inline.getMenu (Some "rest_001") = Success (JS.Own menu) ∧
     item ∈ menuItems (menu_categories menu) ∧
     mi_id item = "item_002" ∧ mi_name item = "Dabeli" ∧
     mi_price item = JS.num 40).
Proof.
  intros call. split.
  - unfold call, Inline.addToCart. eexists _, _. cbn [fst snd Inline.carts].
    split_and!; [done | done | apply lookup_insert_eq |].
    eexists. cbn [Inline.atc_cart Inline.cart_items]. split; [done|].
    by destruct (Inline.carts this !! sessionId).
  - eexists _, _. split; [reflexivity|].
    split; [unfold menuItems; simpl; right; left|].
    split_and!; reflexivity.
Qed.

Lemma inline_runningTotal_snoc items line :
  Inline.runningTotal (items ++ [line])
  = JS.add (Inline.runningTotal items)
      (JS.mul (Inline.ci_price line) (JS.toNumber (Inline.ci_quantity line))).
Proof. unfold Inline.runningTotal. by rewrite fold_left_app. Qed.

Lemma inline_reachable_invariant this :
  Inline.reachable this →
  map_Forall (λ _ cart,
    Inline.cart_total cart = Inline.runningTotal (Inline.cart_items cart) ∧
    Forall (λ line, Inline.ci_name line = "Sev Usal" ∧
                    Inline.ci_price line = JS.num 80)
      (Inline.cart_items cart))
    (Inline.carts this) ∧
  map_Forall (λ orderId order,
    Inline.ord_orderId order = orderId ∧
    Inline.ord_status order = "confirmed" ∧
    Inline.ord_items order ≠ [] ∧
    Inline.ord_total order = Inline.runningTotal (Inline.ord_items order) ∧
    Forall (λ line, Inline.ci_name line = "Sev Usal" ∧
                    Inline.ci_price line = JS.num 80)
      (Inline.ord_items order))
    (Inline.orders this).
Proof.
  induction 1 as [|this c _ [Hcarts Horders]].
  - split; apply map_Forall_empty.
  - destruct c as [s r i q cu|s a p now]; simpl.
    + split; [|done]. apply map_Forall_insert_2; [|done]. simpl.
      destruct (Inline.carts this !! s) as [cart|] eqn:Hcart; simpl.
      * destruct (Hcarts _ _ Hcart) as [Htotal Hlines].
        rewrite inline_runningTotal_snoc, Htotal. split; [done|].
        apply Forall_app. split; [done|]. by repeat constructor.
      * split; [done|]. by repeat constructor.
    + unfold Inline.placeOrder.
      destruct (Inline.carts this !! s) as [cart|] eqn:Hcart; [|done].
      destruct (Nat.eqb_spec (length (Inline.cart_items cart)) 0) as [|Hlen];
        [done|].
      simpl. split; [by apply map_Forall_delete|].
      apply map_Forall_insert_2; [|done]. simpl.
      destruct (Hcarts _ _ Hcart) as [Htotal Hlines].
      split_and!; [done | done | by destruct (Inline.cart_items cart)
                  | done | done].
Qed.

(** On the service object of gemini-food-ordering.js an order never
    leaves the status [confirmed]: [trackOrder] only reads, so every order
    that a program can reach is answered as it was stored, under its own
    id, with the status [confirmed] and at least one line, however often
    it is tracked.  Every line is a [Sev Usal] at 80, and the total is what
    [cart.total += item.price * quantity] made of it: the sum, in double
    precision from 0 and in line order, of 80 times the quantity of each
    line, where an undefined quantity counts as NaN.  An undefined or
    unknown id is answered with [Order not found]. *)
Theorem inline_orders_stay_confirmed (this : Inline.MockZomatoService)
    (orderId : option string) :
  Inline.reachable this →
  match Inline.trackOrder this orderId with
  | Success order =>
      ∃ id,
        orderId = Some id ∧
        Inline.orders this !! id = Some order ∧
        Inline.ord_orderId order = id ∧
        Inline.ord_status order = "confirmed" ∧
        Inline.ord_items order ≠ [] ∧
        Forall (λ line, Inline.ci_name line = "Sev Usal" ∧
                        Inline.ci_price line = JS.num 80)
          (Inline.ord_items order) ∧
        Inline.ord_total order
        = fold_left (λ total line,
                       JS.add total
                         (JS.mul (JS.num 80)
                            (JS.toNumber (Inline.ci_quantity line))))
            (Inline.ord_items order) JS.zero
  | Failure error =>
      (∀ id, orderId = Some id → Inline.orders this !! id = None) ∧
      error = "Order not found"
  | Thrown _ => False
  end.
Proof.
  intros [_ Horders]%inline_reachable_invariant. unfold Inline.trackOrder.
  destruct orderId as [id|]; [|done].
  destruct (Inline.orders this !! id) as [order|] eqn:Horder.
  2:{ split; [|done]. by intros ? [= <-]. }
  destruct (Horders _ _ Horder) as (Hid & Hstatus & Hitems & Htotal & Hlines).
  exists id. split_and!; [done..|].
  rewrite Htotal. unfold Inline.runningTotal.
  revert Hlines. generalize JS.zero. generalize (Inline.ord_items order).
  induction l as [|line items IH]; intros total Hlines; [done|].
  apply Forall_cons in Hlines as [[_ Hprice] Hlines]. simpl.
  rewrite Hprice. by apply IH.
Qed.

Lemma inline_orders_stay_confirmed_witness :
  let this :=
    Inline.after
      (Inline.after Inline.new_MockZomatoService
         (Inline.CallAddToCart "s1" (Some "rest_001") (Some "item_002")
            (Some (JS.num 3)) None))
      (Inline.CallPlaceOrder "s1" (Some "123 Main St") (Some "card") 17) in
  ∃ order,
    Inline.trackOrder this (Some "ORD17") = Success order ∧
    Inline.ord_status order = "confirmed" ∧
    Inline.ord_total order = JS.num 240.
Proof.
  intros this.
  assert (Hreach : Inline.reachable this) by (repeat constructor).
  pose proof (inline_orders_stay_confirmed this (Some "ORD17") Hreach) as Htrack.
  assert (Horder : ∃ order,
            Inline.trackOrder this (Some "ORD17") = Success order ∧
            (Inline.ci_quantity <$> Inline.ord_items order)
            = [Some (JS.num 3)]).
  { eexists. split; [vm_compute; reflexivity | reflexivity]. }
  destruct Horder as (order & Horder & Hquantities).
  rewrite Horder in Htrack.
  destruct Htrack as (id & _ & _ & _ & Hstatus & _ & _ & Htotal).
  exists order. split_and!; [done | done |].
  rewrite Htotal. destruct (Inline.ord_items order) as [|line [|]]; try done.
  injection Hquantities as Hquantity. cbn [fold_left].
  rewrite Hquantity. by vm_compute.
Defined.

(** The search of the class that gemini-food-ordering.js declares hardly
    depends on the location: its table holds the one region it also falls
    back to.  Every ASCII location whose normalised form is not the name
    of an inherited property, known or not, gives the answer of
    [vadodara].  At [constructor] and [__proto__] the search finds the
    inherited value: with a filter it throws a [TypeError], without one it
    answers with that value.  An undefined location throws. *)
Theorem inline_search_ignores_location (location : string)
    (cuisine priceRange : option string) :
  JS.isAscii location = true →
  let key := JS.stripWhitespace (JS.toLowerCase location) in
  (key ∉ inheritedLocations →
   Inline.searchRestaurants (Some location) cuisine priceRange
   = Inline.searchRestaurants (Some "vadodara") cuisine priceRange) ∧
  (key ∈ inheritedLocations →
   Inline.searchRestaurants (Some location) cuisine priceRange
   = if JS.truthy cuisine || JS.truthy priceRange
     then Thrown "results.filter is not a function"
     else Success {| Inline.sp_count := JS.lengthOf key;
                     Inline.sp_restaurants := JS.Inherited key |}) ∧
  Inline.searchRestaurants None cuisine priceRange
  = Thrown (UndefinedError "toLowerCase").
Proof.
  intros _ key. split_and!; [| |done].
  - intros Hkey.
    assert (Hown : JS.inherited key = false).
    { destruct (JS.inherited key) eqn:H; [|done].
      by apply inherited_location in H. }
    unfold Inline.searchRestaurants. fold key.
    change (JS.stripWhitespace (JS.toLowerCase "vadodara")) with "vadodara".
    unfold JS.get at 1. rewrite Hown.
    destruct (Inline.restaurants !! key) as [rs|] eqn:Hrs; [|done].
    unfold Inline.restaurants in Hrs. apply elem_of_list_to_map_2 in Hrs.
    apply list_elem_of_singleton in Hrs. by injection Hrs as -> ->.
  - intros Hkey. unfold Inline.searchRestaurants. fold key.
    assert (Inline.restaurants !! key = None) as Hnone.
    { unfold inheritedLocations in Hkey.
      rewrite !elem_of_cons, elem_of_nil in Hkey.
      by destruct Hkey as [->|[->|[]]]. }
    apply inherited_location in Hkey. fold key in Hkey.
    unfold JS.get. by rewrite Hnone, Hkey.
Qed.

Lemma inline_search_ignores_location_witness :
  Inline.searchRestaurants (Some "Mumbai") (Some "gujarati") None
  = Inline.searchRestaurants (Some "vadodara") (Some "gujarati") None ∧
  Inline.searchRestaurants (Some "Constructor") (Some "gujarati") None
  = Thrown "results.filter is not a function".
Proof.
  split.
  - apply (inline_search_ignores_location "Mumbai" (Some "gujarati") None
             eq_refl).
    unfold inheritedLocations. rewrite !elem_of_cons, elem_of_nil.
    intros [|[|[]]]; discriminate.
  - apply (inline_search_ignores_location "Constructor" (Some "gujarati") None
             eq_refl).
    unfold inheritedLocations. simpl. left.
Defined.
